(** * pyoti.evaluate.step_finder: a shallow embedding and its properties

    The step finder works on NumPy arrays of IEEE-754 binary64 numbers and on
    Python lists of integers.  Arrays are modelled as lists, Python integers
    as [Z], and floating-point numbers through the interface [Scalar], which
    has two instances: [float] (Rocq's primitive binary64 numbers, on which
    every example is evaluated) and [Exact.ereal] (exact reals extended by
    one undefined value, used to state algebraic identities that hold only up
    to rounding on binary64).  Exceptions raised by Python are results of the
    type [outcome]; arrays that a function may write to live on a [Heap].

    The file has three parts: the embedding of the module, function by
    function and under the names of the source; the notions that the
    properties are stated with, and the inputs of the examples; and the
    properties with their proofs.  Routines that the module imports from
    files that are not at hand ([helpers], [signal], [fast]) are modelled
    from the specification and marked as such, or taken as parameters. *)

From Stdlib Require Import ZArith List Bool Lia Floats Uint63 Reals Lra.
Import ListNotations.
Local Open Scope Z_scope.

Set Implicit Arguments.

(* ================================================================== *)
(** * Python exceptions *)
(* ================================================================== *)

Inductive exn : Type :=
| IndexError
| ValueError
| ZeroDivisionError
| OverflowError
| TypeError.

Inductive outcome (A : Type) : Type :=
| Ok (a : A)
| Raise (e : exn).

Arguments Ok {A} a.
Arguments Raise {A} e.

Definition bind {A B : Type} (m : outcome A) (k : A -> outcome B) : outcome B :=
  match m with
  | Ok a => k a
  | Raise e => Raise e
  end.

Notation "'let*' x ':=' m 'in' k" := (bind m (fun x => k))
  (at level 10, x pattern, m at level 100, k at level 200).

Definition returns {A : Type} (m : outcome A) : Prop := exists a, m = Ok a.


(* ================================================================== *)
(** * Floating-point interface *)
(* ================================================================== *)

(** The operations of binary64 numbers that the step finder uses.  [rint x]
    is Python's [int(np.round(x))]: rounding to nearest, ties to even, and no
    result on NaN and on the infinities (Python raises there). *)
Class Scalar (F : Type) : Type := {
  of_Z : Z -> F;
  fnan : F;
  fadd : F -> F -> F;
  fsub : F -> F -> F;
  fmul : F -> F -> F;
  fdiv : F -> F -> F;
  fsqrt : F -> F;
  fabs : F -> F;
  fneg : F -> F;
  fltb : F -> F -> bool;
  feqb : F -> F -> bool;
  isnan : F -> bool;
  rint : F -> option Z
}.

Module Float64.

Definition float_of_Z (z : Z) : float :=
  match z with
  | Z0 => PrimFloat.zero
  | Zpos _ => PrimFloat.of_uint63 (Uint63.of_Z z)
  | Zneg p => PrimFloat.opp (PrimFloat.of_uint63 (Uint63.of_Z (Zpos p)))
  end.

(** Round half to even on the magnitude [m * 2^e] of a finite number. *)
Definition round_magnitude (m : positive) (e : Z) : Z :=
  if 0 <=? e then Zpos m * 2 ^ e
  else
    let d := 2 ^ (- e) in
    let q := Zpos m / d in
    let r := Zpos m mod d in
    let h := d / 2 in
    if r <? h then q
    else if h <? r then q + 1
    else if Z.even q then q else q + 1.

Definition float_rint (x : float) : option Z :=
  match Prim2SF x with
  | S754_zero _ => Some 0
  | S754_finite s m e =>
      let v := round_magnitude m e in
      Some (if s then - v else v)
  | S754_infinity _ => None
  | S754_nan => None
  end.

End Float64.

#[export] Instance float_scalar : Scalar float := {
  of_Z := Float64.float_of_Z;
  fnan := PrimFloat.nan;
  fadd := PrimFloat.add;
  fsub := PrimFloat.sub;
  fmul := PrimFloat.mul;
  fdiv := PrimFloat.div;
  fsqrt := PrimFloat.sqrt;
  fabs := PrimFloat.abs;
  fneg := PrimFloat.opp;
  fltb := PrimFloat.ltb;
  feqb := PrimFloat.eqb;
  isnan := PrimFloat.is_nan;
  rint := Float64.float_rint
}.

(** Exact reals with one undefined value [None], which plays the part of NaN:
    it is what a division by zero and the square root of a negative number
    give, and every operation propagates it. *)
Module Exact.

Abbreviation ereal := (option R) (only parsing).

Definition lift2 (op : R -> R -> R) (x y : ereal) : ereal :=
  match x, y with
  | Some a, Some b => Some (op a b)
  | _, _ => None
  end.

Definition ediv (x y : ereal) : ereal :=
  match x, y with
  | Some a, Some b => if Req_dec_T b 0%R then None else Some (a / b)%R
  | _, _ => None
  end.

Definition esqrt (x : ereal) : ereal :=
  match x with
  | Some a => if Rlt_dec a 0%R then None else Some (sqrt a)
  | None => None
  end.

Definition eabs (x : ereal) : ereal :=
  match x with
  | Some a => Some (Rabs a)
  | None => None
  end.

Definition eopp (x : ereal) : ereal :=
  match x with
  | Some a => Some (- a)%R
  | None => None
  end.

Definition eltb (x y : ereal) : bool :=
  match x, y with
  | Some a, Some b => if Rlt_dec a b then true else false
  | _, _ => false
  end.

Definition eeqb (x y : ereal) : bool :=
  match x, y with
  | Some a, Some b => if Req_dec_T a b then true else false
  | _, _ => false
  end.

Definition eisnan (x : ereal) : bool :=
  match x with
  | Some _ => false
  | None => true
  end.

Definition erint (x : ereal) : option Z :=
  match x with
  | Some a =>
      let n := (up a - 1)%Z in
      let r := (a - IZR n)%R in
      Some (if Rlt_dec r (1 / 2)%R then n
            else if Rlt_dec (1 / 2)%R r then n + 1
            else if Z.even n then n else n + 1)
  | None => None
  end.

End Exact.

#[export] Instance ereal_scalar : Scalar Exact.ereal := {
  of_Z := fun z => Some (IZR z);
  fnan := None;
  fadd := Exact.lift2 Rplus;
  fsub := Exact.lift2 Rminus;
  fmul := Exact.lift2 Rmult;
  fdiv := Exact.ediv;
  fsqrt := Exact.esqrt;
  fabs := Exact.eabs;
  fneg := Exact.eopp;
  fltb := Exact.eltb;
  feqb := Exact.eeqb;
  isnan := Exact.eisnan;
  rint := Exact.erint
}.

(* ================================================================== *)
(** * Python lists and NumPy arrays *)
(* ================================================================== *)

Definition len {A : Type} (l : list A) : Z := Z.of_nat (length l).

(** Python's normalisation of a slice bound against a sequence of length
    [n]: a negative bound counts from the end, and both are clipped. *)
Definition clip_index (n i : Z) : Z :=
  if i <? 0 then Z.max (i + n) 0 else Z.min i n.

(** [l[lo:hi]] *)
Definition py_slice {A : Type} (l : list A) (lo hi : Z) : list A :=
  let a := clip_index (len l) lo in
  let b := clip_index (len l) hi in
  firstn (Z.to_nat (b - a)) (skipn (Z.to_nat a) l).

(** [l[lo:]] and [l[:hi]] *)
Definition py_slice_from {A : Type} (l : list A) (lo : Z) : list A :=
  py_slice l lo (len l).

Definition py_slice_to {A : Type} (l : list A) (hi : Z) : list A :=
  py_slice l 0 hi.

(** [l[i]], with Python's negative indices and its [IndexError]. *)
Definition py_get {A : Type} (l : list A) (i : Z) : outcome A :=
  let j := if i <? 0 then i + len l else i in
  if (j <? 0) || (len l <=? j) then Raise IndexError
  else match nth_error l (Z.to_nat j) with
       | Some x => Ok x
       | None => Raise IndexError
       end.

Fixpoint replace_nth {A : Type} (n : nat) (v : A) (l : list A) : list A :=
  match l, n with
  | [], _ => []
  | _ :: t, O => v :: t
  | x :: t, S m => x :: replace_nth m v t
  end.

(** [l[i] = v] *)
Definition py_set {A : Type} (l : list A) (i : Z) (v : A) : outcome (list A) :=
  let j := if i <? 0 then i + len l else i in
  if (j <? 0) || (len l <=? j) then Raise IndexError
  else Ok (replace_nth (Z.to_nat j) v l).

Definition remove_at {A : Type} (k : nat) (l : list A) : list A :=
  firstn k l ++ skipn (S k) l.

(** [l.pop(i)]: the list without its element at [i]. *)
Definition py_pop {A : Type} (l : list A) (i : Z) : outcome (list A) :=
  let j := if i <? 0 then i + len l else i in
  if (j <? 0) || (len l <=? j) then Raise IndexError
  else Ok (remove_at (Z.to_nat j) l).

(** [l.pop()] *)
Definition py_pop_last {A : Type} (l : list A) : outcome (list A) :=
  py_pop l (-1).

(** [a[lo:hi] = v] on a NumPy array: the value must have the length of the
    slice, or length one (it is then broadcast); otherwise [ValueError]. *)
Definition np_set_slice {A : Type} (a : list A) (lo hi : Z) (v : list A)
  : outcome (list A) :=
  let s := clip_index (len a) lo in
  let e := Z.max s (clip_index (len a) hi) in
  let m := Z.to_nat (e - s) in
  let pre := firstn (Z.to_nat s) a in
  let post := skipn (Z.to_nat e) a in
  if Nat.eqb (length v) m then Ok (pre ++ v ++ post)
  else match v with
       | [x] => Ok (pre ++ repeat x m ++ post)
       | _ => Raise ValueError
       end.

Fixpoint zip_with {A B C : Type} (f : A -> B -> C) (la : list A) (lb : list B)
  : list C :=
  match la, lb with
  | x :: ta, y :: tb => f x y :: zip_with f ta tb
  | _, _ => []
  end.

(** [np.arange(lo, hi)] *)
Definition np_arange (lo hi : Z) : list Z :=
  map (fun k => lo + Z.of_nat k) (seq 0 (Z.to_nat (hi - lo))).

(** [x or d] for an optional integer: [None] and [0] are falsy. *)
Definition or_default (x : option Z) (d : Z) : Z :=
  match x with
  | Some v => if v =? 0 then d else v
  | None => d
  end.

(** A number where Python's type of it matters: an [int] or a [float]. *)
Inductive py_number (F : Type) : Type :=
| PyInt (z : Z)
| PyFloat (x : F).

Arguments PyInt {F} z.
Arguments PyFloat {F} x.

(** The type of an integer where it matters: Python's [int], or NumPy's
    [int64], which is what the entries of an array of integers are. *)
Inductive int_type : Type :=
| python_int
| numpy_int64.

(** [int(np.round(t / 2))] for an integer [t], ties to even.  The step
    finder rounds the midpoints [p0 + (p1 - p0) / 2] and [p1 - (p1 - p0) / 2]
    of integer bounds this way; on binary64 these half-integers are exact
    (below 2^52), so the rounding is computed on the integers. *)
Definition round_half (t : Z) : Z :=
  let q := t / 2 in
  if Z.even t then q else if Z.even q then q else q + 1.

(** [int(np.round(p0 + (p1 - p0) / 2))] and
    [int(np.round(p1 - (p1 - p0) / 2))] *)
Definition midpoint_up (p0 p1 : Z) : Z := round_half (2 * p0 + (p1 - p0)).
Definition midpoint_down (p0 p1 : Z) : Z := round_half (2 * p1 - (p1 - p0)).

Section Numpy.

Context {F : Type} {SF : Scalar F}.

Definition fzero : F := of_Z 0.
Definition fone : F := of_Z 1.
Definition fgtb (x y : F) : bool := fltb y x.
Definition fsq (x : F) : F := fmul x x.

(** [x or d] for an optional number: [None], the integer [0] and a float
    that equals zero are falsy; NaN is not. *)
Definition number_or_default (x : option (py_number F)) (d : py_number F)
  : py_number F :=
  match x with
  | Some (PyInt z) => if z =? 0 then d else PyInt z
  | Some (PyFloat v) => if feqb v fzero then d else PyFloat v
  | None => d
  end.

(** [-p] as the binary64 number that NumPy makes of it, where it is the
    exponent of [**] on an array of floats. *)
Definition negated (p : py_number F) : F :=
  match p with
  | PyInt z => of_Z (- z)
  | PyFloat v => fneg v
  end.

(** [x / y] on two Python floats: a divisor that equals zero raises. *)
Definition py_truediv (x y : F) : outcome F :=
  if feqb y fzero then Raise ZeroDivisionError else Ok (fdiv x y).

(** [n / y] for an integer and a Python float: with a Python [int] a divisor
    that equals zero raises; with a NumPy [int64] the quotient is then an
    infinity or NaN, as on arrays. *)
Definition int_truediv (t : int_type) (n : Z) (y : F) : outcome F :=
  match t with
  | python_int => py_truediv (of_Z n) y
  | numpy_int64 => Ok (fdiv (of_Z n) y)
  end.

Definition np_full (n : Z) (v : F) : list F := repeat v (Z.to_nat n).

Definition np_sum (l : list F) : F := fold_left fadd l fzero.

Definition np_mean (l : list F) : F := fdiv (np_sum l) (of_Z (len l)).

Definition np_nanmean (l : list F) : F :=
  np_mean (filter (fun x => negb (isnan x)) l).

(** [np.std], with denominator [n]. *)
Definition np_std (l : list F) : F :=
  let m := np_mean l in
  fsqrt (np_mean (map (fun x => fsq (fsub x m)) l)).

Fixpoint insert_sorted (x : F) (l : list F) : list F :=
  match l with
  | [] => [x]
  | y :: t => if fltb y x then y :: insert_sorted x t else x :: y :: t
  end.

Definition np_sort (l : list F) : list F := fold_right insert_sorted [] l.

(** [np.median]: NaN as soon as one entry is NaN, and on the empty array. *)
Definition np_median (l : list F) : F :=
  if existsb isnan l then fnan
  else
    let s := np_sort l in
    let n := length s in
    match n with
    | O => fnan
    | _ =>
        if Nat.even n
        then fdiv (fadd (nth (n / 2 - 1) s fnan) (nth (n / 2) s fnan)) (of_Z 2)
        else nth (n / 2) s fnan
    end.

(** [np.nanpercentile(l, q, interpolation='midpoint')] for the quartiles
    [num/4], on an array without NaN: the mean of the two order statistics
    that surround the position [num/4 * (n-1)]. *)
Definition quartile_midpoint (num : Z) (l : list F) : F :=
  let s := np_sort l in
  let n := len s in
  if n =? 0 then fnan
  else
    let lo := (num * (n - 1)) / 4 in
    let hi := (num * (n - 1) + 3) / 4 in
    fdiv (fadd (nth (Z.to_nat lo) s fnan) (nth (Z.to_nat hi) s fnan)) (of_Z 2).

(** [np.random.normal(loc, scale, size)]: [g] is the generator's stream of
    standard normal variates; the samples are [loc + scale * g k]. *)
Definition np_random_normal (g : nat -> F) (loc scale : F) (size : Z)
  : outcome (list F) :=
  if size <? 0 then Raise ValueError
  else Ok (map (fun k => fadd loc (fmul scale (g k))) (seq 0 (Z.to_nat size))).

End Numpy.

(* ================================================================== *)
(** * The forward-backward nonlinear filter *)
(* ================================================================== *)

(** The tuple that [_filter_fbnl] and [_filter_fbnl_capped] return. *)
Module FBNLCore.
Record t (F : Type) : Type := mk {
  data : list F;
  resolution : F;
  window : Z;
  window_var : Z;
  p : py_number F;
  data_filtered : list F;
  sf : list F;
  sb : list F;
  f : list F;
  b : list F;
  xf : list F;
  xb : list F
}.
End FBNLCore.

(** The named tuple [FBNLFilterResult]. *)
Module FBNLFilterResult.
Record t (F : Type) : Type := mk {
  data : list F;
  resolution : F;
  window : Z;
  window_var : Z;
  p : py_number F;
  data_filtered : list F;
  sf : list F;
  sb : list F;
  f : list F;
  b : list F;
  xf : list F;
  xb : list F;
  step_mass : list F;
  step_size : list F;
  noise : list F;
  noise_mean : F;
  aSNR : F;
  mSNR : F;
  STD : F;
  outls : list bool
}.
End FBNLFilterResult.

Section Filter.

Context {F : Type} {SF : Scalar F}.

(** [np.power], the routine of NumPy behind [x ** y] on binary64 numbers,
    is taken as given. *)
Variable np_power : F -> F -> F.

(** [iqr_outlier_threshold(signal, iqr_factor)] *)
Definition iqr_outlier_threshold (signal : list F) (iqr_factor : F) : F :=
  let signal := filter (fun x => negb (isnan x)) signal in
  let qrt1 := quartile_midpoint 1 signal in
  let qrt3 := quartile_midpoint 3 signal in
  let iqr := fsub qrt3 qrt1 in
  let upper := fadd qrt3 (fmul iqr iqr_factor) in
  let lower := fsub qrt1 (fmul iqr iqr_factor) in
  fdiv (fsub upper lower) (of_Z 2).

(** [cap_data(data, cap_length, inspect_length)]; [g] is the random
    generator's stream of standard normal variates. *)
Definition cap_data (g : nat -> F) (data : list F)
           (cap_length inspect_length : Z) : outcome (list F) :=
  let median_start := np_median (py_slice_to data (inspect_length + 1)) in
  let std_start := np_std (py_slice_to data (inspect_length + 1)) in
  let median_stop := np_median (py_slice_from data (- inspect_length)) in
  let std_stop := np_std (py_slice_from data (- inspect_length)) in
  let* noise_start := np_random_normal g median_start std_start cap_length in
  let* noise_stop :=
    np_random_normal (fun k => g (k + Z.to_nat cap_length)%nat)
                     median_stop std_stop cap_length in
  Ok (noise_start ++ data ++ noise_stop).

(** Modelled from the spec: [helpers.moving_mean], which is not part of the
    sources at hand.  The forward estimate at [i] is the mean over
    [[i-window, i)] and [xf[k] = x[k-window]], so [x[j]] is the mean of
    [data[j:j+window]], for every [j] with a full window. *)
Definition moving_mean (data : list F) (window : Z) : list F :=
  map (fun j => np_mean (py_slice data j (j + window)))
      (np_arange 0 (len data - window + 1)).

(** Reading a C array at an index (the loop below stays in bounds). *)
Definition at_index (a : list F) (i : Z) : F := nth (Z.to_nat i) a fnan.

(** Modelled from the spec: [fast._iterative_variance], a Cython function
    that is not part of the sources at hand.  [sf[i]] is the sum of the
    squared residuals of the signal against [xf] over the [window_var]
    samples that end at [i], [sb[i]] the same against [xb] over the
    [window_var] samples that start at [i]; sliding from [i-1] to [i] removes
    the dropped term and adds the entering one. *)
Definition _iterative_variance (data sf sb xf xb : list F)
           (start stop window_var : Z) : list F * list F :=
  fold_left
    (fun (acc : list F * list F) (i : Z) =>
       let (sf, sb) := acc in
       let res := fun (x : list F) (k : Z) =>
                    fsq (fsub (at_index data k) (at_index x k)) in
       let sf_i := fadd (fsub (at_index sf (i - 1)) (res xf (i - window_var)))
                        (res xf i) in
       let sb_i := fadd (fsub (at_index sb (i - 1)) (res xb (i - 1)))
                        (res xb (i + window_var - 1)) in
       (replace_nth (Z.to_nat i) sf_i sf, replace_nth (Z.to_nat i) sb_i sb))
    (np_arange start stop) (sf, sb).

(** [_filter_fbnl(data, resolution, window, window_var, p)].  The exponent
    [p] is a Python number, an [int] or a [float]; its default is the
    integer 1.  The warning printed about the ratio of the weights has no
    effect on the result. *)
Definition _filter_fbnl (data : list F) (resolution : F) (window : Z)
           (window_var : option Z) (p : option (py_number F))
  : outcome (FBNLCore.t F) :=
  let N := len data in
  let window_var := or_default window_var window in
  let p := number_or_default p (PyInt 1) in
  let sf := np_full N fnan in
  let sb := np_full N fnan in
  let xb := np_full N fnan in
  let xf := np_full N fnan in
  let x := moving_mean data window in
  let* xb := np_set_slice xb window (N - window) (py_slice_from x (window + 1)) in
  let* xf := np_set_slice xf window (N - window) (py_slice_to x (N - 2 * window)) in
  let loss := window + window_var - 1 in
  let* sf :=
    py_set sf loss
      (np_sum (map fsq (zip_with fsub (py_slice data window (loss + 1))
                                      (py_slice xf window (loss + 1))))) in
  let* sb :=
    py_set sb loss
      (np_sum (map fsq (zip_with fsub (py_slice data loss (loss + window_var))
                                      (py_slice xb loss (loss + window_var))))) in
  let start := loss + 1 in
  let stop := N - loss in
  let (sf, sb) := _iterative_variance data sf sb xf xb start stop window_var in
  let sf := map (fun v => fdiv v (of_Z window_var)) sf in
  let sb := map (fun v => fdiv v (of_Z window_var)) sb in
  let f := map (fun v => np_power v (negated p)) sf in
  let b := map (fun v => np_power v (negated p)) sb in
  let total := zip_with fadd f b in
  let f := zip_with fdiv f total in
  let b := zip_with fdiv b total in
  let data_filtered := zip_with fadd (zip_with fmul f xf) (zip_with fmul b xb) in
  Ok (FBNLCore.mk data resolution window window_var p data_filtered
                  sf sb f b xf xb).

(** [_filter_fbnl_capped(data, resolution, window, window_var, p)] *)
Definition _filter_fbnl_capped (g : nat -> F) (data : list F) (resolution : F)
           (window : Z) (window_var : option Z) (p : option (py_number F))
  : outcome (FBNLCore.t F) :=
  let window_var := or_default window_var window in
  let loss := window + window_var - 1 in
  let inspect := (window + 1) / 2 in  (* int(np.ceil(window / 2)) *)
  let* _data := cap_data g data loss inspect in
  let* r := _filter_fbnl _data resolution window (Some window_var) p in
  let trim := fun a : list F => py_slice a loss (- loss) in
  Ok (FBNLCore.mk (trim (FBNLCore.data r)) (FBNLCore.resolution r)
                  (FBNLCore.window r) (FBNLCore.window_var r) (FBNLCore.p r)
                  (trim (FBNLCore.data_filtered r))
                  (trim (FBNLCore.sf r)) (trim (FBNLCore.sb r))
                  (trim (FBNLCore.f r)) (trim (FBNLCore.b r))
                  (trim (FBNLCore.xf r)) (trim (FBNLCore.xb r))).

(** [filter_fbnl(data, resolution, window, window_var, p, cap_data)] *)
Definition filter_fbnl (g : nat -> F) (data : list F) (resolution : F)
           (window : Z) (window_var : option Z) (p : option (py_number F))
           (cap : bool)
  : outcome (FBNLFilterResult.t F) :=
  let* r := (if cap then _filter_fbnl_capped g else _filter_fbnl)
              data resolution window window_var p in
  let sf := FBNLCore.sf r in
  let sb := FBNLCore.sb r in
  let f := FBNLCore.f r in
  let b := FBNLCore.b r in
  let xf := FBNLCore.xf r in
  let xb := FBNLCore.xb r in
  let step_size := zip_with fsub xb xf in
  let noise :=
    map fsqrt (zip_with fadd (zip_with fmul f sf) (zip_with fmul b sb)) in
  let step_mass := zip_with fdiv step_size noise in
  let noise_mean := np_nanmean noise in
  let sm := filter (fun v => negb (isnan v)) step_mass in
  let iqr_threshold := iqr_outlier_threshold sm (of_Z 3) in
  let is_outl := fun v => fgtb (fabs v) iqr_threshold in
  let sm_outls := filter is_outl sm in
  let sm_noise := filter (fun v => negb (is_outl v)) sm in
  let step_mass_STD := np_std sm_noise in
  let step_mass_SNR := map (fun v => fabs (fdiv v step_mass_STD)) sm_outls in
  let step_mass_SNR_mean :=
    if existsb is_outl sm then np_mean step_mass_SNR else fnan in
  let step_mass_SNR_median :=
    if existsb is_outl sm then np_median step_mass_SNR else fnan in
  let sm0 := map (fun v => if isnan v then fzero else v) step_mass in
  let outls := map is_outl sm0 in
  Ok (FBNLFilterResult.mk (FBNLCore.data r) (FBNLCore.resolution r)
        (FBNLCore.window r) (FBNLCore.window_var r) (FBNLCore.p r)
        (FBNLCore.data_filtered r) sf sb f b xf xb step_mass step_size noise
        noise_mean step_mass_SNR_mean step_mass_SNR_median step_mass_STD
        outls).

End Filter.

(* ================================================================== *)
(** * Arrays on the heap *)
(* ================================================================== *)

(** NumPy arrays are mutable objects that callers and callees share.  Where
    a function writes into an array, the arrays live in a heap and the
    function receives a reference. *)
Module Heap.

Definition ref : Type := nat.

Definition t (F : Type) : Type := list (list F).

Definition read {F : Type} (h : t F) (r : ref) : outcome (list F) :=
  match nth_error h r with
  | Some a => Ok a
  | None => Raise IndexError
  end.

Definition alloc {F : Type} (h : t F) (a : list F) : ref * t F :=
  (length h, h ++ [a]).

Definition write {F : Type} (h : t F) (r : ref) (a : list F) : t F :=
  replace_nth r a h.

(** An assignment into the array at [r], in place. *)
Definition update {F : Type} (h : t F) (r : ref) (f : list F -> list F) : t F :=
  match nth_error h r with
  | Some a => write h r (f a)
  | None => h
  end.

End Heap.

(* ================================================================== *)
(** * Steps *)
(* ================================================================== *)

Abbreviation segment := (Z * Z)%type (only parsing).

(** What [find_steps] returns. *)
Module Found.
Record t : Type := mk {
  indices : list Z;
  direction : list bool;
  step_bounds : list segment;
  number : Z;
  plateaus : list segment;
  p_centers : list Z
}.
End Found.

(** The named tuple [Steps]. *)
Module Steps.
Record t (F : Type) : Type := mk {
  indices : list Z;
  direction : list bool;
  bounds : list segment;
  number : Z;
  plateaus : list segment;
  p_centers : list Z;
  step_sizes : list F;
  plateau_heights : list F;
  dwell_points : list Z
}.
End Steps.

(** The named tuple [Steps] as [find_and_analyse_steps] fills it when no
    step was found: [plateaus] is then the one-dimensional array [[0, N]],
    not an array of pairs, [plateau_heights] is a zero-dimensional array,
    one number, and [dwell_points] is an empty array of floats. *)
Module NoSteps.
Record t (F : Type) : Type := mk {
  indices : list Z;
  direction : list bool;
  bounds : list segment;
  number : Z;
  plateaus : list Z;
  p_centers : list Z;
  step_sizes : list F;
  plateau_heights : F;
  dwell_points : list F
}.
End NoSteps.

(** The two shapes of the [Steps] in a [StepFinderResult]. *)
Inductive steps_found (F : Type) : Type :=
| Stepped (steps : Steps.t F)
| Stepless (steps : NoSteps.t F).

Arguments Stepped {F} steps.
Arguments Stepless {F} steps.

(** [steps.number] *)
Definition steps_number {F : Type} (steps : steps_found F) : Z :=
  match steps with
  | Stepped s => Steps.number s
  | Stepless s => NoSteps.number s
  end.

(** The named tuple [StepQuality]. *)
Module StepQuality.
Record t (F : Type) : Type := mk {
  step_sd : list F;
  step_noise : list F;
  step_noise_over_sd : list F
}.
End StepQuality.

(** The values of [step_size_threshold]: the strings ['adapt'] and
    ['static'], or a float. *)
Inductive threshold_policy (F : Type) : Type :=
| Adapt
| Static
| Fixed (v : F).

Arguments Adapt {F}.
Arguments Static {F}.
Arguments Fixed {F} v.

(** Modelled from the spec: [signal.idx_to_idx_segments], which is not part
    of the sources at hand.  The plateau bounds are the consecutive gaps
    between [0], the step indices and [N]. *)
Fixpoint idx_to_idx_segments (idx : list Z) : list segment :=
  match idx with
  | a :: ((b :: _) as t) => (a, b) :: idx_to_idx_segments t
  | _ => []
  end.

(** Insertion of a tagged segment by its start index: the order that
    [argsort] gives to [step_bounds[:, 0]]. *)
Fixpoint insert_by_start (x : segment * bool) (l : list (segment * bool))
  : list (segment * bool) :=
  match l with
  | [] => [x]
  | y :: t =>
      if fst (fst x) <? fst (fst y) then x :: y :: t
      else y :: insert_by_start x t
  end.

Definition sort_by_start (l : list (segment * bool)) : list (segment * bool) :=
  fold_left (fun acc x => insert_by_start x acc) l [].

Section Locator.

Context {F : Type} {SF : Scalar F}.

(** The two routines of the step locator that are not part of the sources
    at hand: [signal.get_contiguous_segments(mask, min_length_high,
    min_distance_center, min_length_low)] and [fast._delete_close_center
    (step_bounds, direction, max_step_width, min_step_spacing,
    switch_accept)]. *)
Variable get_contiguous_segments : list bool -> Z -> Z -> Z -> list segment.
Variable _delete_close_center :
  list segment -> list bool -> Z -> Z -> bool -> list segment * list bool.

(** [step_mass[np.isnan(step_mass)] = 0.0] *)
Definition nan_to_zero (a : list F) : list F :=
  map (fun v => if isnan v then fzero else v) a.

(** [np.average(np.arange(start, stop), weights=weights)] *)
Definition np_average (idx : list Z) (weights : list F) : outcome F :=
  if negb (Nat.eqb (length idx) (length weights)) then Raise TypeError
  else
    let scl := np_sum weights in
    if feqb scl fzero then Raise ZeroDivisionError
    else Ok (fdiv (np_sum (zip_with (fun i w => fmul (of_Z i) w) idx weights))
                  scl).

(** [int(np.round(x))] *)
Definition int_round (x : F) : outcome Z :=
  match rint x with
  | Some z => Ok z
  | None => if isnan x then Raise ValueError else Raise OverflowError
  end.

(** The body of the loop over the final bins: the index of one step. *)
Definition step_index (step_mass : list F) (bin : segment) : outcome Z :=
  let (start, stop) := bin in
  let idx := np_arange start stop in
  let weights := py_slice step_mass start stop in
  let* avg := np_average idx weights in
  let* center_of_mass := int_round avg in
  let center_of_mass := Z.max start center_of_mass in
  let center_of_mass := Z.min (stop - 1) center_of_mass in
  Ok center_of_mass.

Fixpoint step_indices (step_mass : list F) (bins : list segment)
  : outcome (list Z) :=
  match bins with
  | [] => Ok []
  | bin :: rest =>
      let* i := step_index step_mass bin in
      let* others := step_indices step_mass rest in
      Ok (i :: others)
  end.

(** The centre of a plateau, [np.round(p0 + (p1 - p0) / 2).astype(int)],
    clamped to [datapoints - 1]. *)
Definition plateau_center (datapoints : Z) (pl : segment) : Z :=
  let (p0, p1) := pl in
  let c := midpoint_up p0 p1 in
  if datapoints - 1 <? c then datapoints - 1 else c.

(** [step_mass > y_c] and [step_mass < -y_c] *)
Definition above_threshold (step_mass : list F) (y_c : F) : list bool :=
  map (fun v => fgtb v y_c) step_mass.

Definition below_threshold (step_mass : list F) (y_c : F) : list bool :=
  map (fun v => fltb v (fneg y_c)) step_mass.

(** [find_steps], from the thresholded copy of the step mass on. *)
Definition find_steps_on (step_mass : list F) (y_c : F)
           (max_step_width min_step_spacing H L : option Z)
           (switch_accept : bool) : outcome Found.t :=
  let min_step_spacing := or_default min_step_spacing 1 in
  let max_step_width := or_default max_step_width min_step_spacing in
  let H := or_default H 1 in
  let L := or_default L 1 in
  let pos_step_bounds :=
    get_contiguous_segments (above_threshold step_mass y_c) H 1 L in
  let neg_step_bounds :=
    get_contiguous_segments (below_threshold step_mass y_c) H 1 L in
  let tagged :=
    sort_by_start (map (fun s => (s, true)) pos_step_bounds
                   ++ map (fun s => (s, false)) neg_step_bounds) in
  let step_bounds := map fst tagged in
  let direction := map snd tagged in
  let (step_bounds, direction) :=
    _delete_close_center step_bounds direction max_step_width
                         min_step_spacing switch_accept in
  let* indices := step_indices step_mass step_bounds in
  let datapoints := len step_mass in
  let plateau_indices := 0 :: indices ++ [datapoints] in
  let plateaus := idx_to_idx_segments plateau_indices in
  let p_centers := map (plateau_center datapoints) plateaus in
  let number := len indices in
  Ok (Found.mk indices direction step_bounds number plateaus p_centers).

(** [find_steps(step_mass, y_c, max_step_width, min_step_spacing, H, L,
    switch_accept)]: [step_mass] is a reference to the caller's array.  The
    first two statements copy the array and overwrite the NaN entries of
    the copy in place; everything after them reads the copy.  The heap is
    returned whether the call raises or not. *)
Definition find_steps (h : Heap.t F) (step_mass : Heap.ref) (y_c : F)
           (max_step_width min_step_spacing H L : option Z)
           (switch_accept : bool) : outcome Found.t * Heap.t F :=
  match Heap.read h step_mass with
  | Raise e => (Raise e, h)
  | Ok a =>
      let (step_mass, h) := Heap.alloc h a in
      let h := Heap.update h step_mass nan_to_zero in
      match Heap.read h step_mass with
      | Raise e => (Raise e, h)
      | Ok a =>
          (find_steps_on a y_c max_step_width min_step_spacing H L
                         switch_accept, h)
      end
  end.

(** Modelled from the spec: [fast._calculate_plateau_heights], a Cython
    function that is not part of the sources at hand:
    [plateau_heights[i] = mean(data[plateaus[i,0]:plateaus[i,1]])]. *)
Definition _calculate_plateau_heights (data : list F) (plateaus : list segment)
  : list F :=
  map (fun pl : segment => np_mean (py_slice data (fst pl) (snd pl))) plateaus.

(** [analyse_steps(indices, plateaus, data)] *)
Definition analyse_steps (indices : list Z) (plateaus : list segment)
           (data : list F) : list F * list F * list Z :=
  let dwell_points :=
    zip_with Z.sub (py_slice_from indices 1) (py_slice_to indices (-1)) in
  let plateau_heights := _calculate_plateau_heights data plateaus in
  let step_sizes :=
    zip_with fsub (py_slice_from plateau_heights 1)
                  (py_slice_to plateau_heights (-1)) in
  (step_sizes, plateau_heights, dwell_points).

(** [x or 'adapt'] for the threshold policy: [None] and a float equal to
    zero are falsy. *)
Definition policy_or_adapt (x : option (threshold_policy F))
  : threshold_policy F :=
  match x with
  | None => Adapt
  | Some (Fixed v) => if feqb v fzero then Adapt else Fixed v
  | Some pol => pol
  end.

(** [get_min_step_sizes(indices, y_c, fbnl_filter, step_size_threshold)] *)
Definition get_min_step_sizes (indices : list Z) (y_c : F)
           (fbnl_filter : FBNLFilterResult.t F)
           (step_size_threshold : option (threshold_policy F))
  : list F * threshold_policy F :=
  let step_size_threshold := policy_or_adapt step_size_threshold in
  let min_step_sizes :=
    match step_size_threshold with
    | Adapt =>
        let window := FBNLFilterResult.window fbnl_filter in
        let window_var := FBNLFilterResult.window_var fbnl_filter in
        let noise := FBNLFilterResult.noise fbnl_filter in
        let start_min := window + window_var - 1 in
        let stop_max := len noise - start_min in
        let noise_mean :=
          map (fun step =>
                 let start := Z.max (step - (window + window_var)) start_min in
                 let stop := Z.min (step + (window + window_var) * window)
                                   stop_max in
                 np_mean (py_slice noise start stop))
              indices in
        map (fun m => fmul y_c m) noise_mean
    | Static =>
        map (fun _ => fmul (fmul fone y_c)
                           (FBNLFilterResult.noise_mean fbnl_filter))
            indices
    | Fixed v => map (fun _ => fmul fone v) indices
    end in
  (min_step_sizes, step_size_threshold).

End Locator.

(* ================================================================== *)
(** * The step pruner *)
(* ================================================================== *)

(** The local variables of [delete_small_steps]: the working copies of the
    lists of [steps], the thresholds and the cursor. *)
Module Pruner.
Record state (F : Type) : Type := mk {
  step_bounds : list segment;
  indices : list Z;
  direction : list bool;
  plateaus : list segment;
  p_centers : list Z;
  num_steps : Z;
  step_sizes : list F;
  p_heights : list F;
  dwell_points : list Z;
  minsizes : list F;
  i : Z
}.
End Pruner.

Section Prune.

Context {F : Type} {SF : Scalar F}.

Definition init_state (steps : Steps.t F) (min_step_sizes : list F)
  : Pruner.state F :=
  Pruner.mk (Steps.bounds steps) (Steps.indices steps)
            (Steps.direction steps) (Steps.plateaus steps)
            (Steps.p_centers steps) (Steps.number steps)
            (Steps.step_sizes steps) (Steps.plateau_heights steps)
            (Steps.dwell_points steps) min_step_sizes 0.

(** [np.abs(step_sizes[i]) < minsizes[i]] *)
Definition too_small (step_sizes minsizes : list F) (i : Z) : outcome bool :=
  let* s := py_get step_sizes i in
  let* m := py_get minsizes i in
  Ok (fltb (fabs s) m).

(** The length-weighted average of two plateau heights; the division of a
    Python float by the integer zero raises. *)
Definition fused_height (p_height_l p_height_r : F) (l r : Z) : outcome F :=
  if l + r =? 0 then Raise ZeroDivisionError
  else Ok (fdiv (fadd (fmul p_height_l (of_Z l)) (fmul p_height_r (of_Z r)))
                (of_Z (l + r))).

(** The body of [if np.abs(step_sizes[i]) < minsizes[i]:], to the clamped
    rewinding of the cursor. *)
Definition remove_step (st : Pruner.state F) : outcome (Pruner.state F) :=
  let i := Pruner.i st in
  let num_steps := Pruner.num_steps st in
  let plateaus := Pruner.plateaus st in
  let p_centers := Pruner.p_centers st in
  let p_heights := Pruner.p_heights st in
  let step_sizes := Pruner.step_sizes st in
  let dwell_points := Pruner.dwell_points st in
  let* pl_i := py_get plateaus i in
  let* pl_i1 := py_get plateaus (i + 1) in
  let p_start_new := fst pl_i in
  let p_stop_new := snd pl_i1 in
  let p_center_new := midpoint_up p_start_new p_stop_new in
  let* p_height_l := py_get p_heights i in
  let* p_height_r := py_get p_heights (i + 1) in
  let l := snd pl_i - fst pl_i in
  let r := snd pl_i1 - fst pl_i1 in
  let* p_height_new := fused_height p_height_l p_height_r l r in
  let* plateaus := py_set plateaus (i + 1) (p_start_new, snd pl_i1) in
  let* p_centers := py_set p_centers (i + 1) p_center_new in
  let* p_heights := py_set p_heights (i + 1) p_height_new in
  let* plateaus := py_pop plateaus i in
  let* p_centers := py_pop p_centers i in
  let* p_heights := py_pop p_heights i in
  let* step_sizes :=
    if 1 <=? i then
      let* h := py_get p_heights (i - 1) in
      py_set step_sizes (i - 1) (fsub p_height_new h)
    else Ok step_sizes in
  let* step_sizes :=
    if i <? num_steps - 1 then
      let* h := py_get p_heights (i + 1) in
      py_set step_sizes (i + 1) (fsub h p_height_new)
    else Ok step_sizes in
  let* step_sizes := py_pop step_sizes i in
  let* dwell_points :=
    if (1 <=? i) && (i <? num_steps - 1) then
      let* d0 := py_get dwell_points (i - 1) in
      let* d1 := py_get dwell_points i in
      py_set dwell_points (i - 1) (d0 + d1)
    else Ok dwell_points in
  let* dwell_points :=
    if i <? num_steps - 1 then py_pop dwell_points i
    else if 2 <=? num_steps then py_pop_last dwell_points
    else Ok dwell_points in
  let* indices := py_pop (Pruner.indices st) i in
  let* direction := py_pop (Pruner.direction st) i in
  let* step_bounds := py_pop (Pruner.step_bounds st) i in
  let* minsizes := py_pop (Pruner.minsizes st) i in
  let num_steps := num_steps - 1 in
  let i := i - 2 in
  let i := Z.max i (-1) in
  Ok (Pruner.mk step_bounds indices direction plateaus p_centers num_steps
                step_sizes p_heights dwell_points minsizes i).

Definition advance (st : Pruner.state F) : Pruner.state F :=
  Pruner.mk (Pruner.step_bounds st) (Pruner.indices st) (Pruner.direction st)
            (Pruner.plateaus st) (Pruner.p_centers st) (Pruner.num_steps st)
            (Pruner.step_sizes st) (Pruner.p_heights st)
            (Pruner.dwell_points st) (Pruner.minsizes st) (Pruner.i st + 1).

(** One turn of the [while] loop: the test, the removal, and [i += 1]. *)
Definition prune_iter (st : Pruner.state F) : outcome (Pruner.state F) :=
  let* small := too_small (Pruner.step_sizes st) (Pruner.minsizes st)
                          (Pruner.i st) in
  if small then
    let* st := remove_step st in
    Ok (advance st)
  else Ok (advance st).

(** [while i < num_steps: ...], for at most [fuel] turns. *)
Fixpoint prune_loop (fuel : nat) (st : Pruner.state F)
  : outcome (Pruner.state F) :=
  match fuel with
  | O => Ok st
  | S fuel' =>
      if Pruner.i st <? Pruner.num_steps st then
        let* st := prune_iter st in
        prune_loop fuel' st
      else Ok st
  end.

(** A number of turns after which the loop has stopped (see
    [prune_loop_exits]): a turn either removes a step or moves the cursor
    to the right. *)
Definition turns (st : Pruner.state F) : nat :=
  (2 * length (Pruner.indices st)
   + Z.to_nat (Pruner.num_steps st - Pruner.i st) + 1)%nat.

Definition final_steps (st : Pruner.state F) : Steps.t F :=
  Steps.mk (Pruner.indices st) (Pruner.direction st) (Pruner.step_bounds st)
           (len (Pruner.indices st)) (Pruner.plateaus st)
           (Pruner.p_centers st) (Pruner.step_sizes st)
           (Pruner.p_heights st) (Pruner.dwell_points st).

(** The loop of [delete_small_steps], with the thresholds of the surviving
    steps next to the new [Steps]. *)
Definition delete_small_steps_run (steps : Steps.t F) (min_step_sizes : list F)
  : outcome (Steps.t F * list F) :=
  let st := init_state steps min_step_sizes in
  let* st := prune_loop (turns st) st in
  Ok (final_steps st, Pruner.minsizes st).

(** [delete_small_steps(steps, min_step_sizes)] *)
Definition delete_small_steps (steps : Steps.t F) (min_step_sizes : list F)
  : outcome (Steps.t F) :=
  let* r := delete_small_steps_run steps min_step_sizes in
  Ok (fst r).

End Prune.

(* ================================================================== *)
(** * The quality scorer and the pipeline *)
(* ================================================================== *)

(** The named tuple [StepFinderResult]. *)
Module StepFinderResult.
Record t (F : Type) : Type := mk {
  fbnl_filter : FBNLFilterResult.t F;
  expected_min_step_size : option F;
  y_c : F;
  expected_min_dwell_t : option F;
  min_dwell_time : F;
  switch_accept : bool;
  step_size_threshold : option (threshold_policy F);
  steps_pre : steps_found F;
  steps : steps_found F;
  min_sizes_pre : list F;
  min_sizes : list F;
  quality_pre : StepQuality.t F;
  quality : StepQuality.t F
}.
End StepFinderResult.

Fixpoint enumerate_from {A : Type} (k : Z) (l : list A) : list (Z * A) :=
  match l with
  | [] => []
  | x :: t => (k, x) :: enumerate_from (k + 1) t
  end.

Section Quality.

Context {F : Type} {SF : Scalar F}.

(** [zip(plateaus[:-1], plateaus[1:], p_heights[:-1], p_heights[1:])] *)
Definition plateau_joins (plateaus : list segment) (p_heights : list F)
  : list ((segment * segment) * (F * F)) :=
  zip_with pair
    (zip_with pair (py_slice_to plateaus (-1)) (py_slice_from plateaus 1))
    (zip_with pair (py_slice_to p_heights (-1)) (py_slice_from p_heights 1)).

(** The index ranges [(start_l, stop_l)] and [(start_r, stop_r)] of the two
    half plateaus that adjoin a step. *)
Definition half_plateaus (window start_min stop_max : Z) (p_l p_r : segment)
  : segment * segment :=
  let start_l := midpoint_up (fst p_l) (snd p_l) in
  let start_l := Z.max start_l (fst p_l + window) in
  let start_l := Z.max start_l start_min in
  let stop_l := snd p_l - window in
  let stop_l := Z.max stop_l start_l in
  let start_r := fst p_r + window in
  let stop_r := midpoint_down (fst p_r) (snd p_r) in
  let stop_r := Z.min stop_r (snd p_r - window) in
  let stop_r := Z.min stop_r stop_max in
  let start_r := Z.min start_r stop_r in
  ((start_l, stop_l), (start_r, stop_r)).

(** The standard deviation and the mean noise of one step. *)
Definition step_quality (data noise : list F) (window start_min stop_max : Z)
           (p_l p_r : segment) (ph_l ph_r : F) : F * F :=
  let '((start_l, stop_l), (start_r, stop_r)) :=
    half_plateaus window start_min stop_max p_l p_r in
  let data_l := py_slice data start_l stop_l in
  let data_r := py_slice data start_r stop_r in
  let total_number := stop_r - start_r + stop_l - start_l in
  let p_h := map (fun v => fsub v ph_l) data_l
             ++ map (fun v => fsub v ph_r) data_r in
  let sd := fsqrt (fdiv (np_sum (map fsq p_h)) (of_Z (total_number - 1))) in
  let total_noise :=
    py_slice noise start_l stop_l ++ py_slice noise start_r stop_r in
  let step_noise :=
    if 0 <? len total_noise then np_mean total_noise else fnan in
  (sd, step_noise).

(** The body of the loop over the steps: it writes the two numbers of step
    [i] into [step_sd] and [step_noise]. *)
Definition score_step (data noise : list F) (window start_min stop_max : Z)
           (acc : outcome (list F * list F))
           (it : Z * ((segment * segment) * (F * F)))
  : outcome (list F * list F) :=
  let* arrays := acc in
  let '(i, ((p_l, p_r), (ph_l, ph_r))) := it in
  let q := step_quality data noise window start_min stop_max
                        p_l p_r ph_l ph_r in
  let* sd := py_set (fst arrays) i (fst q) in
  let* sn := py_set (snd arrays) i (snd q) in
  Ok (sd, sn).

(** [get_step_qualities(steps, fbnl_filter)] *)
Definition get_step_qualities (steps : Steps.t F)
           (fbnl_filter : FBNLFilterResult.t F) : outcome (StepQuality.t F) :=
  let indices := Steps.indices steps in
  let plateaus := Steps.plateaus steps in
  let p_heights := Steps.plateau_heights steps in
  let data := FBNLFilterResult.data fbnl_filter in
  let noise := FBNLFilterResult.noise fbnl_filter in
  let window := FBNLFilterResult.window fbnl_filter in
  let window_var := FBNLFilterResult.window_var fbnl_filter in
  let start_min := window + window_var - 1 in
  let stop_max := len noise - start_min in
  let step_sd := map (fun _ => fzero) indices in
  let step_noise := map (fun _ => fzero) indices in
  let* filled :=
    fold_left (score_step data noise window start_min stop_max)
              (enumerate_from 0 (plateau_joins plateaus p_heights))
              (Ok (step_sd, step_noise)) in
  let step_noise_over_sd := zip_with fdiv (snd filled) (fst filled) in
  Ok (StepQuality.mk (fst filled) (snd filled) step_noise_over_sd).

End Quality.

Section Pipeline.

Context {F : Type} {SF : Scalar F}.

Variable get_contiguous_segments : list bool -> Z -> Z -> Z -> list segment.
Variable _delete_close_center :
  list segment -> list bool -> Z -> Z -> bool -> list segment * list bool.

(** [find_and_analyse_steps(fbnl_filter, expected_min_step_size,
    expected_min_dwell_t, switch_accept, step_size_threshold)] with
    [use_mean=False], without what it prints: the one printed value whose
    computation can raise, [fbnl_filter.window / fbnl_filter.resolution],
    raises what the statement after it, [min_step_spacing /
    fbnl_filter.resolution], raises on the same integer.  [window_type] is
    the type of the integer [fbnl_filter.window]: a Python [int] where the
    filter was called with one, a NumPy integer for the windows of a filter
    bank; the resolution is a Python float.  The heap that [find_steps]
    works on holds the step mass of the filter result. *)
Definition find_and_analyse_steps (window_type : int_type)
           (fbnl_filter : FBNLFilterResult.t F)
           (expected_min_step_size expected_min_dwell_t : option F)
           (switch_accept : bool)
           (step_size_threshold : option (threshold_policy F))
  : outcome (StepFinderResult.t F) :=
  let two_thirds := fdiv (of_Z 2) (of_Z 3) in
  let y_c :=
    match expected_min_step_size with
    | None => two_thirds
    | Some e =>
        fdiv (fmul two_thirds e) (FBNLFilterResult.noise_mean fbnl_filter)
    end in
  let window := FBNLFilterResult.window fbnl_filter in
  let* expected_min_step_spacing :=
    match expected_min_dwell_t with
    | None => Ok None
    | Some t =>
        let* e :=
          @int_round F SF (fmul t (FBNLFilterResult.resolution fbnl_filter)) in
        Ok (Some e)
    end in
  (* [max(expected_min_step_spacing, fbnl_filter.window)] is its second
     argument only where that is the greater one *)
  let min_step_spacing :=
    match expected_min_step_spacing with
    | None => window
    | Some e => Z.max e window
    end in
  let spacing_type :=
    match expected_min_step_spacing with
    | None => window_type
    | Some e => if e <? window then window_type else python_int
    end in
  let* min_dwell_time :=
    int_truediv spacing_type min_step_spacing
                (FBNLFilterResult.resolution fbnl_filter) in
  let (step_mass, h) :=
    Heap.alloc [] (FBNLFilterResult.step_mass fbnl_filter) in
  let* found :=
    fst (find_steps get_contiguous_segments _delete_close_center h step_mass
                    y_c None (Some min_step_spacing) None None switch_accept) in
  let indices := Found.indices found in
  let number := Found.number found in
  let plateaus := Found.plateaus found in
  let p_centers := Found.p_centers found in
  if 0 <? number then
    let '(step_sizes, plateau_heights, dwell_points) :=
      analyse_steps indices plateaus (FBNLFilterResult.data fbnl_filter) in
    let steps_pre :=
      Steps.mk indices (Found.direction found) (Found.step_bounds found)
               number plateaus p_centers step_sizes plateau_heights
               dwell_points in
    let (min_step_sizes_pre, step_size_threshold) :=
      get_min_step_sizes indices y_c fbnl_filter step_size_threshold in
    let* step_quality_pre := get_step_qualities steps_pre fbnl_filter in
    let* steps := delete_small_steps steps_pre min_step_sizes_pre in
    let (min_step_sizes, step_size_threshold) :=
      get_min_step_sizes (Steps.indices steps) y_c fbnl_filter
                         (Some step_size_threshold) in
    let* step_quality := get_step_qualities steps fbnl_filter in
    Ok (StepFinderResult.mk fbnl_filter expected_min_step_size y_c
          expected_min_dwell_t min_dwell_time switch_accept
          (Some step_size_threshold) (Stepped steps_pre) (Stepped steps)
          min_step_sizes_pre min_step_sizes step_quality_pre step_quality)
  else
    (* no steps, create one big plateau *)
    let plateaus := [0; len (FBNLFilterResult.data fbnl_filter)] in
    let plateau_heights := np_sum (FBNLFilterResult.data fbnl_filter) in
    let steps :=
      Stepless (NoSteps.mk [] [] [] 0 plateaus p_centers [] plateau_heights
                           []) in
    let min_step_sizes := [] in
    let step_quality := StepQuality.mk [] [] [] in
    Ok (StepFinderResult.mk fbnl_filter expected_min_step_size y_c
          expected_min_dwell_t min_dwell_time switch_accept
          step_size_threshold steps steps min_step_sizes min_step_sizes
          step_quality step_quality).

End Pipeline.

(* ================================================================== *)
(** * The routines of the locator that the sources do not contain *)
(* ================================================================== *)

Module SpecModel.

(** The maximal runs of [true] in a mask, as [(start, stop)], from the
    position [k] on; [open] is the start of the run that is being read. *)
Fixpoint true_runs (mask : list bool) (k : Z) (open : option Z)
  : list segment :=
  match mask, open with
  | [], None => []
  | [], Some s => [(s, k)]
  | true :: t, None => true_runs t (k + 1) (Some k)
  | true :: t, Some s => true_runs t (k + 1) (Some s)
  | false :: t, None => true_runs t (k + 1) None
  | false :: t, Some s => (s, k) :: true_runs t (k + 1) None
  end.

(** Modelled from the spec: [signal.get_contiguous_segments].  It "only
    needs to emit raw contiguous True-runs" ([mask[start:stop]] is a
    maximal contiguous run), and "runs shorter than [min_length_high] are
    dropped"; merging is left to the merge pass. *)
Definition get_contiguous_segments (mask : list bool)
           (min_length_high min_distance_center min_length_low : Z)
  : list segment :=
  filter (fun s : segment => min_length_high <=? snd s - fst s)
         (true_runs mask 0 None).

Definition center (s : segment) : Z := (fst s + snd s) / 2.

(** The scan of the merge pass: [bin] is the open bin, [dir] its initial
    direction and [c] the centre of its last member. *)
Fixpoint merge_scan (bin : segment) (dir : bool) (c : Z)
         (rest : list (segment * bool))
         (max_step_width min_step_spacing : Z) (switch_accept : bool)
  : list (segment * bool) :=
  match rest with
  | [] => [(bin, dir)]
  | (seg, d) :: t =>
      if (negb (Bool.eqb d dir) && negb switch_accept)
         || (max_step_width <? snd seg - fst bin)
         || (min_step_spacing <? fst seg - c)
      then (bin, dir)
           :: merge_scan seg d (center seg) t max_step_width
                         min_step_spacing switch_accept
      else merge_scan (fst bin, snd seg) dir (center seg) t max_step_width
                      min_step_spacing switch_accept
  end.

(** Modelled from the spec: [fast._delete_close_center], the merge pass of
    the step locator.  It walks the segments in order with an open bin and
    starts a new bin when the direction of the new segment differs from the
    initial direction of the open bin and [switch_accept] is false, or the
    combined width would exceed [max_step_width], or the new segment starts
    farther than [min_step_spacing] from the centre of the last member of
    the open bin; otherwise it extends the stop bound of the open bin. *)
Definition _delete_close_center (step_bounds : list segment)
           (direction : list bool) (max_step_width min_step_spacing : Z)
           (switch_accept : bool) : list segment * list bool :=
  match zip_with pair step_bounds direction with
  | [] => ([], [])
  | (seg, d) :: t =>
      let bins := merge_scan seg d (center seg) t max_step_width
                             min_step_spacing switch_accept in
      (map fst bins, map snd bins)
  end.

Definition find_steps {F : Type} {SF : Scalar F} :=
  @find_steps F SF get_contiguous_segments _delete_close_center.

Definition find_and_analyse_steps {F : Type} {SF : Scalar F} :=
  @find_and_analyse_steps F SF get_contiguous_segments _delete_close_center.

End SpecModel.

(* ================================================================== *)
(** * Notions of the properties, claimed behaviour and example inputs *)
(* ================================================================== *)

Section PruneNotions.

Context {F : Type} {SF : Scalar F}.

(** The lengths that belong to [num_steps] steps: one entry per step, one
    plateau more than steps, one dwell less. *)
Definition consistent (st : Pruner.state F) : Prop :=
  let n := Pruner.num_steps st in
  0 <= n
  /\ len (Pruner.indices st) = n
  /\ len (Pruner.direction st) = n
  /\ len (Pruner.step_bounds st) = n
  /\ len (Pruner.step_sizes st) = n
  /\ len (Pruner.minsizes st) = n
  /\ len (Pruner.plateaus st) = n + 1
  /\ len (Pruner.p_centers st) = n + 1
  /\ len (Pruner.p_heights st) = n + 1
  /\ len (Pruner.dwell_points st) = Z.max (n - 1) 0.

Definition seg_len (s : segment) : Z := snd s - fst s.

(** The plateaus to the left and to the right of step [k]. *)
Definition left_plateau (st : Pruner.state F) (k : nat) : segment :=
  nth k (Pruner.plateaus st) (0, 0).
Definition right_plateau (st : Pruner.state F) (k : nat) : segment :=
  nth (S k) (Pruner.plateaus st) (0, 0).

(** The height of the plateau that replaces the plateaus around step [k]:
    the average of their heights, weighted by their lengths. *)
Definition weighted_height (st : Pruner.state F) (k : nat) : F :=
  let l := seg_len (left_plateau st k) in
  let r := seg_len (right_plateau st k) in
  fdiv (fadd (fmul (nth k (Pruner.p_heights st) fnan) (of_Z l))
             (fmul (nth (S k) (Pruner.p_heights st) fnan) (of_Z r)))
       (of_Z (l + r)).

(** Replacing the entries [k] and [k+1] of a list by one entry. *)
Definition fuse_at {A : Type} (k : nat) (v : A) (l : list A) : list A :=
  firstn k l ++ v :: skipn (S (S k)) l.

(** The step sizes after the removal of step [k]: the neighbours are
    measured against the new height [h]. *)
Definition sizes_after (st : Pruner.state F) (k : nat) (h : F) : list F :=
  let hs := Pruner.p_heights st in
  let ss := Pruner.step_sizes st in
  let ss := if 1 <=? Pruner.i st
            then replace_nth (k - 1) (fsub h (nth (k - 1) hs fnan)) ss
            else ss in
  let ss := if Pruner.i st <? Pruner.num_steps st - 1
            then replace_nth (S k) (fsub (nth (S (S k)) hs fnan) h) ss
            else ss in
  remove_at k ss.

(** The dwell points after the removal of step [k]. *)
Definition dwell_after (st : Pruner.state F) (k : nat) : list Z :=
  let d := Pruner.dwell_points st in
  let i := Pruner.i st in
  let n := Pruner.num_steps st in
  if (1 <=? i) && (i <? n - 1)
  then fuse_at (k - 1) (nth (k - 1) d 0 + nth k d 0) d
  else if i <? n - 1 then skipn 1 d
  else removelast d.

(** The state after the removal of the step under the cursor. *)
Definition removed (st : Pruner.state F) : Pruner.state F :=
  let k := Z.to_nat (Pruner.i st) in
  let h := weighted_height st k in
  Pruner.mk
    (remove_at k (Pruner.step_bounds st))
    (remove_at k (Pruner.indices st))
    (remove_at k (Pruner.direction st))
    (fuse_at k (fst (left_plateau st k), snd (right_plateau st k))
             (Pruner.plateaus st))
    (fuse_at k (midpoint_up (fst (left_plateau st k))
                            (snd (right_plateau st k)))
             (Pruner.p_centers st))
    (Pruner.num_steps st - 1)
    (sizes_after st k h)
    (fuse_at k h (Pruner.p_heights st))
    (dwell_after st k)
    (remove_at k (Pruner.minsizes st))
    (Z.max (Pruner.i st - 2) (-1)).

(** The test of the loop at step [k]. *)
Definition small_at (st : Pruner.state F) (k : nat) : bool :=
  match nth_error (Pruner.step_sizes st) k,
        nth_error (Pruner.minsizes st) k with
  | Some s, Some m => fltb (fabs s) m
  | _, _ => false
  end.

Definition with_cursor (st : Pruner.state F) (c : Z) : Pruner.state F :=
  Pruner.mk (Pruner.step_bounds st) (Pruner.indices st) (Pruner.direction st)
            (Pruner.plateaus st) (Pruner.p_centers st) (Pruner.num_steps st)
            (Pruner.step_sizes st) (Pruner.p_heights st)
            (Pruner.dwell_points st) (Pruner.minsizes st) c.

(** The steps before position [k] in a state pass the test. *)
Definition passed (st : Pruner.state F) (k : nat) : Prop :=
  forall j, (j < k)%nat -> small_at st j = false.

(** The invariant of the loop: the lengths are consistent, the cursor is
    on a step or behind the last one, and every step before the cursor is
    large enough. *)
Definition checked (st : Pruner.state F) : Prop :=
  consistent st
  /\ 0 <= Pruner.i st <= Pruner.num_steps st
  /\ passed st (Z.to_nat (Pruner.i st)).

(** The lengths of a [Steps] value and of its thresholds fit together. *)
Definition steps_consistent (steps : Steps.t F) (min_step_sizes : list F)
  : Prop :=
  consistent (init_state steps min_step_sizes).

(** What the claim says about the dwell points of a removal: two adjacent
    entries are replaced by their sum, or the trailing entry is dropped. *)
Definition claimed_dwell_fusion (d d' : list Z) : Prop :=
  (exists k, (S k < length d)%nat
             /\ d' = fuse_at k (nth k d 0 + nth (S k) d 0) d)
  \/ d' = removelast d.

End PruneNotions.

(** Three steps of a trace of 26 samples; the first one is smaller than its
    threshold. *)
Definition three_steps (cursor : Z) (sizes heights : list float)
  : Pruner.state float :=
  Pruner.mk [(5, 7); (13, 15); (19, 21)] [6; 14; 20] [true; true; false]
            [(0, 6); (6, 14); (14, 20); (20, 26)] [3; 10; 17; 23] 3
            sizes heights [8; 6] [1; 1; 1]%float cursor.

Definition small_first : Pruner.state float :=
  three_steps 0 [0.5; 3.5; -3]%float [1; 1.5; 5; 2]%float.

Definition small_middle : Pruner.state float :=
  three_steps 1 [3.5; 0.5; -3]%float [1; 4.5; 5; 2]%float.

(** Two steps; the second one is smaller than its threshold. *)
Definition two_steps : Steps.t float :=
  Steps.mk [6; 14] [true; false] [(5, 7); (13, 15)] 2
           [(0, 6); (6, 14); (14, 20)] [3; 10; 17]
           [4; -3]%float [1; 5; 2]%float [8].

Definition two_thresholds : list float := [1; 3.5]%float.

Definition two_steps_pruned : outcome (Steps.t float * list float) :=
  Eval vm_compute in delete_small_steps_run two_steps two_thresholds.

Section QualityNotions.

Context {F : Type} {SF : Scalar F}.



(** A [Steps] value has one plateau and one plateau height more than it has
    step indices. *)
Definition plateaus_fit (steps : Steps.t F) : Prop :=
  length (Steps.plateaus steps) = S (length (Steps.indices steps))
  /\ length (Steps.plateau_heights steps) = S (length (Steps.indices steps)).

(** The numbers that the loop writes for one join of two plateaus. *)
Definition sd_of (data noise : list F) (window start_min stop_max : Z)
           (it : (segment * segment) * (F * F)) : F :=
  fst (step_quality data noise window start_min stop_max
                    (fst (fst it)) (snd (fst it)) (fst (snd it)) (snd (snd it))).

Definition noise_of (data noise : list F) (window start_min stop_max : Z)
           (it : (segment * segment) * (F * F)) : F :=
  snd (step_quality data noise window start_min stop_max
                    (fst (fst it)) (snd (fst it)) (fst (snd it)) (snd (snd it))).

End QualityNotions.

(** A trace of 20 samples without noise on the data, with steps at 6 and 14,
    as the filter with windows of 2 samples and a noise estimate of 1 would
    describe it. *)
Definition clean_trace : FBNLFilterResult.t float :=
  FBNLFilterResult.mk
    [1; 1; 1; 1; 1; 1; 5; 5; 5; 5; 5; 5; 5; 5; 2; 2; 2; 2; 2; 2]%float
    1000%float 2 2 (PyInt 1) [] [] [] [] [] [] []
    [0; 0; 0; 0; 0; 3; 4; 0; 0; 0; 0; 0; 0; -1; -3; 0; 0; 0; 0; 0]%float []
    [1; 1; 1; 1; 1; 1; 1; 1; 1; 1; 1; 1; 1; 1; 1; 1; 1; 1; 1; 1]%float
    1%float PrimFloat.nan PrimFloat.nan PrimFloat.nan [].

Definition clean_steps : Steps.t float :=
  Steps.mk [6; 14] [true; false] [(5, 7); (13, 15)] 2
           [(0, 6); (6, 14); (14, 20)] [3; 10; 17]
           [4; -3]%float [1; 5; 2]%float [8].

(** The steps of [clean_trace] with a threshold of 3.5 for their sizes, the
    window being a Python [int]. *)
Definition clean_trace_analysed : outcome (StepFinderResult.t float) :=
  Eval vm_compute in
    SpecModel.find_and_analyse_steps python_int clean_trace None None true
                                     (Some (Fixed 3.5%float)).

Section Claimed.

Context {F : Type} {SF : Scalar F}.

(** The threshold of the policy ['adapt'] as the claim describes it: [y_c]
    times the mean of the noise within [window + window_var] samples on
    either side of the step, clipped to the valid interior of the filter. *)
Definition claimed_adapt_size (y_c : F) (fbnl_filter : FBNLFilterResult.t F)
           (step : Z) : F :=
  let window := FBNLFilterResult.window fbnl_filter in
  let window_var := FBNLFilterResult.window_var fbnl_filter in
  let noise := FBNLFilterResult.noise fbnl_filter in
  let start_min := window + window_var - 1 in
  let stop_max := len noise - start_min in
  let start := Z.max (step - (window + window_var)) start_min in
  let stop := Z.min (step + (window + window_var)) stop_max in
  fmul y_c (np_mean (py_slice noise start stop)).

(** The capped signal as the claim describes it: the samples of each cap are
    drawn with the mean and the standard deviation of the first, and of the
    last, [inspect_length] samples. *)
Definition claimed_cap_data (g : nat -> F) (data : list F)
           (cap_length inspect_length : Z) : outcome (list F) :=
  let first := py_slice_to data inspect_length in
  let last := py_slice_from data (- inspect_length) in
  let* noise_start :=
    np_random_normal g (np_mean first) (np_std first) cap_length in
  let* noise_stop :=
    np_random_normal (fun k => g (k + Z.to_nat cap_length)%nat)
                     (np_mean last) (np_std last) cap_length in
  Ok (noise_start ++ data ++ noise_stop).

End Claimed.

(** A filter result with windows of 2 samples whose noise estimate rises
    from 1 to 3 at sample 15. *)
Definition rising_noise : FBNLFilterResult.t float :=
  FBNLFilterResult.mk [] 1000%float 2 2 (PyInt 1) [] [] [] [] [] [] [] [] []
    (repeat 1%float 15 ++ repeat 3%float 15)
    2%float PrimFloat.nan PrimFloat.nan PrimFloat.nan [].

(** A signal of nine samples and a generator that draws the value 1. *)
Definition nine_samples : list float := [1; 3; 11; 4; 4; 4; 0; 2; 7]%float.

Definition draws_one : nat -> float := fun _ => 1%float.

(** [np.power] in the examples on binary64 numbers.  They keep the default
    [p = 1], and for the exponent [-1] NumPy computes the reciprocal. *)
Definition reciprocal_power (x y : float) : float := (1 / x)%float.

(** The power of exact arithmetic: [x^y] for a positive base, and undefined
    otherwise. *)
Definition exact_power (x y : Exact.ereal) : Exact.ereal :=
  match x, y with
  | Some a, Some b => if Rlt_dec 0 a then Some (Rpower a b) else None
  | _, _ => None
  end.

(** What the exact statements about the weights ask of the power: it is
    defined and positive on a positive base. *)
Definition positive_power (power : Exact.ereal -> Exact.ereal -> Exact.ereal)
  : Prop :=
  forall x y : R,
    (0 < x)%R -> exists z, power (Some x) (Some y) = Some z /\ (0 < z)%R.

(** A flat signal of ten samples, filtered with capped ends. *)
Definition flat_signal : list float := repeat 2%float 10.

Section LocatorNotions.

Context {F : Type} {SF : Scalar F}.

(** The index of a step as the claim describes it: the centre of mass with
    the weights [|step_mass|]. *)
Definition claimed_step_index (step_mass : list F) (bin : segment)
  : outcome Z :=
  step_index (map fabs step_mass) bin.

End LocatorNotions.


Definition five_samples : list float := [1; 3; 5; 5; 5]%float.

Definition seven_samples : list float := [1; 3; 5; 5; 5; 2; 7]%float.

Definition mixed_mass : list float :=
  (repeat 0 10 ++ [3; -2; -2; 9; 0; 0; PrimFloat.nan; 0])%float.

(** What the filter without caps returns for the signal of seven samples,
    with windows of 2 samples. *)
Definition seven_uncapped : outcome (FBNLFilterResult.t float) :=
  Eval vm_compute in
    filter_fbnl reciprocal_power draws_one seven_samples 1000%float 2 None
                None false.

Section FilterNotions.

Context {F : Type} {SF : Scalar F}.

Variable np_power : F -> F -> F.

(** The pair of weights that the filter computes from two variances:
    [f = sf^-p] and [b = sb^-p], each divided by their sum. *)
Definition normalised_weights (p : py_number F) (s t : F) : F * F :=
  let f := np_power s (negated p) in
  let b := np_power t (negated p) in
  (fdiv f (fadd f b), fdiv b (fadd f b)).

(** The arrays of a result have one length, and its weights are the
    normalised weights of its variances, index by index. *)
Definition well_formed (n : nat) (r : FBNLCore.t F) : Prop :=
  length (FBNLCore.data r) = n
  /\ length (FBNLCore.data_filtered r) = n
  /\ length (FBNLCore.sf r) = n
  /\ length (FBNLCore.sb r) = n
  /\ length (FBNLCore.f r) = n
  /\ length (FBNLCore.b r) = n
  /\ length (FBNLCore.xf r) = n
  /\ length (FBNLCore.xb r) = n
  /\ forall (i : nat) (s t : F),
       nth_error (FBNLCore.sf r) i = Some s ->
       nth_error (FBNLCore.sb r) i = Some t ->
       nth_error (FBNLCore.f r) i
       = Some (fst (normalised_weights (FBNLCore.p r) s t))
       /\ nth_error (FBNLCore.b r) i
          = Some (snd (normalised_weights (FBNLCore.p r) s t)).

(** The result of the capped filter: every array of the result on the
    extended signal, sliced alike. *)
Definition trimmed (lo hi : Z) (r : FBNLCore.t F) : FBNLCore.t F :=
  let trim := fun a : list F => py_slice a lo hi in
  FBNLCore.mk (trim (FBNLCore.data r)) (FBNLCore.resolution r)
              (FBNLCore.window r) (FBNLCore.window_var r) (FBNLCore.p r)
              (trim (FBNLCore.data_filtered r))
              (trim (FBNLCore.sf r)) (trim (FBNLCore.sb r))
              (trim (FBNLCore.f r)) (trim (FBNLCore.b r))
              (trim (FBNLCore.xf r)) (trim (FBNLCore.xb r)).

(** Every array of a filter result has [n] entries. *)
Definition result_length (n : nat) (fr : FBNLFilterResult.t F) : Prop :=
  length (FBNLFilterResult.data fr) = n
  /\ length (FBNLFilterResult.data_filtered fr) = n
  /\ length (FBNLFilterResult.sf fr) = n
  /\ length (FBNLFilterResult.sb fr) = n
  /\ length (FBNLFilterResult.f fr) = n
  /\ length (FBNLFilterResult.b fr) = n
  /\ length (FBNLFilterResult.xf fr) = n
  /\ length (FBNLFilterResult.xb fr) = n
  /\ length (FBNLFilterResult.step_mass fr) = n
  /\ length (FBNLFilterResult.step_size fr) = n
  /\ length (FBNLFilterResult.noise fr) = n
  /\ length (FBNLFilterResult.outls fr) = n.

End FilterNotions.

(** Three samples in exact arithmetic, filtered with windows of one sample
    and without caps: the one interior point has the variances 1 and 4. *)
Definition three_exact : list Exact.ereal := [Some 0%R; Some 1%R; Some 3%R].

(** The midpoints of integer bounds, computed on binary64 numbers as the
    source computes them, agree with [midpoint_up] and [midpoint_down]. *)
Definition midpoints_agree (p0 p1 : Z) : bool :=
  match @rint float _ (fadd (of_Z p0) (fdiv (of_Z (p1 - p0)) (of_Z 2))),
        @rint float _ (fsub (of_Z p1) (fdiv (of_Z (p1 - p0)) (of_Z 2))) with
  | Some u, Some d => (u =? midpoint_up p0 p1) && (d =? midpoint_down p0 p1)
  | _, _ => false
  end.

(** ** Invariants of the step pruner *)

(** The differences of adjacent entries, [l[1:] - l[:-1]]. *)
Definition differences {A : Type} (sub : A -> A -> A) (l : list A) : list A :=
  zip_with sub (tl l) l.

(** The entries of a list that a mask keeps. *)
Fixpoint select {A : Type} (mask : list bool) (l : list A) : list A :=
  match mask, l with
  | b :: m, x :: t => if b then x :: select m t else select m t
  | _, _ => []
  end.

(** The mask without its [k]-th kept entry. *)
Fixpoint clear_kth (k : nat) (mask : list bool) : list bool :=
  match mask with
  | [] => []
  | false :: m => false :: clear_kth k m
  | true :: m =>
      match k with
      | O => false :: m
      | S k' => true :: clear_kth k' m
      end
  end.

(** Every step index is the stop of the plateau before it and the start of
    the plateau behind it. *)
Definition split_at (plateaus : list segment) (indices : list Z) : Prop :=
  forall j idx,
    nth_error indices j = Some idx ->
    exists a b,
      nth_error plateaus j = Some a
      /\ nth_error plateaus (S j) = Some b
      /\ snd a = idx /\ fst b = idx.

(** No plateau has a negative length, and no two adjacent plateaus are both
    empty. *)
Definition no_adjacent_empty (plateaus : list segment) : Prop :=
  forall j a b,
    nth_error plateaus j = Some a ->
    nth_error plateaus (S j) = Some b ->
    0 <= snd a - fst a /\ 0 <= snd b - fst b
    /\ 0 < (snd a - fst a) + (snd b - fst b).

(** The range that a list of plateaus covers: the start of the first and the
    stop of the last one. *)
Definition covered (plateaus : list segment) : segment :=
  (fst (hd (0, 0) plateaus), snd (last plateaus (0, 0))).

(** Thresholds below the sizes of both steps of [two_steps]. *)
Definition low_thresholds : list float := [1; 1]%float.

(** The heights of the plateaus of a [Steps] value, each weighted with the
    length of its plateau, and summed; for plateau heights that are the
    means of a signal over the plateaus this is the sum of the signal. *)
Definition weighted_sum (plateaus : list segment) (heights : list R) : R :=
  fold_right Rplus 0%R
    (zip_with (fun (pl : segment) (h : R) => (h * IZR (snd pl - fst pl))%R)
              plateaus heights).

(** One step of height 2 in a trace of four samples, in exact arithmetic,
    and a threshold above it. *)
Definition one_exact_step : Steps.t Exact.ereal :=
  Steps.mk [2] [true] [(1, 3)] 1 [(0, 2); (2, 4)] [1; 3]
           [Some 2%R] [Some 1%R; Some 3%R] [].

Definition high_threshold : list Exact.ereal := [Some 5%R].

(* ================================================================== *)
(** * The bank of filters and the whole analysis *)
(* ================================================================== *)

(** The named tuple [FBNLFilterBankResult]: six fields of the bank, then the
    fields of the [FBNLFilterResult] of the selected window. *)
Module FBNLFilterBankResult.
Record t (F : Type) : Type := mk {
  windows : list Z;
  windows_var : list Z;
  data_filtered_mean : list F;
  step_mass_mean : list F;
  step_size_mean : list F;
  noises_mean : list F;
  selected : FBNLFilterResult.t F
}.
End FBNLFilterBankResult.

(** What the loop over the windows of the bank accumulates, with the number
    of variates that have been taken from the random generator. *)
Module Sweep.
Record state (F : Type) : Type := mk {
  drawn : nat;
  STDs : list F;
  data_filtered_mean : list F;
  step_size_mean : list F;
  noise_mean : list F
}.
End Sweep.

(** [np.unique] of an array of integers: its values in increasing order,
    each of them once. *)
Fixpoint insert_unique (x : Z) (l : list Z) : list Z :=
  match l with
  | [] => [x]
  | y :: t =>
      if x <? y then x :: y :: t
      else if x =? y then y :: t
      else y :: insert_unique x t
  end.

Definition np_unique (l : list Z) : list Z := fold_right insert_unique [] l.

(** [np.where(a == v)[0][0]] *)
Fixpoint first_index (v : Z) (a : list Z) : option nat :=
  match a with
  | [] => None
  | x :: t => if x =? v then Some O else option_map S (first_index v t)
  end.

Definition np_where_first (a : list Z) (v : Z) : outcome nat :=
  match first_index v a with
  | Some i => Ok i
  | None => Raise IndexError
  end.

Section Bank.

Context {F : Type} {SF : Scalar F}.

(** The routines of NumPy that the windows are computed with,
    [np.log10(x)] and [np.logspace(start, stop, num)], the one behind the
    weights of the filter, [np.power(x, y)], and the two routines of the
    step locator that are not part of the sources at hand. *)
Variable np_log10 : F -> F.
Variable np_logspace : F -> F -> Z -> outcome (list F).
Variable np_power : F -> F -> F.
Variable get_contiguous_segments : list bool -> Z -> Z -> Z -> list segment.
Variable _delete_close_center :
  list segment -> list bool -> Z -> Z -> bool -> list segment * list bool.

(** The truth value of an optional float: [None] and zero are falsy. *)
Definition truthy (x : option F) : bool :=
  match x with
  | Some v => negb (feqb v fzero)
  | None => false
  end.

(** [x or y] *)
Definition or_else (x y : option F) : option F := if truthy x then x else y.

(** [min(a, b)] of Python: [a], unless [b < a]. *)
Definition py_min (a b : F) : F := if fltb b a then b else a.

(** [np.round(x).astype(int)] for one entry: the conversion of a number
    that is no 64-bit integer (NaN and infinities among them) gives the
    smallest 64-bit integer. *)
Definition round_astype_int (x : F) : Z :=
  match rint x with
  | Some z =>
      if (- 2 ^ 63 <=? z) && (z <? 2 ^ 63) then z else - 2 ^ 63
  | None => - 2 ^ 63
  end.

(** [log_spaced_ints(start, stop, number)] *)
Definition log_spaced_ints (start stop : F) (number : Z) : outcome (list Z) :=
  let start := np_log10 start in
  let stop := np_log10 stop in
  let* windows := np_logspace start stop number in
  Ok (np_unique (map round_astype_int windows)).

(** [log_spaced_time_windows(tmin, tmax, resolution, number)] *)
Definition log_spaced_time_windows (tmin : F) (tmax resolution : option F)
           (number : option Z) : outcome (list Z) :=
  let tmax := match or_else tmax (Some tmin) with
              | Some v => v
              | None => tmin
              end in
  let resolution := match or_else resolution (Some fone) with
                    | Some v => v
                    | None => fone
                    end in
  let number := or_default number 1 in
  let start := fmul tmin resolution in
  let stop := fmul tmax resolution in
  log_spaced_ints start stop number.

(** [a += b] on an array: [b] has the length of [a], or one entry. *)
Definition np_iadd (a b : list F) : outcome (list F) :=
  if Nat.eqb (length b) (length a) then Ok (zip_with fadd a b)
  else match b with
       | [x] => Ok (map (fun v => fadd v x) a)
       | _ => Raise ValueError
       end.

(** [a.min()]: NaN as soon as one entry is NaN. *)
Definition np_min (a : list F) : outcome F :=
  match a with
  | [] => Raise ValueError
  | x :: t =>
      if existsb isnan a then Ok fnan
      else Ok (fold_left (fun m v => if fltb v m then v else m) t x)
  end.

(** The variates that one call of [filter_fbnl] takes from the random
    generator: two caps of [window + window_var - 1] samples. *)
Definition cap_draws (cap : bool) (window : Z) : nat :=
  if cap
  then (2 * Z.to_nat (window + or_default (Some window) window - 1))%nat
  else 0%nat.

(** The body of the loop over the windows, without what it prints and
    without the lists that are only plotted.  The windows are the entries
    of an array, NumPy integers. *)
Definition sweep_step (g : nat -> F) (data : list F) (resolution : F)
           (edginess : option (py_number F))
           (expected_min_step_size expected_min_dwell_t : option F)
           (step_size_threshold : option (threshold_policy F)) (cap : bool)
           (number_of_windows : Z)
           (acc : outcome (Sweep.state F)) (window : Z)
  : outcome (Sweep.state F) :=
  let* st := acc in
  let* fbnl_filter :=
    filter_fbnl np_power (fun k => g (k + Sweep.drawn st)%nat) data
                resolution window (Some window) edginess cap in
  let* step_finder_result :=
    find_and_analyse_steps get_contiguous_segments _delete_close_center
                           numpy_int64 fbnl_filter expected_min_step_size
                           expected_min_dwell_t true step_size_threshold in
  let STDs := Sweep.STDs st ++ [FBNLFilterResult.STD fbnl_filter] in
  let part := fun a : list F =>
                map (fun v => fdiv v (of_Z number_of_windows)) a in
  let* data_filtered_mean :=
    np_iadd (Sweep.data_filtered_mean st)
            (part (FBNLFilterResult.data_filtered fbnl_filter)) in
  let* step_size_mean :=
    np_iadd (Sweep.step_size_mean st)
            (part (FBNLFilterResult.step_size fbnl_filter)) in
  let* noise_mean :=
    np_iadd (Sweep.noise_mean st)
            (part (FBNLFilterResult.noise fbnl_filter)) in
  Ok (Sweep.mk (Sweep.drawn st + cap_draws cap window) STDs
               data_filtered_mean step_size_mean noise_mean).

(** The window that is selected without a [filter_time]: 4/5 of the mean of
    the windows at which the STD is the smallest. *)
Definition select_window (windows : list Z) (STDs : list F) : outcome Z :=
  let* smallest := np_min STDs in
  let idx := filter (fun sw : F * Z => feqb smallest (fst sw))
                    (zip_with pair STDs windows) in
  let at_minimum := map (fun sw : F * Z => of_Z (snd sw)) idx in
  int_round (fdiv (fmul (np_mean at_minimum) (of_Z 4)) (of_Z 5)).

(** [filter_find_analyse_steps(data, resolution, filter_time, filter_min_t,
    filter_max_t, filter_number, edginess, expected_min_step_size,
    expected_min_dwell_t, step_size_threshold, cap_data, verbose,
    plot=False)], without what it prints; of the values that are only
    printed, the one whose computation can raise is kept, the window time
    [window / resolution].  The result is [None], or the [StepFinderResult]
    whose field [fbnl_filter] is the [FBNLFilterBankResult] given next to
    it; [g] is the random generator's stream of standard normal variates. *)
Definition filter_find_analyse_steps (g : nat -> F) (data : list F)
           (resolution : F) (filter_time filter_min_t filter_max_t : option F)
           (filter_number : option Z) (edginess : option (py_number F))
           (expected_min_step_size expected_min_dwell_t : option F)
           (step_size_threshold : option (threshold_policy F))
           (cap verbose : bool)
  : outcome (option (FBNLFilterBankResult.t F * StepFinderResult.t F)) :=
  let filter_max_t := or_else filter_max_t filter_time in
  let filter_min_t :=
    if truthy filter_min_t then filter_min_t
    else match filter_time, filter_max_t with
         | Some a, Some b => Some (py_min a b)
         | _, _ => None  (* TypeError: the [except] branch *)
         end in
  match filter_min_t with
  | None => Ok None
  | Some filter_min_t =>
      let* windows :=
        log_spaced_time_windows filter_min_t filter_max_t (Some resolution)
                                filter_number in
      let* edge :=
        match filter_time with
        | Some t =>
            let* e := @int_round F SF (fmul t resolution) in
            let window_edge := Z.max e 1 in
            let windows := np_unique (window_edge :: windows) in
            let* i_window := np_where_first windows window_edge in
            Ok (windows, Some i_window)
        | None => Ok (windows, None)
        end in
      let windows := fst edge in
      let zeros := map (fun _ => fzero) data in
      let* swept :=
        fold_left (sweep_step g data resolution edginess
                              expected_min_step_size expected_min_dwell_t
                              step_size_threshold cap (len windows))
                  windows (Ok (Sweep.mk 0 [] zeros zeros zeros)) in
      let step_mass_mean :=
        zip_with fdiv (Sweep.step_size_mean swept) (Sweep.noise_mean swept) in
      let* window :=
        match snd edge with
        | None => select_window windows (Sweep.STDs swept)
        | Some i_window => py_get windows (Z.of_nat i_window)
        end in
      (* [int(np.round(...))] is a Python [int], [windows[i_window]] a
         NumPy integer *)
      let window_type :=
        match snd edge with
        | None => python_int
        | Some _ => numpy_int64
        end in
      (* [print(tmp.format(window / resolution * 1000, window))] *)
      let* window_time :=
        if verbose then int_truediv window_type window resolution
        else Ok fzero in
      let* fbnl_filter :=
        filter_fbnl np_power (fun k => g (k + Sweep.drawn swept)%nat) data
                    resolution window (Some window) edginess cap in
      let bank :=
        FBNLFilterBankResult.mk windows windows
          (Sweep.data_filtered_mean swept) step_mass_mean
          (Sweep.step_size_mean swept) (Sweep.noise_mean swept) fbnl_filter in
      let* step_finder_result :=
        find_and_analyse_steps get_contiguous_segments _delete_close_center
                               window_type fbnl_filter expected_min_step_size
                               expected_min_dwell_t true step_size_threshold in
      Ok (Some (bank, step_finder_result))
  end.

End Bank.

(** Stand-ins for [np.log10] and [np.logspace] in the examples, for one
    window length: with [stop = start], [np.logspace(log10(start),
    log10(stop), num)] gives [num] samples that round to [start]. *)
Definition same_log10 (x : float) : float := x.

Definition same_logspace (start stop : float) (num : Z)
  : outcome (list float) :=
  if num <? 0 then Raise ValueError else Ok (repeat start (Z.to_nat num)).

(** A list of integers in strictly increasing order. *)
Definition increasing (l : list Z) : Prop :=
  forall (i j : nat) (a b : Z),
    (i < j)%nat -> nth_error l i = Some a -> nth_error l j = Some b -> a < b.

(** A noisy trace of 24 samples with one step of size 10 at sample 12, and
    a random generator that alternates between 1 and -1. *)
Definition noisy_step : list float :=
  [0.5; -0.5; 0.25; -0.25; 0.5; -0.5; 0; -0.25; 0.25; 0; 0.5; -0.5;
   10.5; 9.5; 10.25; 9.75; 10.5; 9.5; 10; 9.75; 10.25; 10; 10.5; 9.5]%float.

Definition draws_alternating (k : nat) : float :=
  if Nat.even k then 1%float else (-1)%float.

(** The whole analysis of [noisy_step] at 1000 Hz, with the routines of the
    locator as the spec describes them. *)
Definition analyse_noisy_step
           (filter_time filter_min_t filter_max_t : option float)
           (filter_number : option Z)
  : outcome (option (FBNLFilterBankResult.t float
                     * StepFinderResult.t float)) :=
  filter_find_analyse_steps same_log10 same_logspace reciprocal_power
    SpecModel.get_contiguous_segments SpecModel._delete_close_center
    draws_alternating noisy_step 1000%float filter_time filter_min_t
    filter_max_t filter_number None None None None true true.

Definition noisy_step_analysed
  : outcome (option (FBNLFilterBankResult.t float
                     * StepFinderResult.t float)) :=
  Eval vm_compute in
    analyse_noisy_step (Some 0x1p-8%float) (Some 0x1p-9%float) None (Some 3).

(* ================================================================== *)
(** * Simulated steps *)
(* ================================================================== *)

(** The named tuple [StepsSimulated]. *)
Module StepsSimulated.
Record t (F : Type) : Type := mk {
  data : list F;
  resolution : F;
  noise : list F;
  dwells : list Z;
  indices : list Z;
  number : Z
}.
End StepsSimulated.

(** The local variables of the loop of [simulate_steps], with the numbers
    of exponential variates and of signs that have been drawn. *)
Module Simulation.
Record state (F : Type) : Type := mk {
  data : list F;
  height : F;
  i : Z;
  step : Z;
  points : Z;
  dwells : list Z;
  indices : list Z;
  exponentials : nat;
  choices : nat
}.
End Simulation.

Section Simulate.

Context {F : Type} {SF : Scalar F}.

(** Routines of NumPy that are taken as given: [np.floor(x)] and
    [np.arange(start, stop, step)]; and the random generator:
    [exponential_points scale k] is the [k]-th value of
    [np.ceil(np.random.exponential(scale)).astype(int)], [choice k] the
    [k]-th value of [np.random.choice([-1, 1])], [g] the stream of standard
    normal variates, and [uninitialised] the contents of a fresh
    [np.empty] array. *)
Variable np_floor : F -> F.
Variable np_arange_step : Z -> Z -> Z -> outcome (list Z).
Variable exponential_points : Z -> nat -> Z.
Variable choice : nat -> Z.
Variable g : nat -> F.
Variable uninitialised : nat -> F.

(** [np.empty(n)] and [np.full(n, v)]: a negative length raises. *)
Definition np_empty (n : Z) : outcome (list F) :=
  if n <? 0 then Raise ValueError
  else Ok (map uninitialised (seq 0 (Z.to_nat n))).

Definition np_full_checked {A : Type} (n : Z) (v : A) : outcome (list A) :=
  if n <? 0 then Raise ValueError else Ok (repeat v (Z.to_nat n)).

(** [np.signbit(x)]: [x] is negative, or the negative zero. *)
Definition signbit (x : F) : bool :=
  fltb x fzero || fltb (fdiv fone x) fzero.

(** [np.random.normal(scale=scale, size=size)]: a scale with the sign bit
    set raises. *)
Definition np_random_normal_scaled (scale : F) (size : Z)
  : outcome (list F) :=
  if negb (isnan scale) && signbit scale then Raise ValueError
  else np_random_normal g fzero scale size.

(** [np.ceil(np.random.exponential(scale=scale)).astype(int)], the [k]-th
    draw: a negative scale raises. *)
Definition np_random_exponential_points (scale : Z) (k : nat) : outcome Z :=
  if scale <? 0 then Raise ValueError else Ok (exponential_points scale k).

(** One turn of [while i < length: ...]. *)
Definition simulate_turn (monoton constant_dwell : bool) (length : Z)
           (dwell_points : Z) (step_size : F) (st : Simulation.state F)
  : outcome (Simulation.state F) :=
  let i := Simulation.i st in
  let* points :=
    if constant_dwell then Ok (Simulation.points st)
    else np_random_exponential_points dwell_points
                                      (Simulation.exponentials st) in
  let exponentials :=
    if constant_dwell then Simulation.exponentials st
    else S (Simulation.exponentials st) in
  let points := Z.min (length - i) points in
  let height :=
    if monoton then Simulation.height st
    else fadd (Simulation.height st)
              (fmul (of_Z (choice (Simulation.choices st))) step_size) in
  let choices :=
    if monoton then Simulation.choices st else S (Simulation.choices st) in
  let* y :=
    np_full_checked points
      (if monoton then fmul (of_Z (Simulation.step st)) step_size
       else height) in
  let step := if monoton then Simulation.step st + 1 else Simulation.step st in
  let* data := np_set_slice (Simulation.data st) i (i + points) y in
  let i := i + points in
  let dwells := Simulation.dwells st ++ [points] in
  let indices :=
    if i <? length then Simulation.indices st ++ [i]
    else Simulation.indices st in
  Ok (Simulation.mk data height i step points dwells indices exponentials
                    choices).

(** The loop, for at most [fuel] turns; [None] when it has not stopped by
    then. *)
Fixpoint simulate_loop (fuel : nat) (monoton constant_dwell : bool)
         (length dwell_points : Z) (step_size : F) (st : Simulation.state F)
  : outcome (option (Simulation.state F)) :=
  if Simulation.i st <? length then
    match fuel with
    | O => Ok None
    | S fuel' =>
        let* st := simulate_turn monoton constant_dwell length dwell_points
                                 step_size st in
        simulate_loop fuel' monoton constant_dwell length dwell_points
                      step_size st
    end
  else Ok (Some st).

(** [simulate_steps(duration, resolution, dwell_time, step_size, SNR,
    movement, constant_dwell)] for Python floats; [monoton] stands for
    [movement == 'monoton'].  The loop is run for at most [fuel] turns, and
    the result is [None] when it has not stopped by then. *)
Definition simulate_steps (fuel : nat)
           (duration resolution dwell_time step_size SNR : F)
           (monoton constant_dwell : bool)
  : outcome (option (StepsSimulated.t F)) :=
  let dwell_points := round_astype_int (fmul dwell_time resolution) in
  let length := round_astype_int (fmul duration resolution) in
  let* simulated :=
    if monoton && constant_dwell then
      let data :=
        map (fun k => fmul step_size
                           (np_floor (fdiv (of_Z k) (of_Z dwell_points))))
            (np_arange 0 length) in
      let* dwells := np_full_checked (length + 1) dwell_points in
      let* indices := np_arange_step dwell_points length dwell_points in
      Ok (Some (data, dwells, indices))
    else
      let* data := np_empty length in
      let* final :=
        simulate_loop fuel monoton constant_dwell length dwell_points
                      step_size
                      (Simulation.mk data fzero 0 0 dwell_points [] [] 0 0) in
      Ok (option_map
            (fun st => (Simulation.data st, Simulation.dwells st,
                        Simulation.indices st))
            final) in
  match simulated with
  | None => Ok None
  | Some (data, dwells, indices) =>
      let* noise_STD := py_truediv step_size SNR in
      let* noise := np_random_normal_scaled noise_STD (len data) in
      Ok (Some (StepsSimulated.mk data resolution noise dwells indices
                                  (len indices)))
  end.

End Simulate.

(** The running sums of a list of integers. *)
Fixpoint running_sums (start : Z) (l : list Z) : list Z :=
  match l with
  | [] => []
  | x :: t => (start + x) :: running_sums (start + x) t
  end.

Definition sum_Z (l : list Z) : Z := fold_right Z.add 0 l.

(** The number of entries of a list of indices that are at most [k]. *)
Definition count_upto (k : Z) (indices : list Z) : Z :=
  len (filter (fun s => s <=? k) indices).

(** Stand-ins for the random generator in the examples: dwells of 3, 1, 4,
    1, 5, ... samples and alternating signs. *)
Definition dwell_draws (scale : Z) (k : nat) : Z :=
  nth k [3; 1; 4; 1; 5; 9; 2; 6] 1.

Definition sign_draws (k : nat) : Z := if Nat.even k then 1 else -1.

(** The examples go through the loop, which calls neither [np.floor] nor
    [np.arange] with a step; these fill their places. *)
Definition no_floor (x : float) : float := x.

Definition no_arange_step (start stop step : Z) : outcome (list Z) := Ok [].

(** A monotonous movement with the dwells above: 16 samples, steps of 8. *)
Definition simulate_monoton (fuel : nat)
  : outcome (option (StepsSimulated.t float)) :=
  simulate_steps no_floor no_arange_step dwell_draws sign_draws
                 draws_alternating (fun _ => 7%float) fuel
                 0x1p-6%float 1000%float 0x1p-9%float 8%float 2%float
                 true false.

Definition monoton_simulated : outcome (option (StepsSimulated.t float)) :=
  Eval vm_compute in simulate_monoton 100.

(** A diffusive movement with constant dwells of [dwell_time] seconds. *)
Definition simulate_diffusive (fuel : nat) (dwell_time : float)
  : outcome (option (StepsSimulated.t float)) :=
  simulate_steps no_floor no_arange_step dwell_draws sign_draws
                 draws_alternating (fun _ => 7%float) fuel
                 0x1p-6%float 1000%float dwell_time 8%float 2%float
                 false true.

Section SimulateNotions.

Context {F : Type} {SF : Scalar F}.

(** The array of the loop has [length] entries and the cursor is in it or
    at its end. *)
Definition in_bounds (length : Z) (st : Simulation.state F) : Prop :=
  List.length (Simulation.data st) = Z.to_nat length
  /\ 0 <= Simulation.i st <= length.

(** The invariant of the loop: the dwells are not negative, the cursor is
    their sum, and the step indices are their running sums, but for the one
    that reaches [length]. *)
Definition simulated (length : Z) (st : Simulation.state F) : Prop :=
  in_bounds length st
  /\ sum_Z (Simulation.dwells st) = Simulation.i st
  /\ (forall d, In d (Simulation.dwells st) -> 0 <= d)
  /\ running_sums 0 (Simulation.dwells st)
     = Simulation.indices st
       ++ (if Simulation.i st <? length then [] else [length]).

(** The invariant of the loop for a monotonous movement: up to the cursor
    the signal is [step_size] times the number of steps so far. *)
Definition staircase (step_size : F) (st : Simulation.state F) : Prop :=
  Simulation.step st = len (Simulation.dwells st)
  /\ forall k : nat,
       Z.of_nat k < Simulation.i st ->
       nth_error (Simulation.data st) k
       = Some (fmul (of_Z (count_upto (Z.of_nat k)
                             (running_sums 0 (Simulation.dwells st))))
                    step_size).

End SimulateNotions.

(* ================================================================== *)
(** * Properties: lists and arrays *)
(* ================================================================== *)

Section ListFacts.

Context {A : Type}.
Implicit Types (l : list A) (i : Z) (k n : nat).

Lemma len_nonneg l : 0 <= len l.
Proof. unfold len. lia. Qed.

Lemma len_app l1 l2 : len (l1 ++ l2) = len l1 + len l2.
Proof. unfold len. rewrite length_app. lia. Qed.

Lemma length_replace_nth k (v : A) l : length (replace_nth k v l) = length l.
Proof.
  revert k. induction l as [|x t IH]; intros [|k]; simpl; auto.
Qed.

Lemma nth_error_replace_nth_eq k (v : A) l :
  (k < length l)%nat -> nth_error (replace_nth k v l) k = Some v.
Proof.
  revert k. induction l as [|x t IH]; intros [|k] H; simpl in *; try lia; auto.
  apply IH. lia.
Qed.

Lemma nth_error_replace_nth_neq k m (v : A) l :
  k <> m -> nth_error (replace_nth k v l) m = nth_error l m.
Proof.
  revert k m. induction l as [|x t IH]; intros [|k] [|m] H; simpl; auto.
  congruence.
Qed.

Lemma length_remove_at k l :
  (k < length l)%nat -> length (remove_at k l) = (length l - 1)%nat.
Proof.
  intros H. unfold remove_at.
  rewrite length_app, length_firstn, length_skipn. lia.
Qed.

Lemma nth_error_remove_at_lt k m l :
  (m < k)%nat -> nth_error (remove_at k l) m = nth_error l m.
Proof.
  intros H. unfold remove_at.
  destruct (Nat.lt_ge_cases m (length l)) as [Hm|Hm].
  - rewrite nth_error_app1 by (rewrite length_firstn; lia).
    now rewrite nth_error_firstn, (proj2 (Nat.ltb_lt m k) H).
  - rewrite (proj2 (nth_error_None l m) Hm).
    apply nth_error_None.
    rewrite length_app, length_firstn, length_skipn. lia.
Qed.

Lemma nth_error_remove_at_ge k m l :
  (k <= m)%nat -> (k < length l)%nat ->
  nth_error (remove_at k l) m = nth_error l (S m).
Proof.
  intros H Hk. unfold remove_at.
  rewrite nth_error_app2 by (rewrite length_firstn; lia).
  rewrite length_firstn, nth_error_skipn.
  f_equal. lia.
Qed.

Lemma remove_at_replace_next k (v : A) l :
  (S k < length l)%nat ->
  remove_at k (replace_nth (S k) v l) = firstn k l ++ v :: skipn (S (S k)) l.
Proof.
  revert k. induction l as [|x t IH]; intros k H; simpl in H; [lia|].
  destruct k as [|k].
  - destruct t as [|y t']; simpl in *; [lia|]. reflexivity.
  - unfold remove_at in *. simpl. f_equal. apply IH. lia.
Qed.

Lemma py_get_nth l i (d : A) :
  0 <= i < len l -> py_get l i = Ok (nth (Z.to_nat i) l d).
Proof.
  intros H. unfold py_get.
  assert (E1 : (i <? 0) = false) by (apply Z.ltb_ge; lia).
  assert (E2 : (len l <=? i) = false) by (apply Z.leb_gt; lia).
  rewrite E1. cbv zeta. rewrite E1, E2. cbn [orb].
  assert (Hk : (Z.to_nat i < length l)%nat) by (unfold len in H; lia).
  rewrite (nth_error_nth' l d Hk). reflexivity.
Qed.

Lemma py_get_nth_error l i (x : A) :
  0 <= i -> py_get l i = Ok x -> nth_error l (Z.to_nat i) = Some x.
Proof.
  intros H. unfold py_get.
  assert (E1 : (i <? 0) = false) by (apply Z.ltb_ge; lia).
  rewrite E1. cbv zeta. rewrite E1. cbn [orb].
  destruct (len l <=? i); [discriminate|].
  destruct (nth_error l (Z.to_nat i)); congruence.
Qed.

Lemma py_set_replace l i (v : A) :
  0 <= i < len l -> py_set l i v = Ok (replace_nth (Z.to_nat i) v l).
Proof.
  intros H. unfold py_set.
  assert (E1 : (i <? 0) = false) by (apply Z.ltb_ge; lia).
  assert (E2 : (len l <=? i) = false) by (apply Z.leb_gt; lia).
  rewrite E1. cbv zeta. rewrite E1, E2. reflexivity.
Qed.


Lemma py_pop_remove l i :
  0 <= i < len l -> py_pop l i = Ok (remove_at (Z.to_nat i) l).
Proof.
  intros H. unfold py_pop.
  assert (E1 : (i <? 0) = false) by (apply Z.ltb_ge; lia).
  assert (E2 : (len l <=? i) = false) by (apply Z.leb_gt; lia).
  rewrite E1. cbv zeta. rewrite E1, E2. reflexivity.
Qed.

Lemma remove_at_last l :
  l <> [] -> remove_at (length l - 1) l = removelast l.
Proof.
  intros H. unfold remove_at.
  rewrite skipn_all2 by lia. rewrite app_nil_r.
  rewrite removelast_firstn_len. f_equal. lia.
Qed.

Lemma py_pop_last_removelast l :
  0 < len l -> py_pop_last l = Ok (removelast l).
Proof.
  intros H. unfold py_pop_last, py_pop.
  change (-1 <? 0) with true. cbv iota zeta.
  assert (E1 : (-1 + len l <? 0) = false) by (apply Z.ltb_ge; lia).
  assert (E2 : (len l <=? -1 + len l) = false) by (apply Z.leb_gt; lia).
  rewrite E1, E2. cbn [orb]. f_equal.
  replace (Z.to_nat (-1 + len l)) with (length l - 1)%nat by (unfold len; lia).
  apply remove_at_last. intros ->. unfold len in H. simpl in H. lia.
Qed.

Lemma len_replace_nth k (v : A) l : len (replace_nth k v l) = len l.
Proof. unfold len. now rewrite length_replace_nth. Qed.

Lemma len_remove_at k l :
  (k < length l)%nat -> len (remove_at k l) = len l - 1.
Proof. intros H. unfold len. rewrite length_remove_at; lia. Qed.

End ListFacts.

Lemma midpoints_agree_on_grid :
  forallb (fun p0 => forallb (fun p1 => midpoints_agree (p0 - 8) (p1 - 5))
                             (map Z.of_nat (seq 0 40)))
          (map Z.of_nat (seq 0 40)) = true
  /\ midpoints_agree 1000000007 3000000000000 = true.
Proof. split; vm_compute; reflexivity. Qed.

(* ================================================================== *)
(** * Properties: the step pruner *)
(* ================================================================== *)

Section PruneFacts.

Context {F : Type} {SF : Scalar F}.

Lemma nth_fuse_at_lt {A : Type} (k m : nat) (v d : A) (l : list A) :
  (m < k)%nat -> (k < length l)%nat -> nth m (fuse_at k v l) d = nth m l d.
Proof.
  intros Hm Hk. unfold fuse_at.
  rewrite app_nth1 by (rewrite length_firstn; lia).
  rewrite <- (firstn_skipn k l) at 2.
  now rewrite app_nth1 by (rewrite length_firstn; lia).
Qed.

Lemma nth_fuse_at_gt {A : Type} (k m : nat) (v d : A) (l : list A) :
  (k < m)%nat -> (k < length l)%nat ->
  nth m (fuse_at k v l) d = nth (S m) l d.
Proof.
  intros Hm Hk. unfold fuse_at.
  rewrite app_nth2 by (rewrite length_firstn; lia).
  rewrite length_firstn, Nat.min_l by lia.
  destruct (m - k)%nat as [|j] eqn:E; [lia|]. cbn [nth].
  rewrite nth_skipn. f_equal. lia.
Qed.

Lemma len_fuse_at {A : Type} (k : nat) (v : A) (l : list A) :
  (S k < length l)%nat -> len (fuse_at k v l) = len l - 1.
Proof.
  intros H. unfold fuse_at, len.
  rewrite length_app, length_firstn. cbn [length].
  rewrite length_skipn. lia.
Qed.

Lemma len_removelast {A : Type} (l : list A) :
  0 < len l -> len (removelast l) = len l - 1.
Proof.
  unfold len. intros H.
  rewrite removelast_firstn_len, length_firstn. lia.
Qed.

Lemma len_skipn {A : Type} (k : nat) (l : list A) :
  (k <= length l)%nat -> len (skipn k l) = len l - Z.of_nat k.
Proof. intros H. unfold len. rewrite length_skipn. lia. Qed.

Lemma remove_at_replace_fuse {A : Type} (k : nat) (v : A) (l : list A) :
  (S k < length l)%nat -> remove_at k (replace_nth (S k) v l) = fuse_at k v l.
Proof. apply remove_at_replace_next. Qed.

Lemma remove_at_replace_before {A : Type} (k : nat) (v : A) (l : list A) :
  (k < length l)%nat -> remove_at (S k) (replace_nth k v l) = fuse_at k v l.
Proof.
  revert k. induction l as [|x t IH]; intros k H; simpl in H; [lia|].
  destruct k as [|k].
  - reflexivity.
  - unfold remove_at, fuse_at in *. cbn [replace_nth firstn skipn app].
    f_equal. apply IH. lia.
Qed.

Lemma remove_at_replace_prev {A : Type} (k : nat) (v : A) (l : list A) :
  (1 <= k)%nat -> (k - 1 < length l)%nat ->
  remove_at k (replace_nth (k - 1) v l) = fuse_at (k - 1) v l.
Proof.
  intros H1 H2. destruct k as [|k]; [lia|].
  replace (S k - 1)%nat with k in * by lia.
  now apply remove_at_replace_before.
Qed.

Ltac lens :=
  repeat (rewrite ?len_replace_nth;
          rewrite ?len_fuse_at
            by (rewrite ?length_replace_nth; unfold len in *; lia);
          rewrite ?len_remove_at
            by (rewrite ?length_replace_nth; unfold len in *; lia));
  unfold len in *; lia.

Ltac got d := rewrite (@py_get_nth _ _ _ d) by lens; cbn [bind].
Ltac put := rewrite py_set_replace by lens; cbn [bind].
Ltac popped := rewrite py_pop_remove by lens; cbn [bind].

(** With consistent lengths and a cursor on a step, the removal raises
    nothing but the division by zero of two empty plateaus, and gives the
    state [removed]. *)
Lemma remove_step_removed (st : Pruner.state F) :
  consistent st ->
  0 <= Pruner.i st < Pruner.num_steps st ->
  seg_len (left_plateau st (Z.to_nat (Pruner.i st)))
  + seg_len (right_plateau st (Z.to_nat (Pruner.i st))) <> 0 ->
  remove_step st = Ok (removed st).
Proof.
  intros (Hn & Hi & Hd & Hb & Hs & Hm & Hp & Hc & Hh & Hw) Hcur Hlr.
  unfold remove_step, removed.
  set (k := Z.to_nat (Pruner.i st)) in *.
  got (0, 0). got (0, 0). got (@fnan F SF). got (@fnan F SF).
  replace (Z.to_nat (Pruner.i st + 1)) with (S k) by lia.
  fold k.
  change (nth k (Pruner.plateaus st) (0, 0)) with (left_plateau st k).
  change (nth (S k) (Pruner.plateaus st) (0, 0)) with (right_plateau st k).
  unfold fused_height.
  change (snd (left_plateau st k) - fst (left_plateau st k))
    with (seg_len (left_plateau st k)).
  change (snd (right_plateau st k) - fst (right_plateau st k))
    with (seg_len (right_plateau st k)).
  rewrite (proj2 (Z.eqb_neq _ _) Hlr). cbn [bind].
  fold (weighted_height st k).
  put. put. put. popped. popped. popped.
  replace (Z.to_nat (Pruner.i st + 1)) with (S k) by lia.
  fold k.
  rewrite !remove_at_replace_fuse by (unfold len in *; lia).
  unfold sizes_after, dwell_after.
  assert (Hk1 : Z.to_nat (Pruner.i st - 1) = (k - 1)%nat) by lia.
  destruct (1 <=? Pruner.i st) eqn:E1;
    destruct (Pruner.i st <? Pruner.num_steps st - 1) eqn:E2;
    cbn [andb bind];
    try apply Z.leb_le in E1; try apply Z.leb_gt in E1;
    try apply Z.ltb_lt in E2; try apply Z.ltb_ge in E2.
  - got (@fnan F SF). put. got (@fnan F SF). put. popped.
    got 0. got 0. put. popped. popped. popped. popped. popped.
    replace (Z.to_nat (Pruner.i st + 1)) with (S k) by lia.
    rewrite Hk1. fold k.
    rewrite (@nth_fuse_at_lt _ k (k - 1)) by (unfold len in *; lia).
    rewrite (@nth_fuse_at_gt _ k (S k)) by (unfold len in *; lia).
    rewrite (@remove_at_replace_prev _ k _ (Pruner.dwell_points st))
      by (unfold len in *; lia).
    reflexivity.
  - got (@fnan F SF). put. popped.
    assert (E3 : (2 <=? Pruner.num_steps st) = true) by (apply Z.leb_le; lia).
    rewrite E3. rewrite py_pop_last_removelast by lia. cbn [bind].
    popped. popped. popped. popped.
    rewrite Hk1. fold k.
    rewrite nth_fuse_at_lt by (unfold len in *; lia).
    reflexivity.
  - got (@fnan F SF). put. popped. popped. popped. popped. popped. popped.
    replace (Z.to_nat (Pruner.i st + 1)) with (S k) by lia.
    fold k.
    rewrite nth_fuse_at_gt by (unfold len in *; lia).
    replace k with 0%nat by lia.
    reflexivity.
  - popped.
    assert (E3 : (2 <=? Pruner.num_steps st) = false) by (apply Z.leb_gt; lia).
    rewrite E3. cbn [bind]. popped. popped. popped. popped.
    fold k.
    assert (Hd0 : Pruner.dwell_points st = []).
    { destruct (Pruner.dwell_points st); [reflexivity|].
      unfold len in Hw. simpl in Hw. lia. }
    rewrite Hd0. reflexivity.
Qed.

(** Without the division by zero the removal raises it. *)
Lemma remove_step_empty_plateaus (st : Pruner.state F) :
  consistent st ->
  0 <= Pruner.i st < Pruner.num_steps st ->
  seg_len (left_plateau st (Z.to_nat (Pruner.i st)))
  + seg_len (right_plateau st (Z.to_nat (Pruner.i st))) = 0 ->
  remove_step st = Raise ZeroDivisionError.
Proof.
  intros (Hn & Hi & Hd & Hb & Hs & Hm & Hp & Hc & Hh & Hw) Hcur Hlr.
  unfold remove_step.
  set (k := Z.to_nat (Pruner.i st)) in *.
  got (0, 0). got (0, 0). got (@fnan F SF). got (@fnan F SF).
  replace (Z.to_nat (Pruner.i st + 1)) with (S k) by lia.
  fold k.
  change (nth k (Pruner.plateaus st) (0, 0)) with (left_plateau st k).
  change (nth (S k) (Pruner.plateaus st) (0, 0)) with (right_plateau st k).
  unfold fused_height.
  change (snd (left_plateau st k) - fst (left_plateau st k))
    with (seg_len (left_plateau st k)).
  change (snd (right_plateau st k) - fst (right_plateau st k))
    with (seg_len (right_plateau st k)).
  rewrite (proj2 (Z.eqb_eq _ _) Hlr). reflexivity.
Qed.

Lemma remove_step_returns (st st' : Pruner.state F) :
  consistent st ->
  0 <= Pruner.i st < Pruner.num_steps st ->
  remove_step st = Ok st' ->
  st' = removed st.
Proof.
  intros Hc Hcur H.
  destruct (Z.eq_dec
              (seg_len (left_plateau st (Z.to_nat (Pruner.i st)))
               + seg_len (right_plateau st (Z.to_nat (Pruner.i st)))) 0)
    as [E|E].
  - rewrite remove_step_empty_plateaus in H by assumption. discriminate.
  - rewrite remove_step_removed in H by assumption. congruence.
Qed.

Lemma removed_consistent (st : Pruner.state F) :
  consistent st ->
  0 <= Pruner.i st < Pruner.num_steps st ->
  consistent (removed st).
Proof.
  intros (Hn & Hi & Hd & Hb & Hs & Hm & Hp & Hc & Hh & Hw) Hcur.
  unfold consistent, removed. cbn -[Z.max Z.sub Z.add].
  set (k := Z.to_nat (Pruner.i st)) in *.
  assert (Hk : (k < length (Pruner.indices st))%nat) by (unfold len in *; lia).
  repeat split; try lens.
  - unfold sizes_after.
    destruct (1 <=? Pruner.i st); destruct (Pruner.i st <? _); lens.
  - unfold dwell_after.
    destruct (1 <=? Pruner.i st) eqn:E1;
      destruct (Pruner.i st <? Pruner.num_steps st - 1) eqn:E2;
      cbn [andb];
      try apply Z.leb_le in E1; try apply Z.leb_gt in E1;
      try apply Z.ltb_lt in E2; try apply Z.ltb_ge in E2.
    + rewrite len_fuse_at by (unfold len in *; lia). lia.
    + destruct (Z.eq_dec (Pruner.num_steps st) 1) as [E|E].
      * assert (Hd0 : Pruner.dwell_points st = []).
        { destruct (Pruner.dwell_points st); [reflexivity|].
          unfold len in Hw. simpl in Hw. lia. }
        rewrite Hd0. simpl. unfold len. simpl. lia.
      * rewrite len_removelast by lia. lia.
    + rewrite len_skipn by (unfold len in *; lia). lia.
    + destruct (Z.eq_dec (Pruner.num_steps st) 1) as [E|E].
      * assert (Hd0 : Pruner.dwell_points st = []).
        { destruct (Pruner.dwell_points st); [reflexivity|].
          unfold len in Hw. simpl in Hw. lia. }
        rewrite Hd0. simpl. unfold len. simpl. lia.
      * rewrite len_removelast by lia. lia.
Qed.

Lemma py_get_in_range {A : Type} (l : list A) (i : Z) :
  0 <= i < len l ->
  exists x, nth_error l (Z.to_nat i) = Some x /\ py_get l i = Ok x.
Proof.
  intros H.
  destruct (nth_error l (Z.to_nat i)) as [x|] eqn:E.
  - exists x. split; [reflexivity|].
    rewrite (@py_get_nth _ _ _ x) by assumption.
    f_equal. now apply nth_error_nth.
  - apply nth_error_None in E. unfold len in H. lia.
Qed.

Lemma too_small_small_at (st : Pruner.state F) :
  consistent st ->
  0 <= Pruner.i st < Pruner.num_steps st ->
  too_small (Pruner.step_sizes st) (Pruner.minsizes st) (Pruner.i st)
  = Ok (small_at st (Z.to_nat (Pruner.i st))).
Proof.
  intros (Hn & Hi & Hd & Hb & Hs & Hm & _) Hcur.
  unfold too_small, small_at.
  destruct (@py_get_in_range _ (Pruner.step_sizes st) (Pruner.i st))
    as (s & Es & Gs); [lia|].
  destruct (@py_get_in_range _ (Pruner.minsizes st) (Pruner.i st))
    as (m & Em & Gm); [lia|].
  now rewrite Gs, Gm, Es, Em.
Qed.

Lemma advance_with_cursor (st : Pruner.state F) :
  advance st = with_cursor st (Pruner.i st + 1).
Proof. reflexivity. Qed.

(** One turn of the loop on a step that is large enough. *)
Lemma prune_iter_keeps (st : Pruner.state F) :
  consistent st ->
  0 <= Pruner.i st < Pruner.num_steps st ->
  small_at st (Z.to_nat (Pruner.i st)) = false ->
  prune_iter st = Ok (advance st).
Proof.
  intros Hc Hcur Hs. unfold prune_iter.
  rewrite too_small_small_at by assumption. cbn [bind].
  now rewrite Hs.
Qed.

(** One turn of the loop on a step that is too small. *)
Lemma prune_iter_removes (st : Pruner.state F) :
  consistent st ->
  0 <= Pruner.i st < Pruner.num_steps st ->
  small_at st (Z.to_nat (Pruner.i st)) = true ->
  seg_len (left_plateau st (Z.to_nat (Pruner.i st)))
  + seg_len (right_plateau st (Z.to_nat (Pruner.i st))) <> 0 ->
  prune_iter st = Ok (advance (removed st)).
Proof.
  intros Hc Hcur Hs Hlr. unfold prune_iter.
  rewrite too_small_small_at by assumption. cbn [bind].
  rewrite Hs. now rewrite remove_step_removed by assumption.
Qed.

Lemma prune_iter_returns (st st' : Pruner.state F) :
  consistent st ->
  0 <= Pruner.i st < Pruner.num_steps st ->
  prune_iter st = Ok st' ->
  st' = advance (if small_at st (Z.to_nat (Pruner.i st))
                 then removed st else st).
Proof.
  intros Hc Hcur. unfold prune_iter.
  rewrite too_small_small_at by assumption. cbn [bind].
  destruct (small_at st (Z.to_nat (Pruner.i st))).
  - destruct (remove_step st) as [st1|e] eqn:E; cbn [bind]; [|discriminate].
    apply remove_step_returns in E; try assumption.
    intros H. congruence.
  - congruence.
Qed.

Lemma small_at_removed (st : Pruner.state F) (j : nat) :
  consistent st ->
  0 <= Pruner.i st < Pruner.num_steps st ->
  (S j < Z.to_nat (Pruner.i st))%nat ->
  small_at (removed st) j = small_at st j.
Proof.
  intros (Hn & Hi & Hd & Hb & Hs & Hm & _) Hcur Hj.
  unfold small_at, removed. cbn -[Z.max Z.sub Z.add].
  set (k := Z.to_nat (Pruner.i st)) in *.
  unfold sizes_after.
  rewrite !nth_error_remove_at_lt by lia.
  replace (nth_error
             (if Pruner.i st <? Pruner.num_steps st - 1
              then replace_nth (S k) _ _ else _) j)
    with (nth_error (Pruner.step_sizes st) j); [reflexivity|].
  destruct (1 <=? Pruner.i st); destruct (Pruner.i st <? _);
    rewrite ?nth_error_replace_nth_neq by lia; reflexivity.
Qed.

Lemma advance_checked (st : Pruner.state F) :
  checked st ->
  Pruner.i st < Pruner.num_steps st ->
  small_at st (Z.to_nat (Pruner.i st)) = false ->
  checked (advance st).
Proof.
  intros (Hc & Hcur & Hp) Hlt Hs. repeat split.
  1-10: apply Hc.
  - cbn. lia.
  - cbn. lia.
  - intros j Hj. cbn in Hj.
    change (small_at (advance st) j) with (small_at st j).
    destruct (Nat.eq_dec j (Z.to_nat (Pruner.i st))) as [->|Hne].
    + exact Hs.
    + apply Hp. lia.
Qed.

Lemma removed_checked (st : Pruner.state F) :
  checked st ->
  Pruner.i st < Pruner.num_steps st ->
  checked (advance (removed st)).
Proof.
  intros (Hc & Hcur & Hp) Hlt.
  assert (Hr : consistent (removed st)) by (apply removed_consistent; [assumption|lia]).
  repeat split.
  1-10: apply Hr.
  - cbn -[Z.max]. lia.
  - cbn -[Z.max]. lia.
  - intros j Hj. cbn -[Z.max] in Hj.
    change (small_at (advance (removed st)) j) with (small_at (removed st) j).
    rewrite small_at_removed by (try assumption; lia).
    apply Hp. lia.
Qed.

Lemma prune_iter_checked (st st' : Pruner.state F) :
  checked st ->
  Pruner.i st < Pruner.num_steps st ->
  prune_iter st = Ok st' ->
  checked st'.
Proof.
  intros Hck Hlt H.
  pose proof Hck as (Hc & Hcur & Hp).
  apply prune_iter_returns in H; [|assumption|lia].
  destruct (small_at st (Z.to_nat (Pruner.i st))) eqn:E; subst st'.
  - now apply removed_checked.
  - now apply advance_checked.
Qed.

Lemma prune_loop_checked (fuel : nat) (st st' : Pruner.state F) :
  checked st -> prune_loop fuel st = Ok st' -> checked st'.
Proof.
  revert st. induction fuel as [|fuel IH]; intros st Hck H; simpl in H.
  - congruence.
  - destruct (Pruner.i st <? Pruner.num_steps st) eqn:E.
    + apply Z.ltb_lt in E.
      destruct (prune_iter st) as [st1|e] eqn:E1; cbn [bind] in H;
        [|discriminate].
      eapply IH; [|exact H]. eapply prune_iter_checked; eassumption.
    + congruence.
Qed.

Lemma turns_decrease (st st' : Pruner.state F) :
  checked st ->
  Pruner.i st < Pruner.num_steps st ->
  prune_iter st = Ok st' ->
  (turns st' < turns st)%nat.
Proof.
  intros (Hc & Hcur & Hp) Hlt H.
  apply prune_iter_returns in H; [|assumption|lia].
  pose proof Hc as (Hn & Hi & _).
  destruct (small_at st (Z.to_nat (Pruner.i st))); subst st'; unfold turns.
  - cbn -[Z.max Nat.mul].
    rewrite length_remove_at by (unfold len in Hi; lia).
    unfold len in Hi. lia.
  - cbn -[Z.max Nat.mul]. lia.
Qed.

(** The loop has stopped by itself when the turns it was given run out. *)
Lemma prune_loop_exits (fuel : nat) (st st' : Pruner.state F) :
  checked st ->
  (turns st <= fuel)%nat ->
  prune_loop fuel st = Ok st' ->
  Pruner.num_steps st' <= Pruner.i st'.
Proof.
  revert st. induction fuel as [|fuel IH]; intros st Hck Hfuel H.
  - unfold turns in Hfuel. lia.
  - simpl in H. destruct (Pruner.i st <? Pruner.num_steps st) eqn:E.
    + apply Z.ltb_lt in E.
      destruct (prune_iter st) as [st1|e] eqn:E1; cbn [bind] in H;
        [|discriminate].
      apply (IH st1); [| |exact H].
      * eapply prune_iter_checked; eassumption.
      * pose proof (turns_decrease Hck E E1). lia.
    + apply Z.ltb_ge in E. congruence.
Qed.

Lemma with_cursor_same (st : Pruner.state F) :
  with_cursor st (Pruner.i st) = st.
Proof. now destruct st. Qed.

(** From a cursor behind which nothing is too small, the loop walks to the
    end and changes nothing. *)
Lemma prune_loop_all_pass (fuel : nat) (st : Pruner.state F) :
  consistent st ->
  0 <= Pruner.i st <= Pruner.num_steps st ->
  (forall j, (Z.to_nat (Pruner.i st) <= j < Z.to_nat (Pruner.num_steps st))%nat ->
             small_at st j = false) ->
  (Z.to_nat (Pruner.num_steps st - Pruner.i st) <= fuel)%nat ->
  prune_loop fuel st = Ok (with_cursor st (Pruner.num_steps st)).
Proof.
  revert st. induction fuel as [|fuel IH]; intros st Hc Hcur Hp Hfuel.
  - simpl. replace (Pruner.num_steps st) with (Pruner.i st) by lia.
    now rewrite with_cursor_same.
  - simpl. destruct (Pruner.i st <? Pruner.num_steps st) eqn:E.
    + apply Z.ltb_lt in E.
      rewrite prune_iter_keeps; [|assumption|lia|apply Hp; lia].
      cbn [bind].
      rewrite IH.
      * reflexivity.
      * exact Hc.
      * cbn. lia.
      * intros j Hj. cbn in Hj.
        change (small_at (advance st) j) with (small_at st j).
        apply Hp. lia.
      * cbn. lia.
    + apply Z.ltb_ge in E.
      replace (Pruner.num_steps st) with (Pruner.i st) by lia.
      now rewrite with_cursor_same.
Qed.

Lemma init_state_checked (steps : Steps.t F) (ms : list F) :
  steps_consistent steps ms -> checked (init_state steps ms).
Proof.
  intros Hc. split; [exact Hc|]. split.
  - destruct Hc as (Hn & _). cbn in *. lia.
  - intros j Hj. cbn in Hj. lia.
Qed.

(** The loop of the pruner ends in a state in which no step is too small. *)
Lemma delete_small_steps_final (steps : Steps.t F) (ms : list F)
      (st : Pruner.state F) :
  steps_consistent steps ms ->
  prune_loop (turns (init_state steps ms)) (init_state steps ms) = Ok st ->
  consistent st
  /\ Pruner.i st = Pruner.num_steps st
  /\ passed st (Z.to_nat (Pruner.num_steps st)).
Proof.
  intros Hc H.
  pose proof (init_state_checked Hc) as Hck.
  pose proof (prune_loop_checked _ Hck H) as (Hc' & Hcur & Hp).
  pose proof (prune_loop_exits Hck (le_n _) H) as Hex.
  assert (E : Pruner.i st = Pruner.num_steps st) by lia.
  rewrite E in Hp. auto.
Qed.

(** The step sizes after a removal, entry by entry: the entry before the
    removed one and the entry that takes its place are measured against
    the new height, the others are kept. *)
Lemma sizes_after_nth (st : Pruner.state F) (h : F) (j : nat) :
  consistent st ->
  0 <= Pruner.i st < Pruner.num_steps st ->
  let k := Z.to_nat (Pruner.i st) in
  let hs := Pruner.p_heights st in
  let ss := Pruner.step_sizes st in
  nth_error (sizes_after st k h) j =
    if (S j =? k)%nat then Some (fsub h (nth (k - 1) hs fnan))
    else if (j =? k)%nat then
           if Pruner.i st <? Pruner.num_steps st - 1
           then Some (fsub (nth (S (S k)) hs fnan) h)
           else None
    else if (j <? k)%nat then nth_error ss j
    else nth_error ss (S j).
Proof.
  intros (Hn & Hi & Hd & Hb & Hs & Hm & _) Hcur k hs ss.
  unfold sizes_after. fold k hs ss.
  assert (Hlen : length ss = Z.to_nat (Pruner.num_steps st))
    by (unfold len in Hs; subst ss; lia).
  destruct (S j =? k)%nat eqn:E1; [apply Nat.eqb_eq in E1|apply Nat.eqb_neq in E1].
  - assert (E : (1 <=? Pruner.i st) = true) by (apply Z.leb_le; lia).
    rewrite E, nth_error_remove_at_lt by lia.
    replace (k - 1)%nat with j by lia.
    destruct (Pruner.i st <? Pruner.num_steps st - 1);
      rewrite ?nth_error_replace_nth_neq by lia;
      apply nth_error_replace_nth_eq; lia.
  - destruct (j =? k)%nat eqn:E2; [apply Nat.eqb_eq in E2|apply Nat.eqb_neq in E2].
    + subst j.
      destruct (Pruner.i st <? Pruner.num_steps st - 1) eqn:E3;
        [apply Z.ltb_lt in E3|apply Z.ltb_ge in E3].
      * rewrite nth_error_remove_at_ge
          by (rewrite ?length_replace_nth;
              destruct (1 <=? Pruner.i st); rewrite ?length_replace_nth; lia).
        apply nth_error_replace_nth_eq.
        destruct (1 <=? Pruner.i st); rewrite ?length_replace_nth; lia.
      * apply nth_error_None.
        rewrite length_remove_at;
          destruct (1 <=? Pruner.i st); rewrite ?length_replace_nth; lia.
    + destruct (j <? k)%nat eqn:E3; [apply Nat.ltb_lt in E3|apply Nat.ltb_ge in E3].
      * rewrite nth_error_remove_at_lt by lia.
        destruct (1 <=? Pruner.i st); destruct (Pruner.i st <? Pruner.num_steps st - 1);
          rewrite ?nth_error_replace_nth_neq by lia; reflexivity.
      * rewrite nth_error_remove_at_ge
          by (destruct (1 <=? Pruner.i st); destruct (Pruner.i st <? Pruner.num_steps st - 1);
              rewrite ?length_replace_nth; lia).
        destruct (1 <=? Pruner.i st); destruct (Pruner.i st <? Pruner.num_steps st - 1);
          rewrite ?nth_error_replace_nth_neq by lia; reflexivity.
Qed.

(** C3, as amended.  At a cursor [i] on a step that is too small (and whose
    two plateaus are not both empty), one turn of the loop fuses the
    plateaus [i] and [i+1]: the bounds become their union, the height the
    average weighted by their lengths; the step sizes [i-1] and [i+1] are
    measured against the new height where these neighbours exist; the two
    dwell points around the step are replaced by their sum when both
    neighbours exist, the leading one is dropped when there is no left
    neighbour, the trailing one when there is no right neighbour; the
    entries of the step are removed; the cursor is rewound by 2, clamped at
    -1, and advanced by 1. *)
Theorem prune_iter_fuses (st : Pruner.state F) :
  consistent st ->
  0 <= Pruner.i st < Pruner.num_steps st ->
  small_at st (Z.to_nat (Pruner.i st)) = true ->
  seg_len (left_plateau st (Z.to_nat (Pruner.i st)))
  + seg_len (right_plateau st (Z.to_nat (Pruner.i st))) <> 0 ->
  let i := Pruner.i st in
  let n := Pruner.num_steps st in
  let k := Z.to_nat i in
  let hs := Pruner.p_heights st in
  let d := Pruner.dwell_points st in
  let h := weighted_height st k in
  exists st',
    prune_iter st = Ok st'
    /\ Pruner.num_steps st' = n - 1
    /\ Pruner.plateaus st'
       = fuse_at k (fst (left_plateau st k), snd (right_plateau st k))
                 (Pruner.plateaus st)
    /\ Pruner.p_heights st' = fuse_at k h hs
    /\ Pruner.p_centers st'
       = fuse_at k (midpoint_up (fst (left_plateau st k))
                                (snd (right_plateau st k)))
                 (Pruner.p_centers st)
    /\ (forall j,
          nth_error (Pruner.step_sizes st') j =
            if (S j =? k)%nat then Some (fsub h (nth (k - 1) hs fnan))
            else if (j =? k)%nat then
                   if i <? n - 1 then Some (fsub (nth (S (S k)) hs fnan) h)
                   else None
            else if (j <? k)%nat then nth_error (Pruner.step_sizes st) j
            else nth_error (Pruner.step_sizes st) (S j))
    /\ Pruner.dwell_points st'
       = (if (1 <=? i) && (i <? n - 1)
          then fuse_at (k - 1) (nth (k - 1) d 0 + nth k d 0) d
          else if i <? n - 1 then skipn 1 d
          else removelast d)
    /\ Pruner.indices st' = remove_at k (Pruner.indices st)
    /\ Pruner.direction st' = remove_at k (Pruner.direction st)
    /\ Pruner.step_bounds st' = remove_at k (Pruner.step_bounds st)
    /\ Pruner.minsizes st' = remove_at k (Pruner.minsizes st)
    /\ Pruner.i st' = Z.max (i - 2) (-1) + 1.
Proof.
  intros Hc Hcur Hs Hlr i n k hs d h.
  exists (advance (removed st)).
  split; [now apply prune_iter_removes|].
  repeat split.
  intros j. cbn -[Z.max Z.sub Z.add Nat.eqb Nat.ltb Z.ltb].
  now apply sizes_after_nth.
Qed.

(** C8.  Pruning is idempotent: on a [Steps] value with consistent
    lengths, what [delete_small_steps] returns, pruned again with the
    thresholds of the surviving steps, comes back unchanged. *)
Theorem delete_small_steps_idempotent (steps steps' : Steps.t F)
        (ms ms' : list F) :
  steps_consistent steps ms ->
  delete_small_steps_run steps ms = Ok (steps', ms') ->
  delete_small_steps_run steps' ms' = Ok (steps', ms')
  /\ delete_small_steps steps' ms' = Ok steps'.
Proof.
  intros Hc H.
  assert (Hrun : delete_small_steps_run steps' ms' = Ok (steps', ms')).
  { unfold delete_small_steps_run in H.
    destruct (prune_loop (turns (init_state steps ms)) (init_state steps ms))
      as [st|e] eqn:E; cbn [bind] in H; [|discriminate].
    injection H as <- <-.
    destruct (delete_small_steps_final Hc E) as (Hc' & Hcur & Hp).
    unfold delete_small_steps_run.
    set (st2 := init_state (final_steps st) (Pruner.minsizes st)).
    assert (Hn2 : Pruner.num_steps st2 = Pruner.num_steps st).
    { destruct Hc' as (_ & Hi & _). exact Hi. }
    assert (Hc2 : consistent st2).
    { unfold consistent in *. rewrite Hn2. exact Hc'. }
    rewrite (@prune_loop_all_pass (turns st2) st2).
    - reflexivity.
    - exact Hc2.
    - destruct Hc' as (Hn & _). rewrite Hn2. cbn. lia.
    - intros j Hj. rewrite Hn2 in Hj.
      change (small_at st2 j) with (small_at st j). apply Hp. lia.
    - unfold turns. lia. }
  split; [exact Hrun|].
  unfold delete_small_steps. now rewrite Hrun.
Qed.

End PruneFacts.

(** ** The pruner on binary64 numbers *)

(** C3, counterexample.  The cursor is on the first of three steps, which is
    too small and has a right neighbour: the pruner drops the leading dwell
    point, [8]; it neither replaces two dwell points by their sum nor drops
    the trailing one. *)
Lemma prune_iter_drops_leading_dwell :
  Pruner.i small_first = 0
  /\ small_at small_first 0 = true
  /\ exists st',
       prune_iter small_first = Ok st'
       /\ Pruner.dwell_points st' = [6]
       /\ ~ claimed_dwell_fusion (Pruner.dwell_points small_first)
                                 (Pruner.dwell_points st').
Proof.
  split; [reflexivity|]. split; [vm_compute; reflexivity|].
  eexists. split; [vm_compute; reflexivity|].
  split; [reflexivity|].
  cbn [Pruner.dwell_points small_first three_steps].
  intros [(k & Hk & H)|H].
  - destruct k as [|k]; simpl in Hk; [|lia].
    vm_compute in H. discriminate.
  - vm_compute in H. discriminate.
Qed.

Lemma prune_iter_fuses_witness :
  consistent small_middle
  /\ 0 <= Pruner.i small_middle < Pruner.num_steps small_middle
  /\ small_at small_middle 1 = true
  /\ exists st',
       prune_iter small_middle = Ok st'
       /\ Pruner.plateaus st' = [(0, 6); (6, 20); (20, 26)]
       /\ Pruner.dwell_points st' = [14]
       /\ Pruner.i st' = 0.
Proof.
  assert (Hc : consistent small_middle)
    by (unfold consistent; cbn; repeat split; reflexivity || lia).
  assert (Hcur : 0 <= Pruner.i small_middle < Pruner.num_steps small_middle)
    by (cbn; lia).
  assert (Hs : small_at small_middle (Z.to_nat (Pruner.i small_middle)) = true)
    by (vm_compute; reflexivity).
  assert (Hlr : seg_len (left_plateau small_middle
                                      (Z.to_nat (Pruner.i small_middle)))
                + seg_len (right_plateau small_middle
                                         (Z.to_nat (Pruner.i small_middle)))
                <> 0)
    by (vm_compute; discriminate).
  split; [exact Hc|]. split; [exact Hcur|]. split; [exact Hs|].
  destruct (prune_iter_fuses Hc Hcur Hs Hlr)
    as (st' & H & _ & Hpl & _ & _ & _ & Hd & _ & _ & _ & _ & Hi).
  exists st'. split; [exact H|].
  split; [rewrite Hpl; reflexivity|].
  split; [rewrite Hd; reflexivity|].
  rewrite Hi. reflexivity.
Defined.

Lemma delete_small_steps_idempotent_witness :
  steps_consistent two_steps two_thresholds
  /\ exists steps' ms',
       delete_small_steps_run two_steps two_thresholds = Ok (steps', ms')
       /\ Steps.indices steps' = [6]
       /\ delete_small_steps_run steps' ms' = Ok (steps', ms')
       /\ delete_small_steps steps' ms' = Ok steps'.
Proof.
  assert (Hc : steps_consistent two_steps two_thresholds)
    by (unfold steps_consistent, consistent; cbn; repeat split;
        reflexivity || lia).
  split; [exact Hc|].
  destruct two_steps_pruned as [[steps' ms']|e] eqn:E;
    [|vm_compute in E; discriminate].
  exists steps', ms'.
  assert (H : delete_small_steps_run two_steps two_thresholds = Ok (steps', ms'))
    by (rewrite <- E; vm_compute; reflexivity).
  split; [exact H|].
  split; [vm_compute in E; injection E as <- _; reflexivity|].
  exact (delete_small_steps_idempotent Hc H).
Defined.

(* ================================================================== *)
(** * Properties: the quality scorer *)
(* ================================================================== *)

Section SliceFacts.

Context {A : Type}.

Lemma py_slice_to_minus1 (l : list A) :
  py_slice_to l (-1) = firstn (length l - 1) l.
Proof.
  unfold py_slice_to, py_slice, clip_index.
  change (0 <? 0) with false. change (-1 <? 0) with true. cbv iota.
  pose proof (len_nonneg l) as H.
  rewrite Z.min_l by lia. simpl (Z.to_nat 0). cbn [skipn].
  f_equal. unfold len in *. lia.
Qed.

Lemma py_slice_from_1 (l : list A) : py_slice_from l 1 = skipn 1 l.
Proof.
  unfold py_slice_from, py_slice, clip_index.
  change (1 <? 0) with false. cbv iota.
  pose proof (len_nonneg l) as H.
  destruct (len l <? 0) eqn:E; [apply Z.ltb_lt in E; lia|].
  rewrite (Z.min_r (len l) (len l)) by lia.
  destruct l as [|x t]; [reflexivity|].
  rewrite Z.min_l by (unfold len; simpl; lia).
  change (Z.to_nat 1) with 1%nat.
  apply firstn_all2. rewrite length_skipn. unfold len. lia.
Qed.

Lemma nth_error_zip_with {B C : Type} (f : A -> B -> C) (la : list A)
      (lb : list B) (i : nat) :
  nth_error (zip_with f la lb) i =
    match nth_error la i, nth_error lb i with
    | Some x, Some y => Some (f x y)
    | _, _ => None
    end.
Proof.
  revert lb i. induction la as [|x ta IH]; intros [|y tb] [|i]; simpl; auto.
  - now destruct (nth_error ta i).
Qed.

Lemma length_zip_with {B C : Type} (f : A -> B -> C) (la : list A)
      (lb : list B) :
  length (zip_with f la lb) = Nat.min (length la) (length lb).
Proof.
  revert lb. induction la as [|x ta IH]; intros [|y tb]; simpl; auto.
Qed.

Lemma firstn_replace_nth (k : nat) (v : A) (l : list A) :
  (k < length l)%nat -> firstn (S k) (replace_nth k v l) = firstn k l ++ [v].
Proof.
  revert k. induction l as [|x t IH]; intros [|k] H; simpl in *; try lia; auto.
  f_equal. apply IH. lia.
Qed.

Lemma skipn_replace_nth (k m : nat) (v : A) (l : list A) :
  (k < m)%nat -> skipn m (replace_nth k v l) = skipn m l.
Proof.
  revert k m. induction l as [|x t IH]; intros [|k] [|m] H; simpl; try lia; auto.
  apply IH. lia.
Qed.

End SliceFacts.

Section QualityFacts.

Context {F : Type} {SF : Scalar F}.

Lemma nth_error_plateau_joins (plateaus : list segment) (p_heights : list F)
      (i : nat) (p_l p_r : segment) (ph_l ph_r : F) :
  nth_error plateaus i = Some p_l ->
  nth_error plateaus (S i) = Some p_r ->
  nth_error p_heights i = Some ph_l ->
  nth_error p_heights (S i) = Some ph_r ->
  nth_error (plateau_joins plateaus p_heights) i
  = Some ((p_l, p_r), (ph_l, ph_r)).
Proof.
  intros H1 H2 H3 H4. unfold plateau_joins.
  rewrite !nth_error_zip_with, !py_slice_to_minus1, !py_slice_from_1.
  assert (L1 : (S i < length plateaus)%nat)
    by (apply nth_error_Some; congruence).
  assert (L2 : (S i < length p_heights)%nat)
    by (apply nth_error_Some; congruence).
  assert (B1 : (i <? length plateaus - 1)%nat = true) by (apply Nat.ltb_lt; lia).
  assert (B2 : (i <? length p_heights - 1)%nat = true) by (apply Nat.ltb_lt; lia).
  rewrite !nth_error_firstn, B1, B2, !nth_error_skipn.
  change (1 + i)%nat with (S i).
  now rewrite H1, H2, H3, H4.
Qed.

Lemma length_plateau_joins (plateaus : list segment) (p_heights : list F)
      (n : nat) :
  length plateaus = S n -> length p_heights = S n ->
  length (plateau_joins plateaus p_heights) = n.
Proof.
  intros H1 H2. unfold plateau_joins.
  rewrite !length_zip_with, !py_slice_to_minus1, !py_slice_from_1.
  rewrite !length_firstn, !length_skipn. lia.
Qed.

Lemma enumerate_from_succ {B : Type} (k : nat) (l : list B) (x : B) :
  enumerate_from (Z.of_nat k) (x :: l)
  = (Z.of_nat k, x) :: enumerate_from (Z.of_nat (S k)) l.
Proof. simpl. do 2 f_equal. lia. Qed.

(** The loop fills the two arrays from position [k] on, one entry per
    join, and raises nothing while the arrays are long enough. *)
Lemma score_steps_fill (data noise : list F) (window start_min stop_max : Z)
      (joins : list ((segment * segment) * (F * F))) :
  forall (k : nat) (a b : list F),
    (k + length joins <= length a)%nat ->
    (k + length joins <= length b)%nat ->
    fold_left (score_step data noise window start_min stop_max)
              (enumerate_from (Z.of_nat k) joins) (Ok (a, b))
    = Ok (firstn k a
            ++ map (sd_of data noise window start_min stop_max) joins
            ++ skipn (k + length joins) a,
          firstn k b
            ++ map (noise_of data noise window start_min stop_max) joins
            ++ skipn (k + length joins) b).
Proof.
  induction joins as [|[[p_l p_r] [ph_l ph_r]] t IH]; intros k a b Ha Hb.
  - simpl. rewrite Nat.add_0_r, !firstn_skipn. reflexivity.
  - rewrite enumerate_from_succ. cbn [fold_left].
    cbn [length] in Ha, Hb.
    assert (E : score_step data noise window start_min stop_max (Ok (a, b))
                  (Z.of_nat k, ((p_l, p_r), (ph_l, ph_r)))
                = Ok (replace_nth k
                        (sd_of data noise window start_min stop_max
                               ((p_l, p_r), (ph_l, ph_r))) a,
                      replace_nth k
                        (noise_of data noise window start_min stop_max
                                  ((p_l, p_r), (ph_l, ph_r))) b)).
    { unfold score_step. cbn [bind fst snd].
      rewrite !py_set_replace by (unfold len; lia).
      cbn [bind]. rewrite Nat2Z.id. reflexivity. }
    rewrite E, IH by (rewrite length_replace_nth; lia).
    rewrite !firstn_replace_nth, !skipn_replace_nth by lia.
    rewrite <- !app_assoc. cbn [map app length].
    replace (S k + length t)%nat with (k + S (length t))%nat by lia.
    reflexivity.
Qed.

(** [get_step_qualities] raises nothing on a [Steps] value of the right
    shape, and gives one pair of numbers per join of two plateaus. *)
Lemma get_step_qualities_returns (steps : Steps.t F)
      (fbnl_filter : FBNLFilterResult.t F) :
  plateaus_fit steps ->
  let data := FBNLFilterResult.data fbnl_filter in
  let noise := FBNLFilterResult.noise fbnl_filter in
  let window := FBNLFilterResult.window fbnl_filter in
  let start_min := window + FBNLFilterResult.window_var fbnl_filter - 1 in
  let stop_max := len noise - start_min in
  let joins := plateau_joins (Steps.plateaus steps)
                             (Steps.plateau_heights steps) in
  let sd := map (sd_of data noise window start_min stop_max) joins in
  let sn := map (noise_of data noise window start_min stop_max) joins in
  get_step_qualities steps fbnl_filter
  = Ok (StepQuality.mk sd sn (zip_with fdiv sn sd)).
Proof.
  intros [H1 H2] data noise window start_min stop_max joins sd sn.
  unfold get_step_qualities.
  fold data noise window. fold start_min. fold stop_max. fold joins.
  assert (Hj : length joins = length (Steps.indices steps))
    by (apply length_plateau_joins; assumption).
  rewrite (@score_steps_fill data noise window start_min stop_max joins 0%nat)
    by (rewrite length_map; simpl; lia).
  cbn [bind fst snd firstn app plus].
  rewrite !skipn_all2 by (rewrite length_map; lia).
  rewrite !app_nil_r. reflexivity.
Qed.

End QualityFacts.

(** ** The quality scorer on binary64 numbers *)





(** ** Thresholds, capping and the empty result *)

(** C4, the failing input.  For a step at sample 10 the policy ['adapt']
    averages the noise over the samples 6 to 17, that is up to
    [(window + window_var) * window] samples to the right of the step, and
    gives 1.5; over the samples within [window + window_var] of the step the
    mean noise is 1. *)
Theorem get_min_step_sizes_adapt_window :
  get_min_step_sizes [10] 1%float rising_noise (Some Adapt)
  = ([1.5%float], Adapt)
  /\ claimed_adapt_size 1%float rising_noise 10 = 1%float
  /\ np_mean (py_slice (FBNLFilterResult.noise rising_noise) 6 18) = 1.5%float.
Proof. repeat split. Qed.

(** What the policy ['adapt'] computes for every list of steps. *)
Lemma get_min_step_sizes_adapt {F : Type} {SF : Scalar F} (indices : list Z)
      (y_c : F) (fbnl_filter : FBNLFilterResult.t F) :
  let window := FBNLFilterResult.window fbnl_filter in
  let window_var := FBNLFilterResult.window_var fbnl_filter in
  let noise := FBNLFilterResult.noise fbnl_filter in
  let start_min := window + window_var - 1 in
  let stop_max := len noise - start_min in
  fst (get_min_step_sizes indices y_c fbnl_filter (Some Adapt))
  = map (fun step =>
           fmul y_c
                (np_mean
                   (py_slice noise
                      (Z.max (step - (window + window_var)) start_min)
                      (Z.min (step + (window + window_var) * window)
                             stop_max))))
        indices.
Proof.
  cbv zeta. unfold get_min_step_sizes. cbn [policy_or_adapt fst].
  now rewrite map_map.
Qed.

(** The other two policies give one and the same value for every step. *)
Lemma get_min_step_sizes_static {F : Type} {SF : Scalar F} (indices : list Z)
      (y_c : F) (fbnl_filter : FBNLFilterResult.t F) :
  get_min_step_sizes indices y_c fbnl_filter (Some Static)
  = (map (fun _ => fmul (fmul fone y_c)
                        (FBNLFilterResult.noise_mean fbnl_filter)) indices,
     Static).
Proof. reflexivity. Qed.

Lemma get_min_step_sizes_fixed {F : Type} {SF : Scalar F} (indices : list Z)
      (y_c v : F) (fbnl_filter : FBNLFilterResult.t F) :
  feqb v fzero = false ->
  get_min_step_sizes indices y_c fbnl_filter (Some (Fixed v))
  = (map (fun _ => fmul fone v) indices, Fixed v).
Proof.
  intros H. unfold get_min_step_sizes, policy_or_adapt. now rewrite H.
Qed.

(** C7, the failing input.  With a window of 4 samples the caps have 7
    samples and [inspect_length] is 2.  The samples of the left cap are drawn
    around the median 3 of the first three samples, with their standard
    deviation; the mean and the standard deviation of the first two samples
    are 2 and 1. *)
Theorem cap_data_inspects_one_more :
  cap_data draws_one nine_samples 7 2
  = Ok (repeat 0x1.d482f86c40c43p+2%float 7 ++ nine_samples
        ++ repeat 7%float 7)
  /\ claimed_cap_data draws_one nine_samples 7 2
     = Ok (repeat 3%float 7 ++ nine_samples ++ repeat 7%float 7)
  /\ np_median (py_slice_to nine_samples 3) = 3%float
  /\ np_mean (py_slice_to nine_samples 2) = 2%float.
Proof. repeat split. Qed.

(** Whatever the segment finder and the merge pass are: when the locator
    finds no step, the result holds the bounds 0 and [N] of one plateau and
    the sum of the data as its height. *)
Lemma find_and_analyse_steps_no_steps {F : Type} {SF : Scalar F}
      (get_contiguous_segments : list bool -> Z -> Z -> Z -> list segment)
      (_delete_close_center :
         list segment -> list bool -> Z -> Z -> bool
         -> list segment * list bool)
      (window_type : int_type)
      (fbnl_filter : FBNLFilterResult.t F) (switch_accept : bool)
      (step_size_threshold : option (threshold_policy F)) (found : Found.t)
      (min_dwell_time : F) :
  int_truediv window_type (FBNLFilterResult.window fbnl_filter)
              (FBNLFilterResult.resolution fbnl_filter)
  = Ok min_dwell_time ->
  fst (find_steps get_contiguous_segments _delete_close_center
                  [FBNLFilterResult.step_mass fbnl_filter] 0%nat
                  (fdiv (of_Z 2) (of_Z 3)) None
                  (Some (FBNLFilterResult.window fbnl_filter)) None None
                  switch_accept)
  = Ok found ->
  Found.number found = 0 ->
  exists res steps,
    find_and_analyse_steps get_contiguous_segments _delete_close_center
                           window_type fbnl_filter None None switch_accept
                           step_size_threshold
    = Ok res
    /\ StepFinderResult.steps_pre res = Stepless steps
    /\ StepFinderResult.steps res = Stepless steps
    /\ NoSteps.number steps = 0
    /\ NoSteps.plateaus steps = [0; len (FBNLFilterResult.data fbnl_filter)]
    /\ NoSteps.plateau_heights steps
       = np_sum (FBNLFilterResult.data fbnl_filter).
Proof.
  intros Hd Hf Hn. unfold find_and_analyse_steps.
  cbn [bind Heap.alloc length app]. rewrite Hd. cbn [bind].
  rewrite Hf. cbn [bind]. rewrite Hn. cbn [Z.ltb Z.compare].
  eexists. eexists. split; [reflexivity|]. repeat split.
Qed.

(** C6, the failing input.  On a flat signal the filter finds no step mass
    and the locator no step; the result has [number = 0] and one plateau from
    0 to 10, but the height of the plateau is 20, the sum of the data, while
    the mean of the data over the plateau is 2. *)
Theorem find_and_analyse_steps_flat_sum :
  exists fbnl_filter res steps,
    filter_fbnl reciprocal_power draws_one flat_signal 1000%float 2 None None
                true
    = Ok fbnl_filter
    /\ SpecModel.find_and_analyse_steps python_int fbnl_filter None None true
                                        None
       = Ok res
    /\ StepFinderResult.steps res = Stepless steps
    /\ NoSteps.number steps = 0
    /\ NoSteps.plateaus steps = [0; 10]
    /\ NoSteps.plateau_heights steps = 20%float
    /\ np_mean (py_slice flat_signal 0 10) = 2%float.
Proof.
  eexists. eexists. eexists.
  split; [vm_compute; reflexivity|].
  split; [vm_compute; reflexivity|].
  repeat split.
Qed.

(* ================================================================== *)
(** * Properties: the step locator *)
(* ================================================================== *)

Section LocatorFacts.

Context {F : Type} {SF : Scalar F}.

Variable get_contiguous_segments : list bool -> Z -> Z -> Z -> list segment.
Variable _delete_close_center :
  list segment -> list bool -> Z -> Z -> bool -> list segment * list bool.

Lemma heap_read_alloc (h : Heap.t F) (a : list F) :
  Heap.read (snd (Heap.alloc h a)) (fst (Heap.alloc h a)) = Ok a.
Proof.
  unfold Heap.read, Heap.alloc. cbn [fst snd].
  rewrite nth_error_app2 by lia. now rewrite Nat.sub_diag.
Qed.

(** What [find_steps] does to the heap: it adds the copy with its NaN
    entries overwritten, and reads it. *)
Lemma find_steps_heap (h : Heap.t F) (r : Heap.ref) (a : list F) (y_c : F)
      (max_step_width min_step_spacing H L : option Z) (switch_accept : bool) :
  Heap.read h r = Ok a ->
  find_steps get_contiguous_segments _delete_close_center h r y_c
             max_step_width min_step_spacing H L switch_accept
  = (find_steps_on get_contiguous_segments _delete_close_center
                   (nan_to_zero a) y_c max_step_width min_step_spacing H L
                   switch_accept,
     h ++ [nan_to_zero a]).
Proof.
  intros Hr. unfold find_steps. rewrite Hr.
  unfold Heap.alloc, Heap.update, Heap.write, Heap.read.
  rewrite nth_error_app2 by lia. rewrite Nat.sub_diag. cbn [nth_error].
  assert (E : replace_nth (length h) (nan_to_zero a) (h ++ [a])
              = h ++ [nan_to_zero a]).
  { clear. induction h as [|x t IH]; simpl; [reflexivity|]. now rewrite IH. }
  rewrite E, nth_error_app2 by lia. rewrite Nat.sub_diag. reflexivity.
Qed.

Lemma step_indices_each (step_mass : list F) (bins : list segment)
      (indices : list Z) :
  step_indices step_mass bins = Ok indices ->
  Forall2 (fun bin idx => step_index step_mass bin = Ok idx) bins indices.
Proof.
  revert indices. induction bins as [|bin rest IH]; intros indices H.
  - simpl in H. injection H as <-. constructor.
  - simpl in H.
    destruct (step_index step_mass bin) as [i|e] eqn:E1; cbn [bind] in H;
      [|discriminate].
    destruct (step_indices step_mass rest) as [others|e] eqn:E2;
      cbn [bind] in H; [|discriminate].
    injection H as <-. constructor; [exact E1|]. now apply IH.
Qed.

(** The index of a step, from the code of the loop body: the centre of mass
    of the indices [start .. stop-1] with the values of the step mass as
    weights, rounded and clamped into [[start, stop-1]]. *)
Lemma step_index_center_of_mass (step_mass : list F) (start stop idx : Z) :
  step_index step_mass (start, stop) = Ok idx ->
  let weights := py_slice step_mass start stop in
  let moments :=
    zip_with (fun i w => fmul (of_Z i) w) (np_arange start stop) weights in
  exists c,
    feqb (np_sum weights) fzero = false
    /\ rint (fdiv (np_sum moments) (np_sum weights)) = Some c
    /\ idx = Z.min (stop - 1) (Z.max start c).
Proof.
  intros H weights moments. unfold step_index, np_average in H.
  fold weights in H.
  destruct (negb (Nat.eqb (length (np_arange start stop)) (length weights)));
    cbn [bind] in H; [discriminate|].
  destruct (feqb (np_sum weights) fzero) eqn:E; cbn [bind] in H;
    [discriminate|].
  fold moments in H. unfold int_round in H.
  destruct (rint (fdiv (np_sum moments) (np_sum weights))) as [c|] eqn:Er.
  - cbn [bind] in H. injection H as <-. exists c. auto.
  - destruct (isnan _); discriminate.
Qed.

(** C2, as amended.  For every final bin [(start, stop)] that [find_steps]
    returns, the index of the step is the centre of mass of the indices
    [start .. stop-1] with the values of the step mass itself as weights
    (signed, NaN replaced by 0; not their absolute values), rounded to the
    nearest integer and clamped into [[start, stop-1]]. *)
Theorem find_steps_center_of_mass (h : Heap.t F) (r : Heap.ref) (a : list F)
        (y_c : F) (max_step_width min_step_spacing H L : option Z)
        (switch_accept : bool) (found : Found.t) :
  Heap.read h r = Ok a ->
  fst (find_steps get_contiguous_segments _delete_close_center h r y_c
                  max_step_width min_step_spacing H L switch_accept)
  = Ok found ->
  length (Found.indices found) = length (Found.step_bounds found)
  /\ forall (k : nat) (start stop idx : Z),
       nth_error (Found.step_bounds found) k = Some (start, stop) ->
       nth_error (Found.indices found) k = Some idx ->
       let weights := py_slice (nan_to_zero a) start stop in
       let moments :=
         zip_with (fun i w => fmul (of_Z i) w) (np_arange start stop) weights in
       exists c,
         feqb (np_sum weights) fzero = false
         /\ rint (fdiv (np_sum moments) (np_sum weights)) = Some c
         /\ idx = Z.min (stop - 1) (Z.max start c).
Proof.
  intros Hr Hf. erewrite find_steps_heap in Hf by exact Hr.
  cbn [fst] in Hf. unfold find_steps_on in Hf.
  destruct (_delete_close_center _ _ _ _ _) as [bins direction].
  destruct (step_indices (nan_to_zero a) bins) as [indices|e] eqn:E;
    cbn [bind] in Hf; [|discriminate].
  injection Hf as <-. cbn [Found.indices Found.step_bounds].
  apply step_indices_each in E.
  split; [symmetry; eapply Forall2_length; exact E|].
  intros k start stop idx Hb Hi.
  apply step_index_center_of_mass.
  clear -E Hb Hi. revert k Hb Hi.
  induction E as [|bin i bins indices Hbin _ IH]; intros [|k] Hb Hi;
    simpl in Hb, Hi; try discriminate.
  - congruence.
  - eapply IH; eassumption.
Qed.

End LocatorFacts.

(** ** The locator on binary64 numbers *)

(** C2, counterexample.  The merge pass fuses the two runs into the bin
    [(10, 14)].  With the signed step mass as weights the centre of mass is
    12.625 and the step index 13; with the weights [|step_mass|] it would be
    12.0625 and 12. *)
Lemma find_steps_signed_weights :
  exists found,
    fst (SpecModel.find_steps [mixed_mass] 0%nat 2%float None (Some 5) None
                              None true)
    = Ok found
    /\ Found.step_bounds found = [(10, 14)]
    /\ Found.indices found = [13]
    /\ claimed_step_index (nan_to_zero mixed_mass) (10, 14) = Ok 12.
Proof.
  eexists. split; [vm_compute; reflexivity|]. repeat split.
Qed.

Lemma find_steps_center_of_mass_witness :
  Heap.read [mixed_mass] 0%nat = Ok mixed_mass
  /\ exists found,
       fst (SpecModel.find_steps [mixed_mass] 0%nat 2%float None (Some 5) None
                                 None true)
       = Ok found
       /\ length (Found.indices found) = length (Found.step_bounds found).
Proof.
  split; [reflexivity|].
  eexists. split; [vm_compute; reflexivity|].
  refine (proj1 (find_steps_center_of_mass
                   SpecModel.get_contiguous_segments
                   SpecModel._delete_close_center
                   [mixed_mass] 0%nat 2%float None (Some 5) None None true
                   (a := mixed_mass) _ _)).
  - reflexivity.
  - vm_compute. reflexivity.
Defined.

Lemma ltb_zero_asym (y : float) :
  (0 <? y)%float = true -> (y <? 0)%float = false.
Proof.
  rewrite !FloatAxioms.ltb_spec.
  change (Prim2SF 0%float) with (S754_zero false).
  destruct (Prim2SF y) as [s|s| |s m e]; try destruct s; cbn; congruence.
Qed.

Lemma ltb_zero_opp (y : float) :
  (0 <? y)%float = true -> (0 <? - y)%float = false.
Proof.
  rewrite !FloatAxioms.ltb_spec, FloatAxioms.opp_spec.
  change (Prim2SF 0%float) with (S754_zero false).
  destruct (Prim2SF y) as [s|s| |s m e]; try destruct s; cbn; congruence.
Qed.

(** C10.  [find_steps] leaves the array of its argument, and every other
    array of the caller, as it was: what it thresholds and weighs is a copy
    that it adds to the heap, in which every NaN entry is 0.  For a threshold
    [y_c > 0] such an entry is neither above [y_c] nor below [-y_c], and its
    weight in a centre of mass is 0. *)
Theorem find_steps_keeps_step_mass
        (get_contiguous_segments : list bool -> Z -> Z -> Z -> list segment)
        (_delete_close_center :
           list segment -> list bool -> Z -> Z -> bool
           -> list segment * list bool)
        (h : Heap.t float) (r : Heap.ref) (a : list float) (y_c : float)
        (max_step_width min_step_spacing H L : option Z)
        (switch_accept : bool) :
  Heap.read h r = Ok a ->
  let out := find_steps get_contiguous_segments _delete_close_center h r y_c
                        max_step_width min_step_spacing H L switch_accept in
  let work := nan_to_zero a in
  Heap.read (snd out) r = Ok a
  /\ firstn (length h) (snd out) = h
  /\ snd out = h ++ [work]
  /\ fst out = find_steps_on get_contiguous_segments _delete_close_center
                             work y_c max_step_width min_step_spacing H L
                             switch_accept
  /\ forall (i : nat) (v : float),
       nth_error a i = Some v -> PrimFloat.is_nan v = true ->
       nth_error work i = Some 0%float
       /\ ((0 <? y_c)%float = true ->
           nth_error (above_threshold work y_c) i = Some false
           /\ nth_error (below_threshold work y_c) i = Some false).
Proof.
  intros Hr out work. subst out.
  erewrite find_steps_heap by exact Hr. cbn [fst snd]. fold work.
  split.
  { unfold Heap.read in *. rewrite nth_error_app1; [exact Hr|].
    apply nth_error_Some. destruct (nth_error h r); congruence. }
  split; [now rewrite firstn_app, Nat.sub_diag, firstn_all, app_nil_r|].
  split; [reflexivity|]. split; [reflexivity|].
  intros i v Hv Hnan.
  assert (Hw : nth_error work i = Some 0%float).
  { unfold work, nan_to_zero. rewrite (nth_error_map _ _ _), Hv.
    cbn [option_map]. change (isnan v) with (PrimFloat.is_nan v).
    now rewrite Hnan. }
  split; [exact Hw|].
  intros Hy. unfold above_threshold, below_threshold.
  rewrite !(nth_error_map _ _ _), Hw. cbn [option_map].
  split; f_equal.
  - apply ltb_zero_asym, Hy.
  - change (fltb 0%float (fneg y_c)) with (0 <? - y_c)%float.
    apply ltb_zero_opp, Hy.
Qed.

Lemma find_steps_keeps_step_mass_witness :
  Heap.read [mixed_mass] 0%nat = Ok mixed_mass
  /\ Heap.read
       (snd (SpecModel.find_steps [mixed_mass] 0%nat 2%float None (Some 5)
                                  None None true)) 0%nat
     = Ok mixed_mass.
Proof.
  split; [reflexivity|].
  refine (proj1 (find_steps_keeps_step_mass
                   SpecModel.get_contiguous_segments
                   SpecModel._delete_close_center
                   [mixed_mass] 0%nat 2%float None (Some 5) None None true
                   (a := mixed_mass) _)).
  reflexivity.
Defined.

(* ================================================================== *)
(** * Properties: the filter *)
(* ================================================================== *)

Section SliceLengths.

Context {A : Type}.

Lemma clip_index_range (n i : Z) : 0 <= n -> 0 <= clip_index n i <= n.
Proof. intros H. unfold clip_index. destruct (i <? 0) eqn:E; lia. Qed.

Lemma length_py_slice (l : list A) (lo hi : Z) :
  length (py_slice l lo hi)
  = Z.to_nat (clip_index (len l) hi - clip_index (len l) lo).
Proof.
  unfold py_slice. cbv zeta.
  pose proof (clip_index_range lo (len_nonneg l)).
  pose proof (clip_index_range hi (len_nonneg l)).
  rewrite length_firstn, length_skipn. unfold len in *. lia.
Qed.

Lemma nth_error_py_slice (l : list A) (lo hi : Z) (i : nat) (x : A) :
  nth_error (py_slice l lo hi) i = Some x ->
  nth_error l (Z.to_nat (clip_index (len l) lo) + i) = Some x.
Proof.
  unfold py_slice. cbv zeta. rewrite nth_error_firstn.
  destruct (i <? _)%nat; [|discriminate].
  now rewrite nth_error_skipn.
Qed.

(** Two arrays of one length, sliced alike: where the slice of the first has
    an entry, the slice of the second has the entry of the same position. *)
Lemma nth_error_py_slice_alike {B : Type} (l : list A) (l' : list B)
      (lo hi : Z) (i : nat) (x : A) :
  length l' = length l ->
  nth_error (py_slice l lo hi) i = Some x ->
  nth_error (py_slice l' lo hi) i
  = nth_error l' (Z.to_nat (clip_index (len l) lo) + i).
Proof.
  intros Hlen. unfold py_slice. cbv zeta.
  replace (len l') with (len l) by (unfold len; now rewrite Hlen).
  rewrite !nth_error_firstn.
  destruct (i <? _)%nat; [|discriminate].
  intros _. now rewrite nth_error_skipn.
Qed.

Lemma length_np_set_slice (a v a' : list A) (lo hi : Z) :
  np_set_slice a lo hi v = Ok a' -> length a' = length a.
Proof.
  unfold np_set_slice. cbv zeta.
  pose proof (clip_index_range lo (len_nonneg a)) as Hs.
  pose proof (clip_index_range hi (len_nonneg a)) as He.
  set (s := clip_index (len a) lo) in *.
  set (e := Z.max s (clip_index (len a) hi)).
  assert (Hpre : length (firstn (Z.to_nat s) a) = Z.to_nat s)
    by (rewrite length_firstn; unfold len in *; lia).
  assert (Hpost : length (skipn (Z.to_nat e) a) = (length a - Z.to_nat e)%nat)
    by (now rewrite length_skipn).
  assert (Hse : (Z.to_nat s + Z.to_nat (e - s) + (length a - Z.to_nat e)
                 = length a)%nat) by (unfold len in *; lia).
  destruct (Nat.eqb (length v) (Z.to_nat (e - s))) eqn:E.
  - apply Nat.eqb_eq in E. intros [= <-].
    rewrite !length_app, Hpre, Hpost, E. lia.
  - destruct v as [|x [|y t]]; try discriminate. intros [= <-].
    rewrite !length_app, repeat_length, Hpre, Hpost. lia.
Qed.

Lemma length_py_set (l l' : list A) (i : Z) (v : A) :
  py_set l i v = Ok l' -> length l' = length l.
Proof.
  unfold py_set. cbv zeta.
  destruct (_ || _); [discriminate|]. intros [= <-].
  apply length_replace_nth.
Qed.

End SliceLengths.

Section FilterFacts.

Context {F : Type} {SF : Scalar F}.

Variable np_power : F -> F -> F.

Lemma length_np_full (n : Z) (v : F) : length (np_full n v) = Z.to_nat n.
Proof. apply repeat_length. Qed.



Lemma length_iterative_variance (data sf sb xf xb : list F)
      (start stop window_var : Z) :
  length (fst (_iterative_variance data sf sb xf xb start stop window_var))
  = length sf
  /\ length (snd (_iterative_variance data sf sb xf xb start stop window_var))
     = length sb.
Proof.
  unfold _iterative_variance.
  generalize (np_arange start stop) as idx. intros idx.
  revert sf sb. induction idx as [|i idx IH]; intros sf sb; [now split|].
  cbn [fold_left].
  match goal with
  | |- context [fold_left ?f idx (replace_nth ?k ?u sf, replace_nth ?k ?v sb)] =>
      destruct (IH (replace_nth k u sf) (replace_nth k v sb)) as [H1 H2]
  end.
  rewrite !length_replace_nth in *. now split.
Qed.

Lemma _filter_fbnl_well_formed (data : list F) (resolution : F) (window : Z)
      (window_var : option Z)
      (p : option (py_number F)) (r : FBNLCore.t F) :
  _filter_fbnl np_power data resolution window window_var p = Ok r ->
  well_formed np_power (length data) r
  /\ FBNLCore.data r = data
  /\ FBNLCore.window_var r = or_default window_var window.
Proof.
  unfold _filter_fbnl. cbv zeta. intros H.
  destruct (np_set_slice (np_full (len data) fnan) window _ _) as [xb|e] eqn:Exb;
    cbn [bind] in H; [|discriminate].
  destruct (np_set_slice (np_full (len data) fnan) window _ _) as [xf|e] eqn:Exf
    in H; cbn [bind] in H; [|discriminate].
  destruct (py_set _ _ _) as [sf0|e] eqn:Esf in H; cbn [bind] in H;
    [|discriminate].
  destruct (py_set _ _ _) as [sb0|e] eqn:Esb in H; cbn [bind] in H;
    [|discriminate].
  destruct (_iterative_variance data sf0 sb0 xf xb _ _ _) as [sf sb] eqn:Eiv.
  injection H as <-.
  assert (Hfull : length (np_full (len data) (@fnan F SF)) = length data)
    by (rewrite length_np_full; unfold len; lia).
  apply length_np_set_slice in Exb, Exf. apply length_py_set in Esf, Esb.
  pose proof (length_iterative_variance data sf0 sb0 xf xb
                (window + or_default window_var window - 1 + 1)
                (len data - (window + or_default window_var window - 1))
                (or_default window_var window)) as [Hsf Hsb].
  rewrite Eiv in Hsf, Hsb. cbn [fst snd] in Hsf, Hsb.
  assert (Lsf : length sf = length data) by congruence.
  assert (Lsb : length sb = length data) by congruence.
  assert (Lxf : length xf = length data) by congruence.
  assert (Lxb : length xb = length data) by congruence.
  split; [|split; reflexivity].
  unfold well_formed.
  cbn [FBNLCore.data FBNLCore.data_filtered FBNLCore.sf FBNLCore.sb
       FBNLCore.f FBNLCore.b FBNLCore.xf FBNLCore.xb FBNLCore.p].
  repeat (rewrite length_zip_with || rewrite length_map).
  rewrite Lsf, Lsb, Lxf, Lxb, !Nat.min_id.
  repeat (split; [reflexivity|]).
  intros i s t.
  set (sfn := map (fun v => fdiv v (of_Z (or_default window_var window))) sf).
  set (sbn := map (fun v => fdiv v (of_Z (or_default window_var window))) sb).
  intros Hs Ht.
  repeat (rewrite nth_error_zip_with || rewrite (nth_error_map _ _ _)).
  rewrite Hs, Ht. cbn [option_map]. now split.
Qed.

Lemma trimmed_well_formed (n : nat) (lo hi : Z) (r : FBNLCore.t F) :
  well_formed np_power n r ->
  well_formed np_power
    (Z.to_nat (clip_index (Z.of_nat n) hi - clip_index (Z.of_nat n) lo))
              (trimmed lo hi r).
Proof.
  intros (Hd & Hdf & Hsf & Hsb & Hf & Hb & Hxf & Hxb & Hw).
  unfold well_formed, trimmed.
  cbn [FBNLCore.data FBNLCore.data_filtered FBNLCore.sf FBNLCore.sb
       FBNLCore.f FBNLCore.b FBNLCore.xf FBNLCore.xb FBNLCore.p].
  rewrite !length_py_slice. unfold len.
  rewrite Hd, Hdf, Hsf, Hsb, Hf, Hb, Hxf, Hxb.
  repeat (split; [reflexivity|]).
  intros i s t Hs Ht.
  rewrite (@nth_error_py_slice_alike _ _ (FBNLCore.sf r) (FBNLCore.f r)
             lo hi i s) by (exact Hs || congruence).
  rewrite (@nth_error_py_slice_alike _ _ (FBNLCore.sf r) (FBNLCore.b r)
             lo hi i s) by (exact Hs || congruence).
  apply nth_error_py_slice in Hs, Ht.
  replace (len (FBNLCore.sb r)) with (len (FBNLCore.sf r)) in Ht
    by (unfold len; congruence).
  now apply Hw.
Qed.

Lemma _filter_fbnl_capped_unfold (g : nat -> F) (data : list F)
      (resolution : F) (window : Z) (window_var : option Z)
      (p : option (py_number F)) :
  _filter_fbnl_capped np_power g data resolution window window_var p
  = let wv := or_default window_var window in
    let loss := window + wv - 1 in
    let* _data := cap_data g data loss ((window + 1) / 2) in
    let* r := _filter_fbnl np_power _data resolution window (Some wv) p in
    Ok (trimmed loss (- loss) r).
Proof. reflexivity. Qed.

Lemma _filter_fbnl_capped_well_formed (g : nat -> F) (data : list F)
      (resolution : F) (window : Z) (window_var : option Z)
      (p : option (py_number F))
      (r : FBNLCore.t F) :
  _filter_fbnl_capped np_power g data resolution window window_var p = Ok r ->
  exists n, well_formed np_power n r.
Proof.
  rewrite _filter_fbnl_capped_unfold. cbv zeta. intros H.
  destruct (cap_data g data _ _) as [d|e]; cbn [bind] in H; [|discriminate].
  destruct (_filter_fbnl np_power d resolution window _ p) as [r0|e] eqn:E;
    cbn [bind] in H; [|discriminate].
  injection H as <-.
  apply _filter_fbnl_well_formed in E. destruct E as (Hw & _).
  eexists. apply trimmed_well_formed. exact Hw.
Qed.

(** The weights of every result of the filter, capped or not, are the
    normalised weights of its variances. *)
Lemma filter_fbnl_weights (g : nat -> F) (data : list F) (resolution : F)
      (window : Z) (window_var : option Z)
      (p : option (py_number F)) (cap : bool)
      (fr : FBNLFilterResult.t F) :
  filter_fbnl np_power g data resolution window window_var p cap = Ok fr ->
  forall (i : nat) (s t : F),
    nth_error (FBNLFilterResult.sf fr) i = Some s ->
    nth_error (FBNLFilterResult.sb fr) i = Some t ->
    nth_error (FBNLFilterResult.f fr) i
    = Some (fst (normalised_weights np_power (FBNLFilterResult.p fr) s t))
    /\ nth_error (FBNLFilterResult.b fr) i
       = Some (snd (normalised_weights np_power (FBNLFilterResult.p fr) s t)).
Proof.
  unfold filter_fbnl. intros H.
  destruct ((if cap then _filter_fbnl_capped np_power g
             else _filter_fbnl np_power)
              data resolution window window_var p) as [r|e] eqn:E;
    cbn [bind] in H; [|discriminate].
  injection H as <-.
  cbn [FBNLFilterResult.sf FBNLFilterResult.sb FBNLFilterResult.f
       FBNLFilterResult.b FBNLFilterResult.p].
  assert (Hw : exists n, well_formed np_power n r).
  { destruct cap.
    - eapply _filter_fbnl_capped_well_formed; exact E.
    - eexists. eapply _filter_fbnl_well_formed; exact E. }
  destruct Hw as (n & Hw). apply Hw.
Qed.



Lemma len_np_full (n : Z) (v : F) : 0 <= n -> len (np_full n v) = n.
Proof. intros H. unfold len. rewrite length_np_full. lia. Qed.

Lemma or_default_some (v d : Z) : v <> 0 -> or_default (Some v) d = v.
Proof.
  intros H. unfold or_default. now rewrite (proj2 (Z.eqb_neq _ _) H).
Qed.



Lemma cap_data_returns (g : nat -> F) (data : list F)
      (cap_length inspect_length : Z) :
  0 <= cap_length ->
  exists left right,
    cap_data g data cap_length inspect_length = Ok (left ++ data ++ right)
    /\ length left = Z.to_nat cap_length
    /\ length right = Z.to_nat cap_length.
Proof.
  intros H. unfold cap_data, np_random_normal. cbv zeta.
  rewrite (proj2 (Z.ltb_ge _ _) H). cbn [bind].
  eexists. eexists. split; [reflexivity|].
  now rewrite !length_map, !length_seq.
Qed.




End FilterFacts.

(** ** The weights in exact arithmetic *)

Lemma ediv_some (a b : R) :
  b <> 0%R -> Exact.ediv (Some a) (Some b) = Some (a / b)%R.
Proof.
  intros H. unfold Exact.ediv.
  destruct (Req_dec_T b 0); [contradiction|reflexivity].
Qed.

(** The power of exact arithmetic is positive on a positive base. *)
Lemma exact_power_positive : positive_power exact_power.
Proof.
  intros x y Hx. unfold exact_power.
  destruct (Rlt_dec 0 x) as [_|H]; [|contradiction].
  exists (Rpower x y). split; [reflexivity|]. unfold Rpower. apply exp_pos.
Qed.

Lemma negated_defined (p : py_number Exact.ereal) :
  isnan (negated p) = false -> exists e : R, negated p = Some e.
Proof.
  destruct p as [z|[v|]]; cbn; intros H; eauto. discriminate.
Qed.

(** In exact arithmetic the normalised weights of two positive variances are
    defined and sum to one. *)
Lemma normalised_weights_sum
      (power : Exact.ereal -> Exact.ereal -> Exact.ereal)
      (p : py_number Exact.ereal) (x y : R) :
  positive_power power ->
  isnan (negated p) = false ->
  (0 < x)%R -> (0 < y)%R ->
  exists u v,
    normalised_weights power p (Some x) (Some y) = (Some u, Some v)
    /\ (u + v = 1)%R.
Proof.
  intros Hpow Hp Hx Hy. unfold normalised_weights. cbv zeta.
  destruct (negated_defined p Hp) as (e & ->).
  destruct (Hpow x e Hx) as (f & Ef & Hf).
  destruct (Hpow y e Hy) as (b & Eb & Hb).
  rewrite Ef, Eb.
  change (fadd (Some f) (Some b)) with (@Some R (f + b)%R).
  change (@fdiv Exact.ereal _) with Exact.ediv.
  rewrite !ediv_some by lra.
  exists (f / (f + b))%R, (b / (f + b))%R. split; [reflexivity|].
  field. lra.
Qed.

(** ** The weights on binary64 numbers *)

Lemma SFeqb_refl_not_nan (x : SpecFloat.spec_float) :
  x <> SpecFloat.S754_nan -> SpecFloat.SFeqb x x = true.
Proof.
  intros H. destruct x as [s|s| |s m e]; try congruence;
    try (destruct s; reflexivity).
  unfold SpecFloat.SFeqb, SpecFloat.SFcompare.
  destruct s; rewrite Z.compare_refl, Pos.compare_cont_refl; reflexivity.
Qed.

Lemma is_nan_Prim2SF (x : float) :
  PrimFloat.is_nan x = true <-> Prim2SF x = SpecFloat.S754_nan.
Proof.
  unfold PrimFloat.is_nan. rewrite FloatAxioms.eqb_spec. split.
  - intros H. destruct (Prim2SF x) as [s|s| |s m e] eqn:E; try reflexivity;
      rewrite SFeqb_refl_not_nan in H by discriminate; discriminate.
  - intros ->. reflexivity.
Qed.

Lemma is_nan_mul_r (x y : float) :
  PrimFloat.is_nan y = true -> PrimFloat.is_nan (x * y) = true.
Proof.
  rewrite !is_nan_Prim2SF, FloatAxioms.mul_spec. intros ->.
  now destruct (Prim2SF x).
Qed.

Lemma is_nan_add_l (x y : float) :
  PrimFloat.is_nan x = true -> PrimFloat.is_nan (x + y) = true.
Proof.
  rewrite !is_nan_Prim2SF, FloatAxioms.add_spec. intros ->. reflexivity.
Qed.

Lemma is_nan_sub_l (x y : float) :
  PrimFloat.is_nan x = true -> PrimFloat.is_nan (x - y) = true.
Proof.
  rewrite !is_nan_Prim2SF, FloatAxioms.sub_spec. intros ->. reflexivity.
Qed.

Lemma is_nan_div_l (x y : float) :
  PrimFloat.is_nan x = true -> PrimFloat.is_nan (x / y) = true.
Proof.
  rewrite !is_nan_Prim2SF, FloatAxioms.div_spec. intros ->. reflexivity.
Qed.

Lemma is_nan_add_r (x y : float) :
  PrimFloat.is_nan y = true -> PrimFloat.is_nan (x + y) = true.
Proof.
  rewrite !is_nan_Prim2SF, FloatAxioms.add_spec. intros ->.
  now destruct (Prim2SF x).
Qed.

Lemma is_nan_div_r (x y : float) :
  PrimFloat.is_nan y = true -> PrimFloat.is_nan (x / y) = true.
Proof.
  rewrite !is_nan_Prim2SF, FloatAxioms.div_spec. intros ->.
  now destruct (Prim2SF x).
Qed.

Lemma is_nan_eq (x : float) : PrimFloat.is_nan x = true -> x = PrimFloat.nan.
Proof.
  intros H. apply is_nan_Prim2SF in H. apply FloatAxioms.Prim2SF_inj.
  rewrite H. reflexivity.
Qed.

(** On binary64 numbers the normalised weights of two variances of which
    one is NaN are both NaN, when the power of a NaN base is NaN. *)
Lemma normalised_weights_nan (power : float -> float -> float)
      (p : py_number float) (s t : float) :
  PrimFloat.is_nan (power PrimFloat.nan (negated p)) = true ->
  PrimFloat.is_nan s || PrimFloat.is_nan t = true ->
  PrimFloat.is_nan (fst (normalised_weights power p s t)) = true
  /\ PrimFloat.is_nan (snd (normalised_weights power p s t)) = true.
Proof.
  intros Hpow Hst. unfold normalised_weights. cbv zeta. cbn [fst snd].
  change (@fdiv float _) with PrimFloat.div.
  change (@fadd float _) with PrimFloat.add.
  assert (Htotal : PrimFloat.is_nan (power s (negated p)
                                     + power t (negated p))%float = true).
  { apply orb_true_iff in Hst. destruct Hst as [H|H];
      apply is_nan_eq in H; subst.
    - now apply is_nan_add_l.
    - now apply is_nan_add_r. }
  split; now apply is_nan_div_r.
Qed.

(** C9, as amended.  In every result of the filter, capped or not, the
    weights at an index are [f = sf^-p] and [b = sb^-p], each divided by
    their sum, for the exponent [p] of the result.  In exact arithmetic,
    with a power that is positive on positive bases and an exponent that is
    not NaN, [f + b = 1] holds at every index where both variances are
    defined and positive.  It does not hold at every index: on binary64
    numbers, at an index where a variance is NaN (the ends of the signal
    when they are not capped), both weights are NaN, the power of a NaN
    base being NaN. *)
Theorem filter_fbnl_weights_sum :
  (forall (np_power : Exact.ereal -> Exact.ereal -> Exact.ereal)
          (g : nat -> Exact.ereal) (data : list Exact.ereal)
          (resolution : Exact.ereal) (window : Z) (window_var : option Z)
          (p : option (py_number Exact.ereal)) (cap : bool)
          (fr : FBNLFilterResult.t Exact.ereal),
      positive_power np_power ->
      filter_fbnl np_power g data resolution window window_var p cap
      = Ok fr ->
      isnan (negated (FBNLFilterResult.p fr)) = false ->
      forall (i : nat) (x y : R),
        nth_error (FBNLFilterResult.sf fr) i = Some (Some x) ->
        nth_error (FBNLFilterResult.sb fr) i = Some (Some y) ->
        (0 < x)%R -> (0 < y)%R ->
        exists u v,
          nth_error (FBNLFilterResult.f fr) i = Some (Some u)
          /\ nth_error (FBNLFilterResult.b fr) i = Some (Some v)
          /\ normalised_weights np_power (FBNLFilterResult.p fr)
                                (Some x) (Some y)
             = (Some u, Some v)
          /\ (u + v = 1)%R)
  /\ (forall (np_power : float -> float -> float)
             (g : nat -> float) (data : list float) (resolution : float)
             (window : Z) (window_var : option Z)
             (p : option (py_number float)) (cap : bool)
             (fr : FBNLFilterResult.t float),
         filter_fbnl np_power g data resolution window window_var p cap
         = Ok fr ->
         PrimFloat.is_nan
           (np_power PrimFloat.nan (negated (FBNLFilterResult.p fr))) = true ->
         forall (i : nat) (s t : float),
           nth_error (FBNLFilterResult.sf fr) i = Some s ->
           nth_error (FBNLFilterResult.sb fr) i = Some t ->
           PrimFloat.is_nan s || PrimFloat.is_nan t = true ->
           exists u v,
             nth_error (FBNLFilterResult.f fr) i = Some u
             /\ nth_error (FBNLFilterResult.b fr) i = Some v
             /\ (u, v) = normalised_weights np_power (FBNLFilterResult.p fr)
                                            s t
             /\ PrimFloat.is_nan u = true
             /\ PrimFloat.is_nan v = true).
Proof.
  split.
  - intros np_power g data resolution window window_var p cap fr Hpow H Hp
           i x y Hsf Hsb Hx Hy.
    destruct (filter_fbnl_weights _ _ _ _ _ _ _ _ H _ Hsf Hsb) as [Hf Hb].
    destruct (normalised_weights_sum (FBNLFilterResult.p fr) Hpow Hp Hx Hy)
      as (u & v & E & Hsum).
    rewrite E in Hf, Hb. exists u, v. auto.
  - intros np_power g data resolution window window_var p cap fr H Hpow
           i s t Hsf Hsb Hst.
    destruct (filter_fbnl_weights _ _ _ _ _ _ _ _ H _ Hsf Hsb) as [Hf Hb].
    destruct (normalised_weights_nan np_power (FBNLFilterResult.p fr) s t
                                     Hpow Hst) as (Hu & Hv).
    eexists. eexists. split; [exact Hf|]. split; [exact Hb|].
    split; [now destruct (normalised_weights _ _ _ _)|]. now split.
Qed.

(** ** The filter on binary64 numbers *)



(** C9, counterexample.  On a flat signal both variances are zero, the
    weights are [inf / inf], and [f + b] is NaN at every index; without caps
    the weights are NaN at the ends of every signal. *)
Lemma filter_fbnl_weights_nan :
  (exists fr,
     filter_fbnl reciprocal_power draws_one flat_signal 1000%float 2
                 None None true = Ok fr
     /\ nth_error (FBNLFilterResult.sf fr) 0 = Some 0%float
     /\ PrimFloat.is_nan (nth 0 (FBNLFilterResult.f fr) 0
                          + nth 0 (FBNLFilterResult.b fr) 0)%float = true
     /\ (nth 0 (FBNLFilterResult.f fr) 0 + nth 0 (FBNLFilterResult.b fr) 0
         =? 1)%float = false)
  /\ (exists fr,
        filter_fbnl reciprocal_power draws_one seven_samples 1000%float 2
                    None None false
        = Ok fr
        /\ (nth 0 (FBNLFilterResult.f fr) 0 + nth 0 (FBNLFilterResult.b fr) 0
            =? 1)%float = false).
Proof.
  split.
  - eexists. split; [vm_compute; reflexivity|]. repeat split.
  - eexists. split; [vm_compute; reflexivity|]. reflexivity.
Qed.

Lemma three_exact_core :
  exists r x y,
    _filter_fbnl exact_power three_exact (Some 1%R) 1 None None = Ok r
    /\ nth_error (FBNLCore.sf r) 1 = Some (Some x)
    /\ nth_error (FBNLCore.sb r) 1 = Some (Some y)
    /\ FBNLCore.p r = PyInt 1
    /\ (0 < x)%R /\ (0 < y)%R.
Proof.
  eexists. eexists. eexists. split.
  - cbv -[Rplus Rminus Rmult Rdiv Rinv IZR Req_dec_T Rlt_dec sqrt Rabs up
          Rpower].
    destruct (Req_dec_T 1 0) as [E|_]; [lra|]. reflexivity.
  - cbv -[Rplus Rminus Rmult Rdiv Rinv IZR Req_dec_T Rlt_dec sqrt Rabs up
          Rpower].
    destruct (Req_dec_T 1 0) as [E|_]; [lra|].
    split; [reflexivity|]. split; [reflexivity|]. split; [reflexivity|].
    split; lra.
Defined.

Lemma filter_fbnl_weights_sum_witness :
  (exists fr u v,
     filter_fbnl exact_power (fun _ => Some 0%R) three_exact (Some 1%R) 1
                 None None false
     = Ok fr
     /\ nth_error (FBNLFilterResult.f fr) 1 = Some (Some u)
     /\ nth_error (FBNLFilterResult.b fr) 1 = Some (Some v)
     /\ (u + v = 1)%R)
  /\ (exists fr u v,
        filter_fbnl reciprocal_power draws_one seven_samples 1000%float 2
                    None None false
        = Ok fr
        /\ nth_error (FBNLFilterResult.f fr) 0 = Some u
        /\ nth_error (FBNLFilterResult.b fr) 0 = Some v
        /\ PrimFloat.is_nan u = true
        /\ PrimFloat.is_nan v = true).
Proof.
  split.
  - destruct three_exact_core as (r & x & y & E & Hsf & Hsb & Hp & Hx & Hy).
    assert (H : exists fr,
               filter_fbnl exact_power (fun _ => Some 0%R) three_exact
                           (Some 1%R) 1 None None false = Ok fr
               /\ FBNLFilterResult.sf fr = FBNLCore.sf r
               /\ FBNLFilterResult.sb fr = FBNLCore.sb r
               /\ FBNLFilterResult.p fr = FBNLCore.p r).
    { unfold filter_fbnl. rewrite E. cbn [bind]. eexists.
      split; [reflexivity|]. split; [reflexivity|]. split; reflexivity. }
    destruct H as (fr & Hfr & Esf & Esb & Ep).
    rewrite <- Esf in Hsf. rewrite <- Esb in Hsb. rewrite <- Ep in Hp.
    assert (Hnan : isnan (negated (FBNLFilterResult.p fr)) = false)
      by (rewrite Hp; reflexivity).
    destruct (proj1 filter_fbnl_weights_sum _ _ _ _ _ _ _ _ _
                    exact_power_positive Hfr Hnan _ _ _ Hsf Hsb Hx Hy)
      as (u & v & Hf & Hb & _ & Hsum).
    exists fr, u, v. auto.
  - destruct seven_uncapped as [fr|e] eqn:E;
      [|vm_compute in E; discriminate].
    assert (H : filter_fbnl reciprocal_power draws_one seven_samples
                            1000%float 2 None None false = Ok fr)
      by (rewrite <- E; vm_compute; reflexivity).
    vm_compute in E. injection E as <-.
    destruct (proj2 filter_fbnl_weights_sum _ _ _ _ _ _ _ _ _ H eq_refl
                    0%nat PrimFloat.nan PrimFloat.nan eq_refl eq_refl
                    eq_refl)
      as (u & v & Hf & Hb & _ & Hu & Hv).
    eexists. exists u, v. split; [exact H|]. auto.
Defined.

(* ================================================================== *)
(** * Properties: what the pruner keeps *)
(* ================================================================== *)

Section FuseFacts.

Context {A : Type}.

Lemma nth_error_fuse_at_lt (k m : nat) (v : A) (l : list A) :
  (m < k)%nat -> (k <= length l)%nat ->
  nth_error (fuse_at k v l) m = nth_error l m.
Proof.
  intros Hm Hk. unfold fuse_at.
  rewrite nth_error_app1 by (rewrite length_firstn; lia).
  rewrite nth_error_firstn.
  destruct (m <? k)%nat eqn:E; [reflexivity|apply Nat.ltb_ge in E; lia].
Qed.

Lemma nth_error_fuse_at_eq (k : nat) (v : A) (l : list A) :
  (k <= length l)%nat -> nth_error (fuse_at k v l) k = Some v.
Proof.
  intros H. unfold fuse_at.
  rewrite nth_error_app2 by (rewrite length_firstn; lia).
  rewrite length_firstn, Nat.min_l by lia.
  now rewrite Nat.sub_diag.
Qed.

Lemma nth_error_fuse_at_gt (k m : nat) (v : A) (l : list A) :
  (k < m)%nat -> (k <= length l)%nat ->
  nth_error (fuse_at k v l) m = nth_error l (S m).
Proof.
  intros Hm H. unfold fuse_at.
  rewrite nth_error_app2 by (rewrite length_firstn; lia).
  rewrite length_firstn, Nat.min_l by lia.
  destruct (m - k)%nat as [|j] eqn:E; [lia|]. cbn [nth_error].
  rewrite nth_error_skipn. replace (S (S k) + j)%nat with (S m) by lia.
  reflexivity.
Qed.

Lemma nth_error_differences (sub : A -> A -> A) (l : list A) (j : nat) :
  nth_error (differences sub l) j =
    match nth_error l (S j), nth_error l j with
    | Some b, Some a => Some (sub b a)
    | _, _ => None
    end.
Proof.
  unfold differences. rewrite nth_error_zip_with.
  destruct l; [destruct j|]; reflexivity.
Qed.

Lemma nth_error_removelast (l : list A) (j : nat) :
  nth_error (removelast l) j =
    if (S j <? length l)%nat then nth_error l j else None.
Proof.
  rewrite removelast_firstn_len, nth_error_firstn, <- Nat.sub_1_r.
  destruct (Nat.ltb_spec j (length l - 1));
    destruct (Nat.ltb_spec (S j) (length l)); try reflexivity; lia.
Qed.

Lemma remove_at_select (k : nat) (mask : list bool) (l : list A) :
  remove_at k (select mask l) = select (clear_kth k mask) l.
Proof.
  revert k l. induction mask as [|b m IH]; intros k l.
  - destruct k; reflexivity.
  - destruct l as [|x t].
    + destruct b; destruct k; reflexivity.
    + destruct b.
      * destruct k as [|k]; cbn [clear_kth select].
        -- reflexivity.
        -- unfold remove_at in *. cbn [firstn skipn app]. f_equal. apply IH.
      * cbn [clear_kth select]. apply IH.
Qed.

Lemma length_clear_kth (k : nat) (mask : list bool) :
  length (clear_kth k mask) = length mask.
Proof.
  revert k. induction mask as [|b m IH]; intros k; [reflexivity|].
  destruct b; [destruct k|]; cbn; auto.
Qed.

Lemma select_all (l : list A) : select (repeat true (length l)) l = l.
Proof. induction l as [|x t IH]; cbn; congruence. Qed.

Lemma hd_fuse_at (k : nat) (v d : A) (l : list A) :
  (k <= length l)%nat ->
  hd d (fuse_at k v l) = match k with O => v | S _ => hd d l end.
Proof.
  intros H. destruct k; [reflexivity|].
  destruct l; [simpl in H; lia|reflexivity].
Qed.

Lemma last_nth_error (l : list A) (d x : A) :
  nth_error l (length l - 1) = Some x -> last l d = x.
Proof.
  intros H. destruct l as [|y t] using rev_ind; [discriminate|].
  rewrite last_last. rewrite length_app in H. cbn [length] in H.
  rewrite nth_error_app2 in H by lia.
  replace (length t + 1 - 1 - length t)%nat with 0%nat in H by lia.
  cbn in H. congruence.
Qed.

End FuseFacts.

Section PruneInvariantFacts.

Context {F : Type} {SF : Scalar F}.

(** A property of the lists of the pruner that the removal of a step keeps
    holds when the loop is left. *)
Lemma prune_loop_keeps (P : Pruner.state F -> Prop) :
  (forall st, P st -> P (advance st)) ->
  (forall st, consistent st ->
              0 <= Pruner.i st < Pruner.num_steps st ->
              seg_len (left_plateau st (Z.to_nat (Pruner.i st)))
              + seg_len (right_plateau st (Z.to_nat (Pruner.i st))) <> 0 ->
              P st -> P (removed st)) ->
  forall fuel st st',
    checked st -> P st -> prune_loop fuel st = Ok st' -> P st'.
Proof.
  intros Hadv Hrem.
  induction fuel as [|fuel IH]; intros st st' Hck HP H; simpl in H.
  - congruence.
  - destruct (Pruner.i st <? Pruner.num_steps st) eqn:E.
    + apply Z.ltb_lt in E.
      destruct (prune_iter st) as [st1|e] eqn:E1; cbn [bind] in H;
        [|discriminate].
      apply (IH st1); [eapply prune_iter_checked; eassumption| |exact H].
      pose proof Hck as (Hc & Hcur & _).
      assert (Hin : 0 <= Pruner.i st < Pruner.num_steps st) by lia.
      destruct (small_at st (Z.to_nat (Pruner.i st))) eqn:Es.
      * destruct (Z.eq_dec
                    (seg_len (left_plateau st (Z.to_nat (Pruner.i st)))
                     + seg_len (right_plateau st (Z.to_nat (Pruner.i st))))
                    0) as [Ez|Ez].
        -- unfold prune_iter in E1.
           rewrite too_small_small_at, Es in E1 by assumption.
           cbn [bind] in E1.
           rewrite remove_step_empty_plateaus in E1 by assumption.
           discriminate.
        -- rewrite prune_iter_removes in E1 by assumption.
           injection E1 as <-. now apply Hadv, Hrem.
      * rewrite prune_iter_keeps in E1 by assumption.
        injection E1 as <-. now apply Hadv.
    + congruence.
Qed.

(** What [delete_small_steps] returns is the last state of its loop. *)
Lemma delete_small_steps_ends (P : Pruner.state F -> Prop)
      (steps steps' : Steps.t F) (ms : list F) :
  (forall st, P st -> P (advance st)) ->
  (forall st, consistent st ->
              0 <= Pruner.i st < Pruner.num_steps st ->
              seg_len (left_plateau st (Z.to_nat (Pruner.i st)))
              + seg_len (right_plateau st (Z.to_nat (Pruner.i st))) <> 0 ->
              P st -> P (removed st)) ->
  steps_consistent steps ms ->
  P (init_state steps ms) ->
  delete_small_steps steps ms = Ok steps' ->
  exists st,
    steps' = final_steps st /\ P st /\ consistent st
    /\ passed st (Z.to_nat (Pruner.num_steps st)).
Proof.
  intros Hadv Hrem Hc HP H.
  unfold delete_small_steps, delete_small_steps_run in H.
  destruct (prune_loop (turns (init_state steps ms)) (init_state steps ms))
    as [st|e] eqn:E; cbn [bind] in H; [|discriminate].
  injection H as <-. exists st.
  destruct (delete_small_steps_final Hc E) as (Hc' & _ & Hp).
  split; [reflexivity|]. split; [|split; assumption].
  exact (prune_loop_keeps P Hadv Hrem _ (init_state_checked Hc) HP E).
Qed.

Lemma nth_error_in_range {A : Type} (l : list A) (k : nat) (d : A) :
  (k < length l)%nat -> nth_error l k = Some (nth k l d).
Proof. intros H. now apply nth_error_nth'. Qed.

(** The removal of a step keeps the step sizes the differences of the
    plateau heights. *)
Lemma removed_sizes (st : Pruner.state F) :
  consistent st ->
  0 <= Pruner.i st < Pruner.num_steps st ->
  Pruner.step_sizes st = differences fsub (Pruner.p_heights st) ->
  Pruner.step_sizes (removed st)
  = differences fsub (Pruner.p_heights (removed st)).
Proof.
  intros Hc Hcur HP.
  pose proof Hc as (Hn & Hi & Hd & Hb & Hs & Hm & Hp & Hcc & Hh & Hw).
  unfold removed. cbn -[Z.max Z.sub Z.add].
  set (k := Z.to_nat (Pruner.i st)).
  set (h := weighted_height st k).
  set (hs := Pruner.p_heights st) in *.
  assert (Hlen : length hs = S (Z.to_nat (Pruner.num_steps st)))
    by (unfold len in Hh; lia).
  apply nth_error_ext. intros j.
  rewrite (sizes_after_nth h j Hc Hcur). fold k hs.
  rewrite nth_error_differences.
  destruct (Nat.eqb_spec (S j) k) as [E1|E1].
  - rewrite E1. rewrite nth_error_fuse_at_eq by lia.
    rewrite nth_error_fuse_at_lt by lia.
    rewrite (@nth_error_in_range _ hs j fnan) by lia.
    do 2 f_equal. f_equal. lia.
  - destruct (Nat.eqb_spec j k) as [E2|E2].
    + subst j. rewrite nth_error_fuse_at_gt by lia.
      rewrite nth_error_fuse_at_eq by lia.
      destruct (Z.ltb_spec (Pruner.i st) (Pruner.num_steps st - 1)).
      * now rewrite (@nth_error_in_range _ hs (S (S k)) fnan) by lia.
      * now rewrite (proj2 (nth_error_None hs (S (S k)))) by lia.
    + destruct (Nat.ltb_spec j k).
      * rewrite !nth_error_fuse_at_lt by lia.
        rewrite HP. apply nth_error_differences.
      * rewrite !nth_error_fuse_at_gt by lia.
        rewrite HP. apply nth_error_differences.
Qed.

(** The removal of a step keeps the dwell points the differences of the
    step indices. *)
Lemma removed_dwell (st : Pruner.state F) :
  consistent st ->
  0 <= Pruner.i st < Pruner.num_steps st ->
  Pruner.dwell_points st = differences Z.sub (Pruner.indices st) ->
  Pruner.dwell_points (removed st)
  = differences Z.sub (Pruner.indices (removed st)).
Proof.
  intros Hc Hcur HP.
  pose proof Hc as (Hn & Hi & Hd & Hb & Hs & Hm & Hp & Hcc & Hh & Hw).
  unfold removed. cbn -[Z.max Z.sub Z.add].
  set (k := Z.to_nat (Pruner.i st)).
  set (idx := Pruner.indices st) in *.
  set (d := Pruner.dwell_points st) in *.
  assert (Hlen : length idx = Z.to_nat (Pruner.num_steps st))
    by (unfold len in Hi; lia).
  assert (Hlend : length d = (Z.to_nat (Pruner.num_steps st) - 1)%nat)
    by (unfold len in Hw; lia).
  assert (Hnth : forall m, (S m < length idx)%nat ->
                           nth m d 0 = nth (S m) idx 0 - nth m idx 0).
  { intros m Hlt. apply nth_error_nth. rewrite HP, nth_error_differences.
    now rewrite (@nth_error_in_range _ idx (S m) 0),
                (@nth_error_in_range _ idx m 0) by lia. }
  apply nth_error_ext. intros j.
  rewrite nth_error_differences.
  unfold dwell_after. fold d k.
  destruct (Z.leb_spec 1 (Pruner.i st));
    destruct (Z.ltb_spec (Pruner.i st) (Pruner.num_steps st - 1));
    cbn [andb].
  - destruct (Nat.lt_total j (k - 1)) as [Hj|[Hj|Hj]].
    + rewrite nth_error_fuse_at_lt by lia.
      rewrite !nth_error_remove_at_lt by lia.
      rewrite HP. apply nth_error_differences.
    + subst j. rewrite nth_error_fuse_at_eq by lia.
      rewrite nth_error_remove_at_ge by lia.
      rewrite nth_error_remove_at_lt by lia.
      replace (S (S (k - 1))) with (S k) by lia.
      rewrite (@nth_error_in_range _ idx (S k) 0),
              (@nth_error_in_range _ idx (k - 1)%nat 0) by lia.
      rewrite !Hnth by lia.
      replace (S (k - 1)) with k by lia. f_equal. lia.
    + rewrite nth_error_fuse_at_gt by lia.
      rewrite !nth_error_remove_at_ge by lia.
      rewrite HP. apply nth_error_differences.
  - rewrite removelast_firstn_len, nth_error_firstn, <- Nat.sub_1_r.
    destruct (Nat.ltb_spec j (length d - 1)).
    + rewrite !nth_error_remove_at_lt by lia.
      rewrite HP. apply nth_error_differences.
    + destruct (Nat.lt_ge_cases (S j) k).
      * rewrite (nth_error_remove_at_lt idx) by lia.
        assert (E : nth_error idx (S j) = None) by (apply nth_error_None; lia).
        lia.
      * rewrite nth_error_remove_at_ge by lia.
        now rewrite (proj2 (nth_error_None idx (S (S j)))) by lia.
  - rewrite nth_error_skipn. cbn [Nat.add].
    rewrite !nth_error_remove_at_ge by lia.
    rewrite HP. apply nth_error_differences.
  - rewrite removelast_firstn_len, nth_error_firstn, <- Nat.sub_1_r.
    destruct (Nat.ltb_spec j (length d - 1)); [lia|].
    rewrite nth_error_remove_at_ge by lia.
    now rewrite (proj2 (nth_error_None idx (S (S j)))) by lia.
Qed.

Lemma nth_hd {A : Type} (l : list A) (d : A) : nth 0 l d = hd d l.
Proof. now destruct l. Qed.

(** The removal of a step keeps the plateaus the stretches between the
    step indices. *)
Lemma removed_split_at (st : Pruner.state F) :
  consistent st ->
  0 <= Pruner.i st < Pruner.num_steps st ->
  split_at (Pruner.plateaus st) (Pruner.indices st) ->
  split_at (Pruner.plateaus (removed st)) (Pruner.indices (removed st)).
Proof.
  intros Hc Hcur HP.
  pose proof Hc as (Hn & Hi & Hd & Hb & Hs & Hm & Hp & Hcc & Hh & Hw).
  unfold removed. cbn -[Z.max Z.sub Z.add].
  set (k := Z.to_nat (Pruner.i st)).
  unfold left_plateau, right_plateau.
  set (idx := Pruner.indices st) in *.
  set (pls := Pruner.plateaus st) in *.
  assert (Hlen : length idx = Z.to_nat (Pruner.num_steps st))
    by (unfold len in Hi; lia).
  assert (Hlenp : length pls = S (Z.to_nat (Pruner.num_steps st)))
    by (unfold len in Hp; lia).
  intros j x Hj.
  destruct (Nat.lt_ge_cases j k) as [Hlt|Hge].
  - rewrite nth_error_remove_at_lt in Hj by lia.
    destruct (HP j x Hj) as (a & b & Ha & Hb' & Hsa & Hfb).
    rewrite nth_error_fuse_at_lt by lia.
    destruct (Nat.eq_dec (S j) k) as [E|E].
    + rewrite E, nth_error_fuse_at_eq by lia.
      exists a. eexists. split; [exact Ha|]. split; [reflexivity|].
      split; [exact Hsa|]. cbn [fst].
      rewrite E in Hb'. now rewrite (nth_error_nth _ _ _ Hb').
    + rewrite nth_error_fuse_at_lt by lia.
      exists a, b. auto.
  - rewrite nth_error_remove_at_ge in Hj by lia.
    destruct (HP (S j) x Hj) as (a & b & Ha & Hb' & Hsa & Hfb).
    rewrite (@nth_error_fuse_at_gt _ k (S j)) by lia.
    destruct (Nat.eq_dec j k) as [E|E].
    + subst j. rewrite nth_error_fuse_at_eq by lia.
      eexists. exists b. split; [reflexivity|]. split; [exact Hb'|].
      split; [|exact Hfb]. cbn [snd].
      now rewrite (nth_error_nth _ _ _ Ha).
    + rewrite nth_error_fuse_at_gt by lia.
      exists a, b. auto.
Qed.

(** The removal of a step keeps the range that the plateaus cover. *)
Lemma removed_covered (st : Pruner.state F) :
  consistent st ->
  0 <= Pruner.i st < Pruner.num_steps st ->
  covered (Pruner.plateaus (removed st)) = covered (Pruner.plateaus st).
Proof.
  intros Hc Hcur.
  pose proof Hc as (Hn & Hi & Hd & Hb & Hs & Hm & Hp & Hcc & Hh & Hw).
  unfold removed. cbn -[Z.max Z.sub Z.add].
  set (k := Z.to_nat (Pruner.i st)).
  unfold left_plateau, right_plateau.
  set (pls := Pruner.plateaus st) in *.
  assert (Hlenp : length pls = S (Z.to_nat (Pruner.num_steps st)))
    by (unfold len in Hp; lia).
  set (v := (fst (nth k pls (0, 0)), snd (nth (S k) pls (0, 0)))).
  assert (Hlenf : length (fuse_at k v pls) = Z.to_nat (Pruner.num_steps st)).
  { pose proof (@len_fuse_at _ k v pls) as H. unfold len in H. lia. }
  unfold covered. f_equal.
  - rewrite hd_fuse_at by lia. destruct k eqn:E; [|reflexivity].
    subst v. cbn [fst]. now rewrite nth_hd.
  - set (m := (Z.to_nat (Pruner.num_steps st) - 1)%nat).
    assert (Hl : last pls (0, 0) = nth (S m) pls (0, 0)).
    { apply last_nth_error. rewrite Hlenp.
      replace (S (Z.to_nat (Pruner.num_steps st)) - 1)%nat with (S m) by lia.
      apply nth_error_in_range. lia. }
    rewrite Hl.
    destruct (Nat.eq_dec m k) as [E|E].
    + rewrite (@last_nth_error _ (fuse_at k v pls) (0, 0) v).
      * subst v. cbn [snd]. now rewrite E.
      * rewrite Hlenf. fold m. rewrite E. apply nth_error_fuse_at_eq. lia.
    + f_equal. apply last_nth_error.
      rewrite Hlenf. fold m.
      rewrite nth_error_fuse_at_gt by lia.
      apply nth_error_in_range. lia.
Qed.

(** Adjacent plateaus of a list that is split at the step indices share
    their boundary. *)
Lemma split_at_chained (pls : list segment) (idx : list Z) (j : nat)
      (a b : segment) :
  split_at pls idx ->
  length pls = S (length idx) ->
  nth_error pls j = Some a ->
  nth_error pls (S j) = Some b ->
  snd a = fst b.
Proof.
  intros HP Hlen Ha Hb.
  assert (Hj : (j < length idx)%nat).
  { assert (S j < length pls)%nat by (apply nth_error_Some; congruence). lia. }
  destruct (nth_error idx j) as [x|] eqn:E;
    [|apply nth_error_None in E; lia].
  destruct (HP j x E) as (a' & b' & Ha' & Hb' & Hsa & Hfb).
  congruence.
Qed.

(** The removal of a step leaves no two adjacent plateaus empty. *)
Lemma removed_no_adjacent_empty (st : Pruner.state F) :
  consistent st ->
  0 <= Pruner.i st < Pruner.num_steps st ->
  split_at (Pruner.plateaus st) (Pruner.indices st) ->
  no_adjacent_empty (Pruner.plateaus st) ->
  no_adjacent_empty (Pruner.plateaus (removed st)).
Proof.
  intros Hc Hcur Hsp HP.
  pose proof Hc as (Hn & Hi & Hd & Hb & Hs & Hm & Hp & Hcc & Hh & Hw).
  unfold removed. cbn -[Z.max Z.sub Z.add].
  set (k := Z.to_nat (Pruner.i st)).
  unfold left_plateau, right_plateau.
  set (idx := Pruner.indices st) in *.
  set (pls := Pruner.plateaus st) in *.
  assert (Hlen : length idx = Z.to_nat (Pruner.num_steps st))
    by (unfold len in Hi; lia).
  assert (Hlenp : length pls = S (length idx))
    by (unfold len in Hp; lia).
  pose proof (@nth_error_in_range _ pls k (0, 0)) as Hk.
  pose proof (@nth_error_in_range _ pls (S k) (0, 0)) as Hk1.
  set (l := nth k pls (0, 0)) in *.
  set (r := nth (S k) pls (0, 0)) in *.
  specialize (Hk ltac:(lia)). specialize (Hk1 ltac:(lia)).
  pose proof (split_at_chained k Hsp Hlenp Hk Hk1) as Hch.
  destruct (HP k l r Hk Hk1) as (Hl0 & Hr0 & Hlr).
  intros j a b Ha Hb'.
  destruct (Nat.lt_total j k) as [Hj|[Hj|Hj]].
  - rewrite nth_error_fuse_at_lt in Ha by lia.
    destruct (Nat.eq_dec (S j) k) as [E|E].
    + rewrite E, nth_error_fuse_at_eq in Hb' by lia.
      injection Hb' as <-. cbn [fst snd].
      rewrite <- E in Hk.
      destruct (HP j a l Ha Hk) as (Ha0 & _ & _). lia.
    + rewrite nth_error_fuse_at_lt in Hb' by lia.
      exact (HP j a b Ha Hb').
  - subst j. rewrite nth_error_fuse_at_eq in Ha by lia.
    rewrite nth_error_fuse_at_gt in Hb' by lia.
    injection Ha as <-. cbn [fst snd].
    destruct (HP (S k) r b Hk1 Hb') as (_ & Hb0 & _). lia.
  - rewrite nth_error_fuse_at_gt in Ha by lia.
    rewrite nth_error_fuse_at_gt in Hb' by lia.
    exact (HP (S j) a b Ha Hb').
Qed.

(** With plateaus that are split at the step indices and of which no two
    adjacent ones are empty, the loop of the pruner raises nothing. *)
Lemma prune_loop_total (fuel : nat) (st : Pruner.state F) :
  checked st ->
  split_at (Pruner.plateaus st) (Pruner.indices st) ->
  no_adjacent_empty (Pruner.plateaus st) ->
  exists st', prune_loop fuel st = Ok st'.
Proof.
  revert st. induction fuel as [|fuel IH]; intros st Hck Hsp Hne.
  - now exists st.
  - simpl. destruct (Z.ltb_spec (Pruner.i st) (Pruner.num_steps st)) as [E|E];
      [|now exists st].
    pose proof Hck as (Hc & Hcur & _).
    destruct (small_at st (Z.to_nat (Pruner.i st))) eqn:Es.
    + rewrite prune_iter_removes; try assumption; try lia.
      * cbn [bind]. apply IH.
        -- now apply removed_checked.
        -- apply removed_split_at; try assumption. lia.
        -- apply removed_no_adjacent_empty; try assumption. lia.
      * pose proof Hc as (Hn & Hi & Hd & Hb & Hs & Hm & Hp & _).
        unfold left_plateau, right_plateau, seg_len.
        set (k := Z.to_nat (Pruner.i st)).
        pose proof (@nth_error_in_range _ (Pruner.plateaus st) k (0, 0)) as Hk.
        pose proof (@nth_error_in_range _ (Pruner.plateaus st) (S k) (0, 0))
          as Hk1.
        unfold len in *.
        specialize (Hk ltac:(lia)). specialize (Hk1 ltac:(lia)).
        destruct (Hne k _ _ Hk Hk1) as (_ & _ & H). lia.
    + rewrite prune_iter_keeps; try assumption; try lia.
      cbn [bind]. apply IH; [now apply advance_checked| |]; assumption.
Qed.

(** The removal of a step keeps a selection of the steps. *)
Lemma removed_selects (idx0 : list Z) (dir0 : list bool) (b0 : list segment)
      (ms0 : list F) (st : Pruner.state F) :
  (exists mask,
     length mask = length idx0
     /\ Pruner.indices st = select mask idx0
     /\ Pruner.direction st = select mask dir0
     /\ Pruner.step_bounds st = select mask b0
     /\ Pruner.minsizes st = select mask ms0) ->
  exists mask,
    length mask = length idx0
    /\ Pruner.indices (removed st) = select mask idx0
    /\ Pruner.direction (removed st) = select mask dir0
    /\ Pruner.step_bounds (removed st) = select mask b0
    /\ Pruner.minsizes (removed st) = select mask ms0.
Proof.
  intros (mask & Hl & Hi & Hd & Hb & Hm).
  exists (clear_kth (Z.to_nat (Pruner.i st)) mask).
  unfold removed. cbn -[Z.max Z.sub Z.add].
  rewrite Hi, Hd, Hb, Hm, !remove_at_select, length_clear_kth. auto.
Qed.

Lemma select_all_alike {A B : Type} (l : list A) (l' : list B) :
  length l' = length l -> select (repeat true (length l)) l' = l'.
Proof. intros <-. apply select_all. Qed.

End PruneInvariantFacts.

Section PrunerResults.

Context {F : Type} {SF : Scalar F}.

(** X1.  On a [Steps] value with consistent lengths, what
    [delete_small_steps] returns has consistent lengths again: [number] is
    the length of the lists of indices, directions, bounds and step sizes,
    there is one plateau, one plateau centre and one plateau height more,
    and one dwell point less (none for no step); and there are not more
    steps than before. *)
Theorem delete_small_steps_lengths (steps steps' : Steps.t F) (ms : list F) :
  steps_consistent steps ms ->
  delete_small_steps steps ms = Ok steps' ->
  0 <= Steps.number steps' <= Steps.number steps
  /\ len (Steps.indices steps') = Steps.number steps'
  /\ len (Steps.direction steps') = Steps.number steps'
  /\ len (Steps.bounds steps') = Steps.number steps'
  /\ len (Steps.step_sizes steps') = Steps.number steps'
  /\ len (Steps.plateaus steps') = Steps.number steps' + 1
  /\ len (Steps.p_centers steps') = Steps.number steps' + 1
  /\ len (Steps.plateau_heights steps') = Steps.number steps' + 1
  /\ len (Steps.dwell_points steps') = Z.max (Steps.number steps' - 1) 0.
Proof.
  intros Hc H.
  destruct (@delete_small_steps_ends _ _
              (fun st => Pruner.num_steps st <= Steps.number steps)
              steps steps' ms) as (st & -> & HP & Hc' & _); try assumption.
  - auto.
  - intros st _ _ _ Hle. cbn. lia.
  - cbn. lia.
  - destruct Hc' as (Hn & Hi & Hd & Hb & Hs & Hm & Hp & Hcc & Hh & Hw).
    cbn [final_steps Steps.number Steps.indices Steps.direction Steps.bounds
         Steps.step_sizes Steps.plateaus Steps.p_centers
         Steps.plateau_heights Steps.dwell_points].
    rewrite Hi. repeat split; try assumption; lia.
Qed.

(** X2.  [delete_small_steps] keeps a selection of the steps: the indices,
    directions and bounds it returns are those of the steps it was given at
    the kept positions, in their order; and no step it returns is smaller
    than the threshold that was given for its position: for none of them
    [|step_size| < min_step_size] holds. *)
Theorem delete_small_steps_keeps_large (steps steps' : Steps.t F)
        (ms : list F) :
  steps_consistent steps ms ->
  delete_small_steps steps ms = Ok steps' ->
  exists mask,
    length mask = length (Steps.indices steps)
    /\ Steps.indices steps' = select mask (Steps.indices steps)
    /\ Steps.direction steps' = select mask (Steps.direction steps)
    /\ Steps.bounds steps' = select mask (Steps.bounds steps)
    /\ forall j s m,
         nth_error (Steps.step_sizes steps') j = Some s ->
         nth_error (select mask ms) j = Some m ->
         fltb (fabs s) m = false.
Proof.
  intros Hc H.
  pose proof Hc as (Hn & Hi & Hd & Hb & Hs & Hm & _).
  cbn in Hi, Hd, Hb, Hm. unfold len in Hi, Hd, Hb, Hm.
  destruct (@delete_small_steps_ends _ _
              (fun st =>
                 exists mask,
                   length mask = length (Steps.indices steps)
                   /\ Pruner.indices st = select mask (Steps.indices steps)
                   /\ Pruner.direction st
                      = select mask (Steps.direction steps)
                   /\ Pruner.step_bounds st = select mask (Steps.bounds steps)
                   /\ Pruner.minsizes st = select mask ms)
              steps steps' ms)
    as (st & -> & (mask & Hl & Ei & Ed & Eb & Em) & Hc' & Hp);
    try assumption.
  - auto.
  - intros st _ _ _. apply removed_selects.
  - exists (repeat true (length (Steps.indices steps))).
    cbn. rewrite repeat_length, select_all.
    rewrite !select_all_alike by lia. auto.
  - exists mask. cbn. repeat split; try assumption.
    intros j s m Es Emj. rewrite <- Em in Emj.
    assert (Hj : (j < Z.to_nat (Pruner.num_steps st))%nat).
    { destruct Hc' as (_ & _ & _ & _ & Hs' & _). unfold len in Hs'.
      assert (j < length (Pruner.step_sizes st))%nat
        by (apply nth_error_Some; congruence).
      lia. }
    specialize (Hp j Hj). unfold small_at in Hp.
    now rewrite Es, Emj in Hp.
Qed.

(** X3.  If the step sizes are the differences of the adjacent plateau
    heights, [step_sizes[j] = plateau_heights[j+1] - plateau_heights[j]],
    they are so in what [delete_small_steps] returns. *)
Theorem delete_small_steps_sizes_are_differences (steps steps' : Steps.t F)
        (ms : list F) :
  steps_consistent steps ms ->
  Steps.step_sizes steps = differences fsub (Steps.plateau_heights steps) ->
  delete_small_steps steps ms = Ok steps' ->
  Steps.step_sizes steps' = differences fsub (Steps.plateau_heights steps').
Proof.
  intros Hc HP H.
  destruct (@delete_small_steps_ends _ _
              (fun st => Pruner.step_sizes st
                         = differences fsub (Pruner.p_heights st))
              steps steps' ms) as (st & -> & HP' & _); try assumption.
  - auto.
  - intros st Hcs Hcur _. now apply removed_sizes.
Qed.

(** X4.  If the dwell points are the distances of adjacent step indices,
    [dwell_points[j] = indices[j+1] - indices[j]], they are so in what
    [delete_small_steps] returns. *)
Theorem delete_small_steps_dwell_are_differences (steps steps' : Steps.t F)
        (ms : list F) :
  steps_consistent steps ms ->
  Steps.dwell_points steps = differences Z.sub (Steps.indices steps) ->
  delete_small_steps steps ms = Ok steps' ->
  Steps.dwell_points steps' = differences Z.sub (Steps.indices steps').
Proof.
  intros Hc HP H.
  destruct (@delete_small_steps_ends _ _
              (fun st => Pruner.dwell_points st
                         = differences Z.sub (Pruner.indices st))
              steps steps' ms) as (st & -> & HP' & _); try assumption.
  - auto.
  - intros st Hcs Hcur _. now apply removed_dwell.
Qed.

(** X5.  If every step index is the stop of the plateau before it and the
    start of the plateau behind it, this holds for what
    [delete_small_steps] returns, and the plateaus returned cover the range
    of the plateaus given: the first one starts where the first one
    started, the last one stops where the last one stopped. *)
Theorem delete_small_steps_plateaus_between_indices
        (steps steps' : Steps.t F) (ms : list F) :
  steps_consistent steps ms ->
  split_at (Steps.plateaus steps) (Steps.indices steps) ->
  delete_small_steps steps ms = Ok steps' ->
  split_at (Steps.plateaus steps') (Steps.indices steps')
  /\ covered (Steps.plateaus steps') = covered (Steps.plateaus steps).
Proof.
  intros Hc HP H.
  destruct (@delete_small_steps_ends _ _
              (fun st => split_at (Pruner.plateaus st) (Pruner.indices st)
                         /\ covered (Pruner.plateaus st)
                            = covered (Steps.plateaus steps))
              steps steps' ms) as (st & -> & HP' & _); try assumption.
  - auto.
  - intros st Hcs Hcur _ (H1 & H2). split.
    + now apply removed_split_at.
    + now rewrite removed_covered.
  - now split.
Qed.

(** X6.  [delete_small_steps] returns, and raises nothing, on a [Steps]
    value with consistent lengths whose plateaus lie between the step
    indices, none of them of negative length and no two adjacent ones
    empty. *)
Theorem delete_small_steps_returns (steps : Steps.t F) (ms : list F) :
  steps_consistent steps ms ->
  split_at (Steps.plateaus steps) (Steps.indices steps) ->
  no_adjacent_empty (Steps.plateaus steps) ->
  exists steps', delete_small_steps steps ms = Ok steps'.
Proof.
  intros Hc Hsp Hne.
  unfold delete_small_steps, delete_small_steps_run.
  destruct (@prune_loop_total _ _ (turns (init_state steps ms))
                              (init_state steps ms))
    as (st & E); try assumption.
  - now apply init_state_checked.
  - rewrite E. cbn [bind fst]. eauto.
Qed.

(** X7.  If no step is smaller than its threshold, [delete_small_steps]
    returns the [Steps] value it was given. *)
Theorem delete_small_steps_nothing_small (steps : Steps.t F) (ms : list F) :
  steps_consistent steps ms ->
  (forall j s m,
     nth_error (Steps.step_sizes steps) j = Some s ->
     nth_error ms j = Some m ->
     fltb (fabs s) m = false) ->
  delete_small_steps steps ms = Ok steps.
Proof.
  intros Hc Hall.
  unfold delete_small_steps, delete_small_steps_run.
  rewrite prune_loop_all_pass.
  - cbn [bind fst]. f_equal.
    destruct Hc as (_ & Hi & _). cbn in Hi.
    destruct steps; cbn in *.
    unfold final_steps, with_cursor, init_state; cbn. now rewrite Hi.
  - exact Hc.
  - destruct Hc as (Hn & _). cbn in *. lia.
  - intros j _. unfold small_at. cbn.
    destruct (nth_error (Steps.step_sizes steps) j) as [s|] eqn:Es;
      [|reflexivity].
    destruct (nth_error ms j) as [m|] eqn:Em; [|reflexivity].
    exact (Hall j s m Es Em).
  - unfold turns. cbn. lia.
Qed.

End PrunerResults.

Lemma two_steps_consistent : steps_consistent two_steps two_thresholds.
Proof.
  unfold steps_consistent, consistent; cbn; repeat split; reflexivity || lia.
Qed.

Lemma two_steps_split_at :
  split_at (Steps.plateaus two_steps) (Steps.indices two_steps).
Proof.
  intros [|[|j]] idx H; cbn in H; try (destruct j; discriminate);
    injection H as <-; cbn; eauto 10.
Qed.

Lemma two_steps_no_adjacent_empty :
  no_adjacent_empty (Steps.plateaus two_steps).
Proof.
  intros [|[|j]] a b Ha Hb; cbn in Ha, Hb;
    try (destruct j; discriminate);
    injection Ha as <-; injection Hb as <-; cbn; lia.
Qed.

Lemma delete_small_steps_lengths_witness :
  exists steps',
    delete_small_steps two_steps two_thresholds = Ok steps'
    /\ Steps.number steps' = 1
    /\ len (Steps.plateaus steps') = Steps.number steps' + 1.
Proof.
  eexists. split; [vm_compute; reflexivity|].
  split; [reflexivity|].
  refine (proj1 (proj2 (proj2 (proj2 (proj2 (proj2
    (delete_small_steps_lengths two_steps_consistent _))))))).
  vm_compute; reflexivity.
Defined.

Lemma delete_small_steps_keeps_large_witness :
  steps_consistent two_steps two_thresholds
  /\ exists steps',
       delete_small_steps two_steps two_thresholds = Ok steps'
       /\ exists mask,
            length mask = length (Steps.indices two_steps)
            /\ Steps.indices steps' = select mask (Steps.indices two_steps)
            /\ Steps.direction steps' = select mask (Steps.direction two_steps)
            /\ Steps.bounds steps' = select mask (Steps.bounds two_steps)
            /\ forall j s m,
                 nth_error (Steps.step_sizes steps') j = Some s ->
                 nth_error (select mask two_thresholds) j = Some m ->
                 fltb (fabs s) m = false.
Proof.
  split; [exact two_steps_consistent|].
  eexists. split; [vm_compute; reflexivity|].
  apply (delete_small_steps_keeps_large two_steps_consistent).
  vm_compute; reflexivity.
Defined.

Lemma delete_small_steps_sizes_are_differences_witness :
  Steps.step_sizes two_steps
  = differences fsub (Steps.plateau_heights two_steps)
  /\ exists steps',
       delete_small_steps two_steps two_thresholds = Ok steps'
       /\ length (Steps.plateau_heights steps') = 2%nat
       /\ Steps.step_sizes steps'
          = differences fsub (Steps.plateau_heights steps').
Proof.
  split; [vm_compute; reflexivity|].
  eexists. split; [vm_compute; reflexivity|].
  split; [reflexivity|].
  apply (@delete_small_steps_sizes_are_differences _ _ two_steps _
           two_thresholds two_steps_consistent).
  - vm_compute; reflexivity.
  - vm_compute; reflexivity.
Defined.

Lemma delete_small_steps_dwell_are_differences_witness :
  Steps.dwell_points two_steps = differences Z.sub (Steps.indices two_steps)
  /\ exists steps',
       delete_small_steps two_steps two_thresholds = Ok steps'
       /\ Steps.dwell_points steps'
          = differences Z.sub (Steps.indices steps').
Proof.
  split; [reflexivity|].
  eexists. split; [vm_compute; reflexivity|].
  apply (@delete_small_steps_dwell_are_differences _ _ two_steps _
           two_thresholds two_steps_consistent).
  - reflexivity.
  - vm_compute; reflexivity.
Defined.

Lemma delete_small_steps_plateaus_between_indices_witness :
  exists steps',
    delete_small_steps two_steps two_thresholds = Ok steps'
    /\ Steps.plateaus steps' = [(0, 6); (6, 20)]
    /\ split_at (Steps.plateaus steps') (Steps.indices steps')
    /\ covered (Steps.plateaus steps') = covered (Steps.plateaus two_steps).
Proof.
  eexists. split; [vm_compute; reflexivity|].
  split; [reflexivity|].
  apply (@delete_small_steps_plateaus_between_indices _ _ two_steps _
           two_thresholds two_steps_consistent two_steps_split_at).
  vm_compute; reflexivity.
Defined.

Lemma delete_small_steps_returns_witness :
  exists steps', delete_small_steps two_steps two_thresholds = Ok steps'.
Proof.
  exact (delete_small_steps_returns two_steps_consistent two_steps_split_at
           two_steps_no_adjacent_empty).
Defined.

Lemma delete_small_steps_nothing_small_witness :
  delete_small_steps two_steps low_thresholds = Ok two_steps.
Proof.
  apply delete_small_steps_nothing_small.
  - unfold steps_consistent, consistent; cbn; repeat split;
      reflexivity || lia.
  - intros [|[|j]] s m Hs Hm; cbn in Hs, Hm;
      try (destruct j; discriminate);
      injection Hs as <-; injection Hm as <-; vm_compute; reflexivity.
Defined.

(* ================================================================== *)
(** * Properties: the steps that the locator and the analysis build *)
(* ================================================================== *)

Section DifferenceFacts.

Context {A : Type}.

Lemma differences_slices (sub : A -> A -> A) (l : list A) :
  zip_with sub (py_slice_from l 1) (py_slice_to l (-1)) = differences sub l.
Proof.
  rewrite py_slice_from_1, py_slice_to_minus1. unfold differences.
  apply nth_error_ext. intros j.
  rewrite !nth_error_zip_with, nth_error_firstn.
  replace (skipn 1 l) with (tl l) by now destruct l.
  destruct (Nat.ltb_spec j (length l - 1)); [reflexivity|].
  assert (E : nth_error (tl l) j = None).
  { apply nth_error_None. destruct l; simpl in *; lia. }
  now rewrite E.
Qed.

Lemma length_differences (sub : A -> A -> A) (l : list A) :
  length (differences sub l) = (length l - 1)%nat.
Proof.
  unfold differences. rewrite length_zip_with.
  destruct l; simpl; lia.
Qed.

End DifferenceFacts.

Lemma nth_error_idx_to_idx_segments (l : list Z) (j : nat) :
  nth_error (idx_to_idx_segments l) j =
    match nth_error l j, nth_error l (S j) with
    | Some a, Some b => Some (a, b)
    | _, _ => None
    end.
Proof.
  revert j. induction l as [|a t IH]; intros j.
  - now destruct j.
  - destruct t as [|b t'].
    + destruct j as [|[|j]]; reflexivity.
    + destruct j as [|j].
      * reflexivity.
      * change (idx_to_idx_segments (a :: b :: t'))
          with ((a, b) :: idx_to_idx_segments (b :: t')).
        cbn [nth_error]. apply IH.
Qed.

Lemma length_idx_to_idx_segments (l : list Z) :
  length (idx_to_idx_segments l) = (length l - 1)%nat.
Proof.
  induction l as [|a t IH]; [reflexivity|].
  destruct t as [|b t']; [reflexivity|].
  change (idx_to_idx_segments (a :: b :: t'))
    with ((a, b) :: idx_to_idx_segments (b :: t')).
  cbn [length] in *. lia.
Qed.

(** The plateaus between [0], the step indices and [n] are split at the
    step indices. *)
Lemma idx_to_idx_segments_split_at (indices : list Z) (n : Z) :
  split_at (idx_to_idx_segments (0 :: indices ++ [n])) indices.
Proof.
  intros j idx Hj.
  assert (Hlt : (j < length indices)%nat)
    by (apply nth_error_Some; congruence).
  assert (H1 : nth_error (0 :: indices ++ [n]) (S j) = Some idx).
  { cbn [nth_error]. now rewrite nth_error_app1. }
  destruct (nth_error (0 :: indices ++ [n]) j) as [a|] eqn:Ea.
  2:{ apply nth_error_None in Ea. cbn [length] in Ea.
      rewrite length_app in Ea. lia. }
  destruct (nth_error (0 :: indices ++ [n]) (S (S j))) as [b|] eqn:Eb.
  2:{ apply nth_error_None in Eb. cbn [length] in Eb.
      rewrite length_app in Eb. cbn [length] in Eb. lia. }
  exists (a, idx), (idx, b).
  rewrite !nth_error_idx_to_idx_segments, Ea, H1, Eb. auto.
Qed.

Section LocatorResults.

Context {F : Type} {SF : Scalar F}.

Variable get_contiguous_segments : list bool -> Z -> Z -> Z -> list segment.
Variable _delete_close_center :
  list segment -> list bool -> Z -> Z -> bool -> list segment * list bool.

(** A bin without samples makes the loop raise; in a bin that has samples
    the index of the step is one of them. *)
Lemma step_index_in_bin (step_mass : list F) (start stop idx : Z) :
  feqb (@fzero F SF) fzero = true ->
  step_index step_mass (start, stop) = Ok idx ->
  start <= idx < stop.
Proof.
  intros Hz H. unfold step_index, np_average in H.
  destruct (Nat.eqb_spec (length (np_arange start stop))
                         (length (py_slice step_mass start stop)))
    as [El|El]; cbn [negb bind] in H; [|discriminate].
  destruct (feqb (np_sum (py_slice step_mass start stop)) fzero) eqn:E;
    cbn [bind] in H; [discriminate|].
  assert (Hlt : start < stop).
  { destruct (Z.lt_ge_cases start stop) as [Hlt|Hge]; [exact Hlt|].
    unfold np_arange in El. rewrite length_map, length_seq in El.
    replace (Z.to_nat (stop - start)) with 0%nat in El by lia.
    destruct (py_slice step_mass start stop); [|discriminate].
    cbn in E. congruence. }
  destruct (int_round _) as [c|e]; cbn [bind] in H; [|discriminate].
  injection H as <-. lia.
Qed.

Lemma Forall2_nth_error {A B : Type} (R : A -> B -> Prop) (la : list A)
      (lb : list B) (k : nat) (a : A) (b : B) :
  Forall2 R la lb ->
  nth_error la k = Some a -> nth_error lb k = Some b -> R a b.
Proof.
  intros H. revert k. induction H as [|x y la lb Hxy _ IH]; intros [|k] Ha Hb;
    simpl in Ha, Hb; try discriminate.
  - congruence.
  - eapply IH; eassumption.
Qed.

(** What [find_steps_on] returns, field by field. *)
Lemma find_steps_on_returns (step_mass : list F) (y_c : F)
      (max_step_width min_step_spacing H L : option Z) (switch_accept : bool)
      (found : Found.t) :
  find_steps_on get_contiguous_segments _delete_close_center step_mass y_c
                max_step_width min_step_spacing H L switch_accept
  = Ok found ->
  exists bins direction,
    (exists b d w s,
       length b = length d
       /\ _delete_close_center b d w s switch_accept = (bins, direction))
    /\ step_indices step_mass bins = Ok (Found.indices found)
    /\ Found.step_bounds found = bins
    /\ Found.direction found = direction
    /\ Found.number found = len (Found.indices found)
    /\ Found.plateaus found
       = idx_to_idx_segments (0 :: Found.indices found ++ [len step_mass])
    /\ Found.p_centers found
       = map (plateau_center (len step_mass)) (Found.plateaus found).
Proof.
  intros Hf. unfold find_steps_on in Hf.
  destruct (_delete_close_center _ _ _ _ _) as [bins direction] eqn:Ed.
  destruct (step_indices step_mass bins) as [indices|e] eqn:E;
    cbn [bind] in Hf; [|discriminate].
  injection Hf as <-. exists bins, direction. cbn.
  split.
  - do 4 eexists. split; [|exact Ed]. now rewrite !length_map.
  - repeat split. exact E.
Qed.

End LocatorResults.

Section PipelineResults.

Context {F : Type} {SF : Scalar F}.

Variable get_contiguous_segments : list bool -> Z -> Z -> Z -> list segment.
Variable _delete_close_center :
  list segment -> list bool -> Z -> Z -> bool -> list segment * list bool.

(** What [analyse_steps] returns: the heights of the plateaus, their
    differences and the differences of the step indices. *)
Lemma analyse_steps_returns (indices : list Z) (plateaus : list segment)
      (data : list F) :
  analyse_steps indices plateaus data
  = (differences fsub (_calculate_plateau_heights data plateaus),
     _calculate_plateau_heights data plateaus,
     differences Z.sub indices).
Proof.
  unfold analyse_steps. now rewrite !differences_slices.
Qed.

(** The steps of a result of [find_and_analyse_steps], from the code of its
    two branches. *)
Lemma find_and_analyse_steps_returns (window_type : int_type)
      (fbnl_filter : FBNLFilterResult.t F)
      (expected_min_step_size expected_min_dwell_t : option F)
      (switch_accept : bool)
      (step_size_threshold : option (threshold_policy F))
      (res : StepFinderResult.t F) :
  find_and_analyse_steps get_contiguous_segments _delete_close_center
                         window_type fbnl_filter expected_min_step_size
                         expected_min_dwell_t switch_accept
                         step_size_threshold
  = Ok res ->
  let data := FBNLFilterResult.data fbnl_filter in
  let y_c := StepFinderResult.y_c res in
  exists found min_step_spacing,
    find_steps_on get_contiguous_segments _delete_close_center
                  (nan_to_zero (FBNLFilterResult.step_mass fbnl_filter))
                  y_c None (Some min_step_spacing) None None switch_accept
    = Ok found
    /\ ((exists pre post,
           StepFinderResult.steps_pre res = Stepped pre
           /\ StepFinderResult.steps res = Stepped post
           /\ 0 < Found.number found
           /\ pre = Steps.mk (Found.indices found) (Found.direction found)
                             (Found.step_bounds found) (Found.number found)
                             (Found.plateaus found) (Found.p_centers found)
                             (differences fsub
                                (_calculate_plateau_heights
                                   data (Found.plateaus found)))
                             (_calculate_plateau_heights
                                data (Found.plateaus found))
                             (differences Z.sub (Found.indices found))
           /\ StepFinderResult.min_sizes_pre res
              = fst (get_min_step_sizes (Found.indices found) y_c fbnl_filter
                                        step_size_threshold)
           /\ delete_small_steps pre (StepFinderResult.min_sizes_pre res)
              = Ok post
           /\ StepFinderResult.min_sizes res
              = fst (get_min_step_sizes
                       (Steps.indices post) y_c fbnl_filter
                       (Some (policy_or_adapt step_size_threshold)))
           /\ StepFinderResult.step_size_threshold res
              = Some (policy_or_adapt
                        (Some (policy_or_adapt step_size_threshold)))
           /\ get_step_qualities pre fbnl_filter
              = Ok (StepFinderResult.quality_pre res)
           /\ get_step_qualities post fbnl_filter
              = Ok (StepFinderResult.quality res))
        \/ (Found.number found <= 0
            /\ StepFinderResult.steps res
               = Stepless (NoSteps.mk [] [] [] 0 [0; len data]
                                      (Found.p_centers found) []
                                      (np_sum data) [])
            /\ StepFinderResult.steps_pre res = StepFinderResult.steps res
            /\ StepFinderResult.min_sizes_pre res = []
            /\ StepFinderResult.min_sizes res = []
            /\ StepFinderResult.step_size_threshold res
               = step_size_threshold
            /\ StepFinderResult.quality_pre res = StepQuality.mk [] [] []
            /\ StepFinderResult.quality res = StepQuality.mk [] [] [])).
Proof.
  intros H. unfold find_and_analyse_steps in H.
  set (y := match expected_min_step_size with
            | Some e => _
            | None => _
            end) in H.
  destruct (match expected_min_dwell_t with
            | Some t => _
            | None => _
            end) as [ems|e]; cbn [bind] in H; [|discriminate].
  destruct (int_truediv _ _ _) as [mdt|e]; cbn [bind] in H; [|discriminate].
  set (mss := match ems with
              | Some e => _
              | None => _
              end) in H.
  cbn [Heap.alloc length app] in H.
  rewrite (@find_steps_heap _ _ get_contiguous_segments _delete_close_center
             [FBNLFilterResult.step_mass fbnl_filter] 0%nat
             (FBNLFilterResult.step_mass fbnl_filter)) in H by reflexivity.
  cbn [fst] in H.
  destruct (find_steps_on _ _ _ _ _ _ _ _ _) as [found|e] eqn:Ef;
    cbn [bind] in H; [|discriminate].
  destruct (Z.ltb_spec 0 (Found.number found)) as [Hn|Hn].
  - rewrite analyse_steps_returns in H.
    unfold get_min_step_sizes at 1 in H.
    destruct (get_step_qualities _ _) as [qpre|e] eqn:Eq1 in H;
      cbn [bind] in H; [|discriminate].
    destruct (delete_small_steps _ _) as [steps|e] eqn:Ed in H;
      cbn [bind] in H; [|discriminate].
    unfold get_min_step_sizes at 1 in H.
    destruct (get_step_qualities steps fbnl_filter) as [q|e] eqn:Eq2;
      cbn [bind] in H; [|discriminate].
    injection H as <-. cbn.
    exists found, mss. split; [exact Ef|]. left.
    eexists. exists steps. split; [reflexivity|]. split; [reflexivity|].
    repeat split; assumption.
  - injection H as <-. cbn.
    exists found, mss. split; [exact Ef|]. right.
    repeat split; assumption.
Qed.

End PipelineResults.

Section StepsResults.

Context {F : Type} {SF : Scalar F}.

Variable get_contiguous_segments : list bool -> Z -> Z -> Z -> list segment.
Variable _delete_close_center :
  list segment -> list bool -> Z -> Z -> bool -> list segment * list bool.

(** X8.  When [find_steps] returns, every final bin has samples and the
    index of its step is one of them, [start <= index < stop]: a bin
    without samples makes [np.average] raise.  There is one index per bin,
    and [number] is their number.  (For scalars with [0 == 0], as binary64
    and the exact numbers.) *)
Theorem find_steps_indices_in_bins (h : Heap.t F) (r : Heap.ref) (y_c : F)
        (max_step_width min_step_spacing H L : option Z)
        (switch_accept : bool) (found : Found.t) :
  feqb (@fzero F SF) fzero = true ->
  fst (find_steps get_contiguous_segments _delete_close_center h r y_c
                  max_step_width min_step_spacing H L switch_accept)
  = Ok found ->
  Found.number found = len (Found.indices found)
  /\ length (Found.indices found) = length (Found.step_bounds found)
  /\ forall (k : nat) (start stop idx : Z),
       nth_error (Found.step_bounds found) k = Some (start, stop) ->
       nth_error (Found.indices found) k = Some idx ->
       start <= idx < stop.
Proof.
  intros Hz Hf.
  destruct (Heap.read h r) as [a|e] eqn:Hr.
  2:{ unfold find_steps in Hf. rewrite Hr in Hf. discriminate. }
  erewrite find_steps_heap in Hf by exact Hr. cbn [fst] in Hf.
  destruct (find_steps_on_returns _ _ _ _ _ _ _ _ _ Hf)
    as (bins & direction & _ & Hi & Hb & _ & Hn & _).
  apply step_indices_each in Hi. rewrite Hb.
  split; [exact Hn|].
  split; [symmetry; eapply Forall2_length; exact Hi|].
  intros k start stop idx Hk Hidx.
  apply (step_index_in_bin (nan_to_zero a)); [exact Hz|].
  exact (Forall2_nth_error k Hi Hk Hidx).
Qed.

(** X9.  [analyse_steps] returns one height per plateau, the step sizes as
    the differences of adjacent plateau heights and the dwell points as the
    differences of adjacent step indices; so there is one step size less
    than plateaus, and one dwell point less than indices. *)
Theorem analyse_steps_differences (indices : list Z)
        (plateaus : list segment) (data : list F) :
  let '(step_sizes, plateau_heights, dwell_points) :=
    analyse_steps indices plateaus data in
  length plateau_heights = length plateaus
  /\ step_sizes = differences fsub plateau_heights
  /\ dwell_points = differences Z.sub indices
  /\ length step_sizes = (length plateaus - 1)%nat
  /\ length dwell_points = (length indices - 1)%nat
  /\ (forall j a b,
        nth_error plateau_heights j = Some a ->
        nth_error plateau_heights (S j) = Some b ->
        nth_error step_sizes j = Some (fsub b a))
  /\ (forall j a b,
        nth_error indices j = Some a ->
        nth_error indices (S j) = Some b ->
        nth_error dwell_points j = Some (b - a)).
Proof.
  rewrite analyse_steps_returns.
  assert (Hl : length (_calculate_plateau_heights data plateaus)
               = length plateaus)
    by (unfold _calculate_plateau_heights; apply length_map).
  split; [exact Hl|]. split; [reflexivity|]. split; [reflexivity|].
  rewrite !length_differences, Hl.
  split; [reflexivity|]. split; [reflexivity|].
  split; intros j a b Ha Hb; rewrite nth_error_differences, Ha, Hb;
    reflexivity.
Qed.

Lemma length_get_min_step_sizes (indices : list Z) (y_c : F)
      (fbnl_filter : FBNLFilterResult.t F)
      (step_size_threshold : option (threshold_policy F)) :
  length (fst (get_min_step_sizes indices y_c fbnl_filter step_size_threshold))
  = length indices.
Proof.
  unfold get_min_step_sizes. cbn [fst].
  destruct (policy_or_adapt step_size_threshold); now rewrite ?length_map.
Qed.

Ltac fields :=
  cbn [init_state final_steps
       Pruner.num_steps Pruner.indices Pruner.direction Pruner.step_bounds
       Pruner.step_sizes Pruner.minsizes Pruner.plateaus Pruner.p_centers
       Pruner.p_heights Pruner.dwell_points
       Steps.indices Steps.direction Steps.bounds Steps.number
       Steps.plateaus Steps.p_centers Steps.step_sizes
       Steps.plateau_heights Steps.dwell_points].

Lemma final_steps_consistent (st : Pruner.state F) (ms : list F) :
  consistent st ->
  length ms = length (Pruner.indices st) ->
  steps_consistent (final_steps st) ms.
Proof.
  intros (Hn & Hi & Hd & Hb & Hs & Hm & Hp & Hc & Hh & Hw) Hl.
  unfold steps_consistent, consistent. cbn.
  rewrite Hi. unfold len in *. repeat split; try assumption; lia.
Qed.

(** X10.  When [find_and_analyse_steps] finds a step, the two [Steps]
    values of its result, before and after the deletion of small steps, are
    well formed, whatever segment finder and merge pass are used, as long as
    the merge pass returns as many directions as bins: the lengths of their
    lists fit [number] and the thresholds (one entry per step, one plateau
    more, one dwell point less), the step sizes are the differences of
    adjacent plateau heights, the dwell points the differences of adjacent
    indices, every step index is the stop of the plateau before it and the
    start of the plateau behind it, and the deletion does not add steps.
    When it finds no step, the two are one [Steps] value of another shape:
    without indices, with the two bounds [0] and [N] as [plateaus] and the
    one number [np.sum(data)] as [plateau_heights]. *)
Theorem find_and_analyse_steps_well_formed (window_type : int_type)
        (fbnl_filter : FBNLFilterResult.t F)
        (expected_min_step_size expected_min_dwell_t : option F)
        (switch_accept : bool)
        (step_size_threshold : option (threshold_policy F))
        (res : StepFinderResult.t F) :
  (forall b d w s a,
     length b = length d ->
     length (fst (_delete_close_center b d w s a))
     = length (snd (_delete_close_center b d w s a))) ->
  find_and_analyse_steps get_contiguous_segments _delete_close_center
                         window_type fbnl_filter expected_min_step_size
                         expected_min_dwell_t switch_accept
                         step_size_threshold
  = Ok res ->
  (exists pre post,
     StepFinderResult.steps_pre res = Stepped pre
     /\ StepFinderResult.steps res = Stepped post
     /\ 0 < Steps.number pre
     /\ (steps_consistent pre (StepFinderResult.min_sizes_pre res)
         /\ Steps.step_sizes pre
            = differences fsub (Steps.plateau_heights pre)
         /\ Steps.dwell_points pre = differences Z.sub (Steps.indices pre)
         /\ split_at (Steps.plateaus pre) (Steps.indices pre))
     /\ (steps_consistent post (StepFinderResult.min_sizes res)
         /\ Steps.step_sizes post
            = differences fsub (Steps.plateau_heights post)
         /\ Steps.dwell_points post
            = differences Z.sub (Steps.indices post)
         /\ split_at (Steps.plateaus post) (Steps.indices post))
     /\ Steps.number post <= Steps.number pre)
  \/ (exists steps,
        StepFinderResult.steps_pre res = Stepless steps
        /\ StepFinderResult.steps res = Stepless steps
        /\ NoSteps.number steps = 0
        /\ NoSteps.indices steps = []
        /\ NoSteps.step_sizes steps = []
        /\ NoSteps.dwell_points steps = []
        /\ NoSteps.plateaus steps
           = [0; len (FBNLFilterResult.data fbnl_filter)]
        /\ NoSteps.plateau_heights steps
           = np_sum (FBNLFilterResult.data fbnl_filter)
        /\ StepFinderResult.min_sizes_pre res = []
        /\ StepFinderResult.min_sizes res = []).
Proof.
  intros Hdcc H.
  destruct (find_and_analyse_steps_returns _ _ _ _ _ _ _ _ H)
    as (found & mss & Hf & [Hpos|Hzero]).
  - left.
    destruct Hpos as (pre & post & Esp & Es & Hn & Epre & Emp & Hdel & Em & _).
    exists pre, post. split; [exact Esp|]. split; [exact Es|].
    split; [rewrite Epre; exact Hn|].
    destruct (find_steps_on_returns _ _ _ _ _ _ _ _ _ Hf)
      as (bins & direction & (b & d & w & s & Hbd & Hd) & Hi & Hb & Hdir
          & Hnum & Hpl & Hpc).
    apply step_indices_each, Forall2_length in Hi.
    pose proof (Hdcc b d w s switch_accept Hbd) as Hlen.
    rewrite Hd in Hlen. cbn [fst snd] in Hlen.
    assert (Hlp : length (Found.plateaus found)
                  = S (length (Found.indices found))).
    { rewrite Hpl, length_idx_to_idx_segments. cbn [length].
      rewrite length_app. cbn [length]. lia. }
    assert (Hpre : steps_consistent pre (StepFinderResult.min_sizes_pre res)
                   /\ Steps.step_sizes pre
                      = differences fsub (Steps.plateau_heights pre)
                   /\ Steps.dwell_points pre
                      = differences Z.sub (Steps.indices pre)
                   /\ split_at (Steps.plateaus pre) (Steps.indices pre)).
    { rewrite Epre, Emp. cbn [Steps.step_sizes Steps.plateau_heights
                               Steps.dwell_points Steps.indices
                               Steps.plateaus].
      split; [|split; [reflexivity|split; [reflexivity|]]].
      - unfold steps_consistent, consistent. fields.
        unfold len. rewrite !length_differences, length_get_min_step_sizes.
        unfold _calculate_plateau_heights.
        rewrite Hpc, !length_map, Hlp, Hb, Hdir, Hnum.
        unfold len. repeat split; lia.
      - rewrite Hpl. apply idx_to_idx_segments_split_at. }
    destruct Hpre as (Hc & Hs & Hw & Hsp).
    destruct (@delete_small_steps_ends _ _
                (fun st =>
                   Pruner.num_steps st <= Steps.number pre
                   /\ Pruner.step_sizes st
                      = differences fsub (Pruner.p_heights st)
                   /\ Pruner.dwell_points st
                      = differences Z.sub (Pruner.indices st)
                   /\ split_at (Pruner.plateaus st) (Pruner.indices st))
                pre post (StepFinderResult.min_sizes_pre res))
      as (st & Epost & (Hle & Hs' & Hw' & Hsp') & Hc' & _);
      try assumption.
    + auto.
    + intros st Hcs Hcur _ (H1 & H2 & H3 & H4).
      split; [cbn; lia|]. split; [now apply removed_sizes|].
      split; [now apply removed_dwell|now apply removed_split_at].
    + cbn. repeat split; try assumption. lia.
    + split; [exact (conj Hc (conj Hs (conj Hw Hsp)))|]. split.
      * rewrite Em, Epost. cbn [final_steps Steps.step_sizes
                                Steps.plateau_heights Steps.dwell_points
                                Steps.indices Steps.plateaus].
        split; [|exact (conj Hs' (conj Hw' Hsp'))].
        apply final_steps_consistent; [exact Hc'|].
        apply length_get_min_step_sizes.
      * rewrite Epost. cbn [final_steps Steps.number].
        destruct Hc' as (_ & Hi' & _). rewrite Hi'. exact Hle.
  - right.
    destruct Hzero as (Hn & Epost & Epre & Emp & Em & _).
    eexists. split; [rewrite Epre; exact Epost|]. split; [exact Epost|].
    cbn. repeat split; assumption.
Qed.

(** X11.  A float threshold of zero does not turn the deletion of steps
    off: [step_size_threshold or 'adapt'] replaces it by ['adapt'].  When
    steps are found, the result of [find_and_analyse_steps] for such a
    threshold is the result for ['adapt'], and the policy it records is
    ['adapt']. *)
Theorem find_and_analyse_steps_zero_threshold (window_type : int_type)
        (fbnl_filter : FBNLFilterResult.t F)
        (expected_min_step_size expected_min_dwell_t : option F)
        (switch_accept : bool) (v : F) (res : StepFinderResult.t F) :
  feqb v fzero = true ->
  find_and_analyse_steps get_contiguous_segments _delete_close_center
                         window_type fbnl_filter expected_min_step_size
                         expected_min_dwell_t switch_accept (Some (Fixed v))
  = Ok res ->
  0 < steps_number (StepFinderResult.steps_pre res) ->
  StepFinderResult.step_size_threshold res = Some Adapt
  /\ find_and_analyse_steps get_contiguous_segments _delete_close_center
                            window_type fbnl_filter expected_min_step_size
                            expected_min_dwell_t switch_accept (Some Adapt)
     = Ok res.
Proof.
  intros Hv H Hpos. unfold find_and_analyse_steps in *.
  destruct (match expected_min_dwell_t with
            | Some t => _
            | None => _
            end) as [ems|e]; cbn [bind] in *; [|discriminate].
  destruct (int_truediv _ _ _) as [mdt|e]; cbn [bind] in *; [|discriminate].
  destruct (Heap.alloc _ _) as [r h].
  destruct (fst (find_steps _ _ _ _ _ _ _ _ _ _)) as [found|e];
    cbn [bind] in *; [|discriminate].
  destruct (0 <? Found.number found).
  - destruct (analyse_steps _ _ _) as [[ss hs] dw].
    unfold get_min_step_sizes, policy_or_adapt in *. rewrite Hv in H.
    split; [|exact H].
    destruct (get_step_qualities _ _) as [qpre|e] in H;
      cbn [bind] in H; [|discriminate].
    destruct (delete_small_steps _ _) as [steps|e] in H;
      cbn [bind] in H; [|discriminate].
    destruct (get_step_qualities steps fbnl_filter) as [q|e] in H;
      cbn [bind] in H; [|discriminate].
    now injection H as <-.
  - injection H as <-. cbn in Hpos. lia.
Qed.

End StepsResults.

(** ** The locator and the pipeline on binary64 numbers *)

Lemma merge_pass_lengths (b : list segment) (d : list bool) (w s : Z)
      (a : bool) :
  length b = length d ->
  length (fst (SpecModel._delete_close_center b d w s a))
  = length (snd (SpecModel._delete_close_center b d w s a)).
Proof.
  intros _. unfold SpecModel._delete_close_center.
  destruct (zip_with pair b d) as [|[seg dir] t]; [reflexivity|].
  cbn [fst snd]. now rewrite !length_map.
Qed.

Lemma find_steps_indices_in_bins_witness :
  feqb (@fzero float _) fzero = true
  /\ exists found,
       fst (SpecModel.find_steps [mixed_mass] 0%nat 2%float None (Some 5) None
                                 None true)
       = Ok found
       /\ Found.step_bounds found = [(10, 14)]
       /\ forall (k : nat) (start stop idx : Z),
            nth_error (Found.step_bounds found) k = Some (start, stop) ->
            nth_error (Found.indices found) k = Some idx ->
            start <= idx < stop.
Proof.
  split; [reflexivity|].
  eexists. split; [vm_compute; reflexivity|].
  split; [reflexivity|].
  refine (proj2 (proj2 (find_steps_indices_in_bins
                          SpecModel.get_contiguous_segments
                          SpecModel._delete_close_center
                          [mixed_mass] 0%nat 2%float None (Some 5) None None
                          true _ _))).
  - reflexivity.
  - vm_compute. reflexivity.
Defined.

Lemma find_and_analyse_steps_well_formed_witness :
  exists res pre post,
    SpecModel.find_and_analyse_steps python_int clean_trace None None true
                                     (Some (Fixed 3.5%float))
    = Ok res
    /\ StepFinderResult.steps_pre res = Stepped pre
    /\ StepFinderResult.steps res = Stepped post
    /\ Steps.number pre = 2
    /\ Steps.number post = 0
    /\ steps_consistent post (StepFinderResult.min_sizes res)
    /\ Steps.number post <= Steps.number pre.
Proof.
  destruct clean_trace_analysed as [res|e] eqn:E;
    [|vm_compute in E; discriminate].
  assert (H : SpecModel.find_and_analyse_steps
                python_int clean_trace None None true
                (Some (Fixed 3.5%float)) = Ok res)
    by (rewrite <- E; vm_compute; reflexivity).
  vm_compute in E. injection E as <-.
  destruct (@find_and_analyse_steps_well_formed
              float _ SpecModel.get_contiguous_segments
              SpecModel._delete_close_center python_int clean_trace None
              None true (Some (Fixed 3.5%float)) _ merge_pass_lengths H)
    as [(pre & post & E1 & E2 & _ & _ & (Hc & _) & Hle)|(steps & E1 & _)];
    [|discriminate E1].
  eexists. exists pre, post. split; [exact H|].
  split; [exact E1|]. split; [exact E2|].
  cbn in E1, E2. injection E1 as <-. injection E2 as <-.
  split; [reflexivity|]. split; [reflexivity|]. split; [exact Hc|exact Hle].
Defined.

Lemma find_and_analyse_steps_zero_threshold_witness :
  feqb 0%float fzero = true
  /\ exists res,
       SpecModel.find_and_analyse_steps python_int clean_trace None None true
                                        (Some (Fixed 0%float))
       = Ok res
       /\ steps_number (StepFinderResult.steps_pre res) = 2
       /\ StepFinderResult.step_size_threshold res = Some Adapt
       /\ SpecModel.find_and_analyse_steps python_int clean_trace None None
                                           true (Some Adapt)
          = Ok res.
Proof.
  split; [reflexivity|].
  eexists. split; [vm_compute; reflexivity|].
  split; [reflexivity|].
  refine (@find_and_analyse_steps_zero_threshold
            float _ SpecModel.get_contiguous_segments
            SpecModel._delete_close_center python_int clean_trace None None
            true 0%float _ _ _ _).
  - reflexivity.
  - vm_compute. reflexivity.
  - vm_compute. reflexivity.
Defined.

(* ================================================================== *)
(** * Properties: the entries of a filter result *)
(* ================================================================== *)

Section SliceOutside.

Context {A : Type}.

(** An assignment to a slice leaves the entries outside of it alone. *)
Lemma nth_error_np_set_slice_outside (a v a' : list A) (lo hi : Z)
      (i : nat) :
  np_set_slice a lo hi v = Ok a' ->
  let s := clip_index (len a) lo in
  let e := Z.max s (clip_index (len a) hi) in
  (i < Z.to_nat s)%nat \/ (Z.to_nat e <= i)%nat ->
  nth_error a' i = nth_error a i.
Proof.
  unfold np_set_slice. cbv zeta.
  pose proof (clip_index_range lo (len_nonneg a)) as Hs.
  pose proof (clip_index_range hi (len_nonneg a)) as He.
  set (s := clip_index (len a) lo) in *.
  set (e := Z.max s (clip_index (len a) hi)).
  assert (Hpre : length (firstn (Z.to_nat s) a) = Z.to_nat s)
    by (rewrite length_firstn; unfold len in *; lia).
  assert (Hout : forall mid : list A,
             length mid = Z.to_nat (e - s) ->
             (i < Z.to_nat s)%nat \/ (Z.to_nat e <= i)%nat ->
             nth_error (firstn (Z.to_nat s) a ++ mid ++ skipn (Z.to_nat e) a) i
             = nth_error a i).
  { intros mid Hmid [Hi|Hi].
    - rewrite nth_error_app1 by lia. rewrite nth_error_firstn.
      destruct (Nat.ltb_spec i (Z.to_nat s)); [reflexivity|lia].
    - rewrite nth_error_app2 by lia. rewrite nth_error_app2 by lia.
      rewrite nth_error_skipn. f_equal. lia. }
  destruct (Nat.eqb (length v) (Z.to_nat (e - s))) eqn:E.
  - apply Nat.eqb_eq in E. intros [= <-]. now apply Hout.
  - destruct v as [|x [|y t]]; try discriminate. intros [= <-].
    apply Hout. apply repeat_length.
Qed.

Lemma nth_error_nth_default (l : list A) (i : nat) (x d : A) :
  nth_error l i = Some x -> nth i l d = x.
Proof. apply nth_error_nth. Qed.

End SliceOutside.

Section FilterEntries.

Context {F : Type} {SF : Scalar F}.

Variable np_power : F -> F -> F.

Lemma nth_error_np_full (n : Z) (v : F) (i : nat) :
  (i < Z.to_nat n)%nat -> nth_error (np_full n v) i = Some v.
Proof. intros H. unfold np_full. now apply nth_error_repeat. Qed.

(** The entries of what [_filter_fbnl] returns: the filtered signal is the
    sum of the two estimates, weighted; within [window] samples of either
    end the estimates are not assigned; the exponent is [p or 1]. *)
Lemma _filter_fbnl_entries (data : list F) (resolution : F) (window : Z)
      (window_var : option Z)
      (p : option (py_number F)) (r : FBNLCore.t F) :
  _filter_fbnl np_power data resolution window window_var p = Ok r ->
  (forall (i : nat) (u v a c : F),
     nth_error (FBNLCore.f r) i = Some u ->
     nth_error (FBNLCore.b r) i = Some v ->
     nth_error (FBNLCore.xf r) i = Some a ->
     nth_error (FBNLCore.xb r) i = Some c ->
     nth_error (FBNLCore.data_filtered r) i
     = Some (fadd (fmul u a) (fmul v c)))
  /\ (forall i : nat,
        (i < length data)%nat ->
        Z.of_nat i < window \/ len data - window <= Z.of_nat i ->
        nth_error (FBNLCore.xf r) i = Some fnan
        /\ nth_error (FBNLCore.xb r) i = Some fnan)
  /\ FBNLCore.p r = number_or_default p (PyInt 1).
Proof.
  unfold _filter_fbnl. cbv zeta. intros H.
  destruct (np_set_slice (np_full (len data) fnan) window _ _) as [xb|e] eqn:Exb;
    cbn [bind] in H; [|discriminate].
  destruct (np_set_slice (np_full (len data) fnan) window _ _) as [xf|e] eqn:Exf
    in H; cbn [bind] in H; [|discriminate].
  destruct (py_set _ _ _) as [sf0|e] in H; cbn [bind] in H; [|discriminate].
  destruct (py_set _ _ _) as [sb0|e] in H; cbn [bind] in H; [|discriminate].
  destruct (_iterative_variance data sf0 sb0 xf xb _ _ _) as [sf sb].
  injection H as <-.
  cbn [FBNLCore.data FBNLCore.data_filtered FBNLCore.sf FBNLCore.sb
       FBNLCore.f FBNLCore.b FBNLCore.xf FBNLCore.xb FBNLCore.p].
  split; [|split; [|reflexivity]].
  - intros i u v a c.
    set (fn := zip_with fdiv _ _). set (bn := zip_with fdiv _ _).
    intros Hu Hv Ha Hc.
    rewrite !nth_error_zip_with, Hu, Hv, Ha, Hc. reflexivity.
  - intros i Hi Hedge.
    assert (Hfull : nth_error (np_full (len data) (@fnan F SF)) i = Some fnan)
      by (apply nth_error_np_full; unfold len; lia).
    assert (Hlen : len (np_full (len data) (@fnan F SF)) = len data)
      by (apply len_np_full, len_nonneg).
    assert (Hout :
              (i < Z.to_nat (clip_index (len data) window))%nat
              \/ (Z.to_nat (Z.max (clip_index (len data) window)
                                  (clip_index (len data) (len data - window)))
                  <= i)%nat).
    { unfold clip_index, len in *.
      destruct (Z.ltb_spec window 0);
        destruct (Z.ltb_spec (Z.of_nat (length data) - window) 0); lia. }
    split.
    + rewrite (nth_error_np_set_slice_outside _ _ _ _ Exf)
        by (rewrite Hlen; exact Hout).
      exact Hfull.
    + rewrite (nth_error_np_set_slice_outside _ _ _ _ Exb)
        by (rewrite Hlen; exact Hout).
      exact Hfull.
Qed.

(** The same entries in a result of [filter_fbnl], capped or not, with the
    step size and the step mass. *)
Lemma filter_fbnl_entries (g : nat -> F) (data : list F) (resolution : F)
      (window : Z) (window_var : option Z)
      (p : option (py_number F)) (cap : bool)
      (fr : FBNLFilterResult.t F) :
  filter_fbnl np_power g data resolution window window_var p cap = Ok fr ->
  (forall (i : nat) (u v a c : F),
     nth_error (FBNLFilterResult.f fr) i = Some u ->
     nth_error (FBNLFilterResult.b fr) i = Some v ->
     nth_error (FBNLFilterResult.xf fr) i = Some a ->
     nth_error (FBNLFilterResult.xb fr) i = Some c ->
     nth_error (FBNLFilterResult.data_filtered fr) i
     = Some (fadd (fmul u a) (fmul v c)))
  /\ FBNLFilterResult.step_size fr
     = zip_with fsub (FBNLFilterResult.xb fr) (FBNLFilterResult.xf fr)
  /\ FBNLFilterResult.step_mass fr
     = zip_with fdiv (FBNLFilterResult.step_size fr)
                (FBNLFilterResult.noise fr)
  /\ FBNLFilterResult.p fr = number_or_default p (PyInt 1)
  /\ exists n, result_length n fr.
Proof.
  unfold filter_fbnl. intros H.
  destruct ((if cap then _filter_fbnl_capped np_power g
             else _filter_fbnl np_power)
              data resolution window window_var p) as [r|e] eqn:E;
    cbn [bind] in H; [|discriminate].
  injection H as <-.
  cbn [FBNLFilterResult.f FBNLFilterResult.b FBNLFilterResult.xf
       FBNLFilterResult.xb FBNLFilterResult.data_filtered
       FBNLFilterResult.step_size FBNLFilterResult.step_mass
       FBNLFilterResult.noise FBNLFilterResult.p].
  assert (Hw : exists n, well_formed np_power n r).
  { destruct cap.
    - eapply _filter_fbnl_capped_well_formed; exact E.
    - eexists. eapply _filter_fbnl_well_formed; exact E. }
  destruct Hw as (n & Hd & Hdf & Hsf & Hsb & Hf & Hb & Hxf & Hxb & Hw).
  split; [|split; [reflexivity|split; [reflexivity|split]]].
  - destruct cap.
    + rewrite _filter_fbnl_capped_unfold in E. cbv zeta in E.
      destruct (cap_data g data _ _) as [d|e]; cbn [bind] in E;
        [|discriminate].
      destruct (_filter_fbnl np_power d resolution window _ p) as [r0|e] eqn:E0;
        cbn [bind] in E; [|discriminate].
      injection E as <-.
      pose proof (_filter_fbnl_well_formed _ _ _ _ _ _ E0)
        as ((Hd0 & Hdf0 & Hsf0 & Hsb0 & Hf0 & Hb0 & Hxf0 & Hxb0 & _) & _).
      destruct (_filter_fbnl_entries _ _ _ _ _ E0) as (Hsum & _).
      unfold trimmed.
      cbn [FBNLCore.data FBNLCore.data_filtered FBNLCore.sf FBNLCore.sb
           FBNLCore.f FBNLCore.b FBNLCore.xf FBNLCore.xb FBNLCore.p].
      intros i u v a c Hu Hv Ha Hc.
      rewrite (@nth_error_py_slice_alike _ _ (FBNLCore.f r0)
                 (FBNLCore.data_filtered r0) _ _ i u)
        by (exact Hu || congruence).
      apply nth_error_py_slice in Hu, Hv, Ha, Hc.
      replace (len (FBNLCore.b r0)) with (len (FBNLCore.f r0)) in Hv
        by (unfold len; congruence).
      replace (len (FBNLCore.xf r0)) with (len (FBNLCore.f r0)) in Ha
        by (unfold len; congruence).
      replace (len (FBNLCore.xb r0)) with (len (FBNLCore.f r0)) in Hc
        by (unfold len; congruence).
      now apply Hsum.
    + destruct (_filter_fbnl_entries _ _ _ _ _ E) as (Hsum & _). exact Hsum.
  - destruct cap.
    + rewrite _filter_fbnl_capped_unfold in E. cbv zeta in E.
      destruct (cap_data g data _ _) as [d|e]; cbn [bind] in E;
        [|discriminate].
      destruct (_filter_fbnl np_power d resolution window _ p) as [r0|e] eqn:E0;
        cbn [bind] in E; [|discriminate].
      injection E as <-.
      destruct (_filter_fbnl_entries _ _ _ _ _ E0) as (_ & _ & Hp).
      exact Hp.
    + destruct (_filter_fbnl_entries _ _ _ _ _ E) as (_ & _ & Hp). exact Hp.
  - exists n. unfold result_length.
    cbn [FBNLFilterResult.data FBNLFilterResult.data_filtered
         FBNLFilterResult.sf FBNLFilterResult.sb FBNLFilterResult.f
         FBNLFilterResult.b FBNLFilterResult.xf FBNLFilterResult.xb
         FBNLFilterResult.step_mass FBNLFilterResult.step_size
         FBNLFilterResult.noise FBNLFilterResult.outls].
    repeat (rewrite length_zip_with || rewrite length_map).
    rewrite Hd, Hdf, Hsf, Hsb, Hf, Hb, Hxf, Hxb, !Nat.min_id.
    repeat split.
Qed.

End FilterEntries.

(** ** NaN on binary64 numbers *)

(** X12.  Without caps the filter leaves the ends of the signal undefined:
    at every index within [window] samples of either end, [i < window] or
    [i >= N - window], the forward and the backward estimate, the filtered
    signal, the step size and the step mass of the result are NaN. *)
Theorem filter_fbnl_uncapped_edges (np_power : float -> float -> float)
        (g : nat -> float) (data : list float)
        (resolution : float) (window : Z) (window_var : option Z)
        (p : option (py_number float))
        (fr : FBNLFilterResult.t float) (i : nat) :
  filter_fbnl np_power g data resolution window window_var p false = Ok fr ->
  (i < length data)%nat ->
  Z.of_nat i < window \/ len data - window <= Z.of_nat i ->
  PrimFloat.is_nan (nth i (FBNLFilterResult.xf fr) 0%float) = true
  /\ PrimFloat.is_nan (nth i (FBNLFilterResult.xb fr) 0%float) = true
  /\ PrimFloat.is_nan (nth i (FBNLFilterResult.data_filtered fr) 0%float)
     = true
  /\ PrimFloat.is_nan (nth i (FBNLFilterResult.step_size fr) 0%float) = true
  /\ PrimFloat.is_nan (nth i (FBNLFilterResult.step_mass fr) 0%float) = true.
Proof.
  intros H Hi Hedge.
  destruct (filter_fbnl_entries _ _ _ _ _ _ _ _ H)
    as (Hsum & Hsize & Hmass & _ & _).
  unfold filter_fbnl in H.
  destruct (_filter_fbnl np_power data resolution window window_var p)
    as [r|e] eqn:E;
    cbn [bind] in H; [|discriminate].
  destruct (_filter_fbnl_entries _ _ _ _ _ _ E) as (_ & Hnan & _).
  destruct (Hnan i Hi Hedge) as (Hxf & Hxb).
  destruct (_filter_fbnl_well_formed _ _ _ _ _ _ E)
    as ((_ & _ & _ & _ & Hf & Hb & _ & _ & _) & _).
  assert (Efr : FBNLFilterResult.xf fr = FBNLCore.xf r
                /\ FBNLFilterResult.xb fr = FBNLCore.xb r
                /\ FBNLFilterResult.f fr = FBNLCore.f r
                /\ FBNLFilterResult.b fr = FBNLCore.b r
                /\ length (FBNLFilterResult.noise fr) = length data).
  { injection H as <-. cbn. repeat split.
    rewrite length_map, !length_zip_with.
    destruct (_filter_fbnl_well_formed _ _ _ _ _ _ E)
      as ((_ & _ & Hsf & Hsb & _) & _).
    rewrite Hf, Hb, Hsf, Hsb. lia. }
  destruct Efr as (Exf & Exb & Ef & Eb & Hnoise).
  rewrite <- Exf in Hxf. rewrite <- Exb in Hxb.
  destruct (nth_error (FBNLFilterResult.f fr) i) as [u|] eqn:Eu.
  2:{ apply nth_error_None in Eu. rewrite Ef in Eu. lia. }
  destruct (nth_error (FBNLFilterResult.b fr) i) as [v|] eqn:Ev.
  2:{ apply nth_error_None in Ev. rewrite Eb in Ev. lia. }
  destruct (nth_error (FBNLFilterResult.noise fr) i) as [s|] eqn:Es.
  2:{ apply nth_error_None in Es. lia. }
  pose proof (Hsum i u v _ _ Eu Ev Hxf Hxb) as Hdf.
  assert (Hss : nth_error (FBNLFilterResult.step_size fr) i
                = Some (fsub (@fnan float _) fnan))
    by (now rewrite Hsize, nth_error_zip_with, Hxb, Hxf).
  assert (Hsm : nth_error (FBNLFilterResult.step_mass fr) i
                = Some (fdiv (fsub (@fnan float _) fnan) s))
    by (now rewrite Hmass, nth_error_zip_with, Hss, Es).
  rewrite (nth_error_nth_default _ _ 0%float Hxf),
          (nth_error_nth_default _ _ 0%float Hxb),
          (nth_error_nth_default _ _ 0%float Hdf),
          (nth_error_nth_default _ _ 0%float Hss),
          (nth_error_nth_default _ _ 0%float Hsm).
  split; [reflexivity|]. split; [reflexivity|].
  split; [now apply is_nan_add_l, is_nan_mul_r|].
  split; [reflexivity|now apply is_nan_div_l].
Qed.

Lemma filter_fbnl_uncapped_edges_witness :
  exists fr,
    filter_fbnl reciprocal_power draws_one seven_samples 1000%float 2
                None None false = Ok fr
    /\ PrimFloat.is_nan (nth 3 (FBNLFilterResult.data_filtered fr) 0%float)
       = false
    /\ PrimFloat.is_nan (nth 1 (FBNLFilterResult.data_filtered fr) 0%float)
       = true
    /\ PrimFloat.is_nan (nth 5 (FBNLFilterResult.step_mass fr) 0%float)
       = true.
Proof.
  eexists. split; [vm_compute; reflexivity|].
  split; [reflexivity|].
  split.
  - refine (proj1 (proj2 (proj2
      (@filter_fbnl_uncapped_edges reciprocal_power draws_one seven_samples
         1000%float 2 None None _ 1%nat _ _ _)))).
    + vm_compute. reflexivity.
    + cbn. lia.
    + left. lia.
  - refine (proj2 (proj2 (proj2 (proj2
      (@filter_fbnl_uncapped_edges reciprocal_power draws_one seven_samples
         1000%float 2 None None _ 5%nat _ _ _))))).
    + vm_compute. reflexivity.
    + cbn. lia.
    + right. cbn. lia.
Defined.

Section FilterDefaults.

Context {F : Type} {SF : Scalar F}.

Variable np_power : F -> F -> F.

(** X13.  An exponent [p] of zero is not used: [p = p or 1] replaces it by
    one.  The filter with [p = 0] returns what it returns with [p = 1] (and
    without [p]), and the exponent in its result is 1; the same holds of a
    float [p] that equals zero. *)
Theorem filter_fbnl_zero_exponent (g : nat -> F) (data : list F)
        (resolution : F) (window : Z) (window_var : option Z) (cap : bool) :
  filter_fbnl np_power g data resolution window window_var (Some (PyInt 0))
              cap
  = filter_fbnl np_power g data resolution window window_var (Some (PyInt 1))
                cap
  /\ filter_fbnl np_power g data resolution window window_var
                 (Some (PyInt 0)) cap
     = filter_fbnl np_power g data resolution window window_var None cap
  /\ (forall fr,
        filter_fbnl np_power g data resolution window window_var
                    (Some (PyInt 0)) cap = Ok fr ->
        FBNLFilterResult.p fr = PyInt 1)
  /\ (forall v,
        feqb v fzero = true ->
        filter_fbnl np_power g data resolution window window_var
                    (Some (PyFloat v)) cap
        = filter_fbnl np_power g data resolution window window_var None cap).
Proof.
  split; [destruct cap; reflexivity|]. split; [destruct cap; reflexivity|].
  split.
  - intros fr H.
    destruct (filter_fbnl_entries _ _ _ _ _ _ _ _ H) as (_ & _ & _ & Hp & _).
    exact Hp.
  - intros v Hv.
    assert (E : number_or_default (Some (PyFloat v)) (PyInt 1)
                = number_or_default None (PyInt 1))
      by (unfold number_or_default; now rewrite Hv).
    assert (Ecore : forall d wv,
               _filter_fbnl np_power d resolution window wv
                            (Some (PyFloat v))
               = _filter_fbnl np_power d resolution window wv None)
      by (intros d wv; unfold _filter_fbnl; now rewrite E).
    unfold filter_fbnl. destruct cap; [|now rewrite Ecore].
    rewrite !_filter_fbnl_capped_unfold. cbv zeta.
    destruct (cap_data g data _ _) as [d|e]; [|reflexivity].
    cbn [bind]. now rewrite Ecore.
Qed.

(** X14.  Capping and trimming are inverse to each other: for a cap length
    [k > 0], [cap_data] returns the data with [k] samples added at either
    end, [N + 2 k] samples in all, and the slice [[k:-k]] of what it returns
    is the data. *)
Theorem cap_data_round_trip (g : nat -> F) (data : list F)
        (cap_length inspect_length : Z) :
  0 < cap_length ->
  exists capped,
    cap_data g data cap_length inspect_length = Ok capped
    /\ len capped = len data + 2 * cap_length
    /\ py_slice capped cap_length (- cap_length) = data.
Proof.
  intros Hk.
  destruct (@cap_data_returns _ _ g data cap_length inspect_length)
    as (left & right & E & Hl & Hr); [lia|].
  exists (left ++ data ++ right). split; [exact E|].
  assert (Hlen : len (left ++ data ++ right) = len data + 2 * cap_length)
    by (unfold len; rewrite !length_app; lia).
  split; [exact Hlen|].
  unfold py_slice. rewrite Hlen. unfold clip_index.
  pose proof (len_nonneg data) as Hn.
  destruct (Z.ltb_spec cap_length 0); [lia|].
  destruct (Z.ltb_spec (- cap_length) 0); [|lia].
  rewrite Z.min_l, Z.max_l by lia.
  rewrite skipn_app, skipn_all2 by lia.
  replace (Z.to_nat cap_length - length left)%nat with 0%nat by lia.
  cbn [app skipn].
  rewrite firstn_app, firstn_all2 by (unfold len in *; lia).
  replace (Z.to_nat (- cap_length + (len data + 2 * cap_length) - cap_length)
           - length data)%nat with 0%nat by (unfold len; lia).
  cbn [firstn]. apply app_nil_r.
Qed.

End FilterDefaults.

Lemma filter_fbnl_zero_exponent_witness :
  feqb (-0)%float fzero = true
  /\ filter_fbnl reciprocal_power draws_one five_samples 1000%float 2 None
                 (Some (PyFloat (-0)%float)) true
     = filter_fbnl reciprocal_power draws_one five_samples 1000%float 2 None
                   None true.
Proof.
  assert (H : feqb (-0)%float fzero = true) by reflexivity.
  split; [exact H|].
  exact (proj2 (proj2 (proj2
    (@filter_fbnl_zero_exponent float _ reciprocal_power draws_one
       five_samples 1000%float 2 None true))) (-0)%float H).
Defined.

Lemma cap_data_round_trip_witness :
  exists capped,
    cap_data draws_one nine_samples 7 2 = Ok capped
    /\ len capped = 23
    /\ py_slice capped 7 (-7) = nine_samples.
Proof.
  refine (@cap_data_round_trip float _ draws_one nine_samples 7 2 _). lia.
Defined.

(** ** The filtered signal in exact arithmetic *)

Lemma normalised_weights_convex
      (power : Exact.ereal -> Exact.ereal -> Exact.ereal)
      (p : py_number Exact.ereal) (x y : R) :
  positive_power power ->
  isnan (negated p) = false ->
  (0 < x)%R -> (0 < y)%R ->
  exists u v,
    normalised_weights power p (Some x) (Some y) = (Some u, Some v)
    /\ (u + v = 1)%R /\ (0 < u)%R /\ (0 < v)%R.
Proof.
  intros Hpow Hp Hx Hy. unfold normalised_weights. cbv zeta.
  destruct (negated_defined p Hp) as (e & ->).
  destruct (Hpow x e Hx) as (f & Ef & Hf).
  destruct (Hpow y e Hy) as (b & Eb & Hb).
  rewrite Ef, Eb.
  change (fadd (Some f) (Some b)) with (@Some R (f + b)%R).
  change (@fdiv Exact.ereal _) with Exact.ediv.
  rewrite !ediv_some by lra.
  exists (f / (f + b))%R, (b / (f + b))%R. split; [reflexivity|].
  assert (0 < / (f + b))%R by (apply Rinv_0_lt_compat; lra).
  split; [field; lra|].
  split; unfold Rdiv; apply Rmult_lt_0_compat; assumption.
Qed.

(** X15.  In exact arithmetic the filtered signal lies between the two
    estimates, for every exponent [p] that is a number, integer or not, and
    every power that is positive on positive bases: at every index of a
    result of the filter, capped or not, where both variances are defined
    and positive and both estimates are defined, [data_filtered] is defined
    and [min(xf, xb) <= data_filtered <= max(xf, xb)]. *)
Theorem filter_fbnl_between_estimates
        (np_power : Exact.ereal -> Exact.ereal -> Exact.ereal)
        (g : nat -> Exact.ereal)
        (data : list Exact.ereal) (resolution : Exact.ereal) (window : Z)
        (window_var : option Z) (p : option (py_number Exact.ereal))
        (cap : bool) (fr : FBNLFilterResult.t Exact.ereal) :
  positive_power np_power ->
  filter_fbnl np_power g data resolution window window_var p cap = Ok fr ->
  isnan (negated (FBNLFilterResult.p fr)) = false ->
  forall (i : nat) (x y a c : R),
    nth_error (FBNLFilterResult.sf fr) i = Some (Some x) ->
    nth_error (FBNLFilterResult.sb fr) i = Some (Some y) ->
    (0 < x)%R -> (0 < y)%R ->
    nth_error (FBNLFilterResult.xf fr) i = Some (Some a) ->
    nth_error (FBNLFilterResult.xb fr) i = Some (Some c) ->
    exists z,
      nth_error (FBNLFilterResult.data_filtered fr) i = Some (Some z)
      /\ (Rmin a c <= z <= Rmax a c)%R.
Proof.
  intros Hpow H Hp i x y a c Hsf Hsb Hx Hy Hxf Hxb.
  destruct (filter_fbnl_weights _ _ _ _ _ _ _ _ H _ Hsf Hsb) as [Hf Hb].
  destruct (normalised_weights_convex (FBNLFilterResult.p fr) Hpow Hp Hx Hy)
    as (u & v & E & Hsum & Hu & Hv).
  rewrite E in Hf, Hb. cbn [fst snd] in Hf, Hb.
  destruct (filter_fbnl_entries _ _ _ _ _ _ _ _ H) as (Hdf & _).
  exists (u * a + v * c)%R. split; [exact (Hdf i _ _ _ _ Hf Hb Hxf Hxb)|].
  unfold Rmin, Rmax. destruct (Rle_dec a c); nra.
Qed.

Lemma three_exact_estimates :
  exists r x y a c,
    _filter_fbnl exact_power three_exact (Some 1%R) 1 None
                 (Some (PyFloat (Some (1 / 2)%R)))
    = Ok r
    /\ nth_error (FBNLCore.sf r) 1 = Some (Some x)
    /\ nth_error (FBNLCore.sb r) 1 = Some (Some y)
    /\ nth_error (FBNLCore.xf r) 1 = Some (Some a)
    /\ nth_error (FBNLCore.xb r) 1 = Some (Some c)
    /\ FBNLCore.p r = PyFloat (Some (1 / 2)%R)
    /\ (0 < x)%R /\ (0 < y)%R /\ a = 0%R /\ c = 3%R.
Proof.
  do 5 eexists. split.
  - cbv -[Rplus Rminus Rmult Rdiv Rinv IZR Req_dec_T Rlt_dec sqrt Rabs up
          Rpower Ropp].
    destruct (Req_dec_T (1 / 2) 0) as [E|_]; [lra|].
    destruct (Req_dec_T 1 0) as [E|_]; [lra|]. reflexivity.
  - cbv -[Rplus Rminus Rmult Rdiv Rinv IZR Req_dec_T Rlt_dec sqrt Rabs up
          Rpower Ropp].
    destruct (Req_dec_T (1 / 2) 0) as [E|_]; [lra|].
    destruct (Req_dec_T 1 0) as [E|_]; [lra|].
    split; [reflexivity|]. split; [reflexivity|].
    split; [reflexivity|]. split; [reflexivity|]. split; [reflexivity|].
    repeat split; lra.
Defined.

Lemma filter_fbnl_between_estimates_witness :
  exists fr z,
    filter_fbnl exact_power (fun _ => Some 0%R) three_exact (Some 1%R) 1 None
                (Some (PyFloat (Some (1 / 2)%R))) false
    = Ok fr
    /\ nth_error (FBNLFilterResult.data_filtered fr) 1 = Some (Some z)
    /\ (0 <= z <= 3)%R.
Proof.
  destruct three_exact_estimates
    as (r & x & y & a & c & E & Hsf & Hsb & Hxf & Hxb & Hp & Hx & Hy & Ha
        & Hc).
  assert (H : exists fr,
             filter_fbnl exact_power (fun _ => Some 0%R) three_exact
                         (Some 1%R) 1 None (Some (PyFloat (Some (1 / 2)%R)))
                         false = Ok fr
             /\ FBNLFilterResult.sf fr = FBNLCore.sf r
             /\ FBNLFilterResult.sb fr = FBNLCore.sb r
             /\ FBNLFilterResult.xf fr = FBNLCore.xf r
             /\ FBNLFilterResult.xb fr = FBNLCore.xb r
             /\ FBNLFilterResult.p fr = FBNLCore.p r).
  { unfold filter_fbnl. rewrite E. cbn [bind]. eexists.
    split; [reflexivity|]. repeat split. }
  destruct H as (fr & Hfr & Esf & Esb & Exf & Exb & Ep).
  rewrite <- Esf in Hsf. rewrite <- Esb in Hsb.
  rewrite <- Exf in Hxf. rewrite <- Exb in Hxb. rewrite <- Ep in Hp.
  assert (Hnan : isnan (negated (FBNLFilterResult.p fr)) = false)
    by (rewrite Hp; reflexivity).
  destruct (@filter_fbnl_between_estimates exact_power _ _ _ _ _ _ _ fr
              exact_power_positive Hfr Hnan _ _ _ _ _ Hsf Hsb Hx Hy
              Hxf Hxb) as (z & Hz & Hle).
  exists fr, z. split; [exact Hfr|]. split; [exact Hz|].
  subst a c. unfold Rmin, Rmax in Hle.
  destruct (Rle_dec 0 3); lra.
Defined.

(* ================================================================== *)
(** * Properties: the samples that the quality scorer reads *)
(* ================================================================== *)

(** The two index ranges of a step keep away from the ends of their
    plateaus. *)
Lemma half_plateaus_ranges (window start_min stop_max : Z)
      (p_l p_r : segment) :
  let halves := half_plateaus window start_min stop_max p_l p_r in
  let start_l := fst (fst halves) in
  let stop_l := snd (fst halves) in
  let start_r := fst (snd halves) in
  let stop_r := snd (snd halves) in
  start_l <= stop_l /\ start_r <= stop_r
  /\ Z.max (midpoint_up (fst p_l) (snd p_l))
           (Z.max (fst p_l + window) start_min) <= start_l
  /\ (stop_l = start_l \/ stop_l = snd p_l - window)
  /\ stop_r <= Z.min (midpoint_down (fst p_r) (snd p_r))
                     (Z.min (snd p_r - window) stop_max)
  /\ (start_r = stop_r \/ start_r = fst p_r + window).
Proof.
  cbv zeta. unfold half_plateaus. cbn [fst snd]. lia.
Qed.

(** X16.  The scorer reads a step's samples only away from the step and
    from the far ends of its two plateaus: every index of the left range is
    at least [window] samples from both ends of the left plateau, in its
    half next to the step (not before the rounded midpoint) and not before
    [start_min = window + window_var - 1]; every index of the right range
    is at least [window] samples from both ends of the right plateau,
    before its rounded midpoint and before [stop_max].  Neither range is
    inverted, and a plateau of at most [2 * window] samples contributes no
    sample. *)
Theorem half_plateaus_keep_distance (window start_min stop_max : Z)
        (p_l p_r : segment) :
  let halves := half_plateaus window start_min stop_max p_l p_r in
  let start_l := fst (fst halves) in
  let stop_l := snd (fst halves) in
  let start_r := fst (snd halves) in
  let stop_r := snd (snd halves) in
  start_l <= stop_l /\ start_r <= stop_r
  /\ (forall k, start_l <= k < stop_l ->
                fst p_l + window <= k < snd p_l - window
                /\ midpoint_up (fst p_l) (snd p_l) <= k
                /\ start_min <= k)
  /\ (forall k, start_r <= k < stop_r ->
                fst p_r + window <= k < snd p_r - window
                /\ k < midpoint_down (fst p_r) (snd p_r)
                /\ k < stop_max)
  /\ (snd p_l - fst p_l <= 2 * window -> start_l = stop_l)
  /\ (snd p_r - fst p_r <= 2 * window -> start_r = stop_r).
Proof.
  pose proof (half_plateaus_ranges window start_min stop_max p_l p_r) as H.
  cbv zeta in *.
  destruct H as (H1 & H2 & H3 & H4 & H5 & H6).
  split; [exact H1|]. split; [exact H2|].
  split; [intros k Hk; lia|]. split; [intros k Hk; lia|].
  split; intros Hshort; lia.
Qed.

Lemma py_slice_empty {A : Type} (l : list A) (a : Z) : py_slice l a a = [].
Proof. unfold py_slice. now rewrite Z.sub_diag. Qed.

(** X17.  A step between two plateaus of at most [2 * window] samples has
    no quality: [get_step_qualities] finds no sample for it, its mean noise
    is NaN and so is its score [step_noise / step_sd] (binary64). *)
Theorem get_step_qualities_short_plateaus (steps : Steps.t float)
        (fbnl_filter : FBNLFilterResult.t float) (i : nat)
        (p_l p_r : segment) :
  plateaus_fit steps ->
  nth_error (Steps.plateaus steps) i = Some p_l ->
  nth_error (Steps.plateaus steps) (S i) = Some p_r ->
  snd p_l - fst p_l <= 2 * FBNLFilterResult.window fbnl_filter ->
  snd p_r - fst p_r <= 2 * FBNLFilterResult.window fbnl_filter ->
  exists q,
    get_step_qualities steps fbnl_filter = Ok q
    /\ (i < length (StepQuality.step_noise_over_sd q))%nat
    /\ PrimFloat.is_nan (nth i (StepQuality.step_noise q) 0%float) = true
    /\ PrimFloat.is_nan (nth i (StepQuality.step_noise_over_sd q) 0%float)
       = true.
Proof.
  intros Hfit Hl Hr Hsl Hsr.
  pose proof (get_step_qualities_returns fbnl_filter Hfit) as Hq.
  cbv zeta in Hq. eexists. split; [exact Hq|].
  cbn [StepQuality.step_noise StepQuality.step_noise_over_sd].
  destruct Hfit as [Hp Hh].
  assert (Hi : (S i < length (Steps.plateaus steps))%nat)
    by (apply nth_error_Some; congruence).
  destruct (nth_error (Steps.plateau_heights steps) i) as [ph_l|] eqn:Ehl;
    [|apply nth_error_None in Ehl; lia].
  destruct (nth_error (Steps.plateau_heights steps) (S i)) as [ph_r|] eqn:Ehr;
    [|apply nth_error_None in Ehr; lia].
  pose proof (nth_error_plateau_joins _ _ _ Hl Hr Ehl Ehr) as Hj.
  set (window := FBNLFilterResult.window fbnl_filter) in *.
  set (start_min := window + FBNLFilterResult.window_var fbnl_filter - 1) in *.
  set (stop_max := len (FBNLFilterResult.noise fbnl_filter) - start_min) in *.
  set (data := FBNLFilterResult.data fbnl_filter) in *.
  set (noise := FBNLFilterResult.noise fbnl_filter) in *.
  set (joins := plateau_joins _ _) in *.
  assert (Hn : nth_error (map (noise_of data noise window start_min stop_max)
                              joins) i = Some PrimFloat.nan).
  { rewrite (nth_error_map _ _ _), Hj. cbn [option_map]. f_equal.
    unfold noise_of, step_quality. cbn [fst snd].
    pose proof (half_plateaus_ranges window start_min stop_max p_l p_r) as H.
    cbv zeta in H.
    destruct (half_plateaus window start_min stop_max p_l p_r)
      as [[start_l stop_l] [start_r stop_r]].
    cbn [fst snd] in *.
    replace stop_l with start_l by lia. replace start_r with stop_r by lia.
    rewrite !py_slice_empty. reflexivity. }
  destruct (nth_error (map (sd_of data noise window start_min stop_max) joins) i)
    as [sd|] eqn:Esd.
  2:{ apply nth_error_None in Esd. rewrite length_map in Esd.
      assert (i < length joins)%nat by (apply nth_error_Some; congruence).
      lia. }
  assert (Hr' : nth_error
                  (zip_with fdiv
                     (map (noise_of data noise window start_min stop_max) joins)
                     (map (sd_of data noise window start_min stop_max) joins))
                  i = Some (fdiv PrimFloat.nan sd))
    by (now rewrite nth_error_zip_with, Hn, Esd).
  split; [apply nth_error_Some; congruence|].
  rewrite (nth_error_nth _ _ _ Hn), (nth_error_nth _ _ _ Hr').
  split; [reflexivity|now apply is_nan_div_l].
Qed.

Lemma get_step_qualities_short_plateaus_witness :
  plateaus_fit clean_steps
  /\ exists q,
       get_step_qualities clean_steps
         (FBNLFilterResult.mk
            (FBNLFilterResult.data clean_trace) 1000%float 4 4 (PyInt 1) []
            [] [] [] [] [] [] [] [] (FBNLFilterResult.noise clean_trace)
            1%float PrimFloat.nan PrimFloat.nan PrimFloat.nan [])
       = Ok q
       /\ PrimFloat.is_nan (nth 0 (StepQuality.step_noise_over_sd q) 0%float)
          = true.
Proof.
  assert (Hfit : plateaus_fit clean_steps) by (split; reflexivity).
  split; [exact Hfit|].
  destruct (@get_step_qualities_short_plateaus clean_steps
              (FBNLFilterResult.mk
                 (FBNLFilterResult.data clean_trace) 1000%float 4 4
                 (PyInt 1) [] [] [] [] [] [] [] [] []
                 (FBNLFilterResult.noise clean_trace) 1%float PrimFloat.nan
                 PrimFloat.nan PrimFloat.nan [])
              0%nat (0, 6) (6, 14) Hfit)
    as (q & Hq & _ & _ & Hnan); try reflexivity; try (cbn; lia).
  exists q. split; [exact Hq|exact Hnan].
Defined.

(** ** The outlier threshold in exact arithmetic *)

(** X18.  In exact arithmetic the threshold that [iqr_outlier_threshold]
    returns is the interquartile range times [iqr_factor + 1/2]: half the
    distance between the fences [qrt3 + iqr * iqr_factor] and
    [qrt1 - iqr * iqr_factor], not [iqr * iqr_factor] itself. *)
Theorem iqr_outlier_threshold_half_width (signal : list Exact.ereal)
        (iqr_factor qrt1 qrt3 : R) :
  let values := filter (fun x => negb (isnan x)) signal in
  quartile_midpoint 1 values = Some qrt1 ->
  quartile_midpoint 3 values = Some qrt3 ->
  iqr_outlier_threshold signal (Some iqr_factor)
  = Some ((qrt3 - qrt1) * (iqr_factor + 1 / 2))%R.
Proof.
  cbv zeta. intros H1 H3. unfold iqr_outlier_threshold. cbv zeta.
  rewrite H1, H3. cbn [fsub fadd fmul fdiv of_Z ereal_scalar Exact.lift2].
  rewrite ediv_some by lra. f_equal. field.
Qed.

Lemma iqr_outlier_threshold_half_width_witness :
  iqr_outlier_threshold [Some 1%R; None; Some 3%R; Some 5%R] (Some 3%R)
  = Some ((4 - 2) * (3 + 1 / 2))%R.
Proof.
  apply iqr_outlier_threshold_half_width.
  - cbv -[Rplus Rminus Rmult Rdiv Rinv IZR Req_dec_T Rlt_dec].
    destruct (Rlt_dec 5 3) as [E|_]; [lra|].
    destruct (Rlt_dec 3 1) as [E|_]; [lra|].
    destruct (Req_dec_T 2 0) as [E|_]; [lra|]. f_equal. field.
  - cbv -[Rplus Rminus Rmult Rdiv Rinv IZR Req_dec_T Rlt_dec].
    destruct (Rlt_dec 5 3) as [E|_]; [lra|].
    destruct (Rlt_dec 3 1) as [E|_]; [lra|].
    destruct (Req_dec_T 2 0) as [E|_]; [lra|]. f_equal. field.
Defined.
(* ================================================================== *)
(** * Properties: the pruner in exact arithmetic *)
(* ================================================================== *)

Section FuseSums.

Lemma fuse_at_cons {A : Type} (k : nat) (v x : A) (l : list A) :
  fuse_at (S k) v (x :: l) = x :: fuse_at k v l.
Proof. reflexivity. Qed.

Lemma fuse_at_map {A B : Type} (f : A -> B) (k : nat) (v : A) (l : list A) :
  fuse_at k (f v) (map f l) = map f (fuse_at k v l).
Proof.
  unfold fuse_at. now rewrite map_app, firstn_map, skipn_map.
Qed.

Lemma zip_with_fuse_at {A B C : Type} (g : A -> B -> C) (k : nat) (a : A)
      (b : B) (la : list A) (lb : list B) :
  (S k < length la)%nat -> length lb = length la ->
  zip_with g (fuse_at k a la) (fuse_at k b lb)
  = fuse_at k (g a b) (zip_with g la lb).
Proof.
  revert la lb. induction k as [|k IH]; intros la lb Hk Hl.
  - destruct la as [|x [|x' ta]]; simpl in Hk; try lia.
    destruct lb as [|y [|y' tb]]; simpl in Hl; try lia.
    reflexivity.
  - destruct la as [|x ta]; simpl in Hk; try lia.
    destruct lb as [|y tb]; simpl in Hl; try lia.
    cbn [zip_with]. rewrite !fuse_at_cons. cbn [zip_with].
    f_equal. apply IH; lia.
Qed.

Lemma sum_fuse_at (k : nat) (t : R) (l : list R) :
  (S k < length l)%nat ->
  (fold_right Rplus 0 (fuse_at k t l)
   = fold_right Rplus 0 l - nth k l 0 - nth (S k) l 0 + t)%R.
Proof.
  revert l. induction k as [|k IH]; intros l Hk.
  - destruct l as [|x [|x' tl]]; simpl in Hk; try lia.
    unfold fuse_at. cbn. lra.
  - destruct l as [|x tl]; simpl in Hk; try lia.
    rewrite fuse_at_cons. cbn [fold_right nth]. rewrite IH by lia. lra.
Qed.

Lemma nth_zip_with {A B C : Type} (g : A -> B -> C) (la : list A)
      (lb : list B) (k : nat) (da : A) (db : B) (dc : C) :
  (k < length la)%nat -> (k < length lb)%nat ->
  nth k (zip_with g la lb) dc = g (nth k la da) (nth k lb db).
Proof.
  intros Ha Hb. apply nth_error_nth.
  rewrite nth_error_zip_with.
  now rewrite (@nth_error_in_range _ la k da), (@nth_error_in_range _ lb k db).
Qed.

End FuseSums.

(** The removal of a step keeps the plateau heights defined, and it keeps
    their weighted sum. *)
Lemma removed_weighted_sum (st : Pruner.state Exact.ereal) (hs : list R) :
  consistent st ->
  0 <= Pruner.i st < Pruner.num_steps st ->
  seg_len (left_plateau st (Z.to_nat (Pruner.i st)))
  + seg_len (right_plateau st (Z.to_nat (Pruner.i st))) <> 0 ->
  split_at (Pruner.plateaus st) (Pruner.indices st) ->
  Pruner.p_heights st = map Some hs ->
  exists hs',
    Pruner.p_heights (removed st) = map Some hs'
    /\ weighted_sum (Pruner.plateaus (removed st)) hs'
       = weighted_sum (Pruner.plateaus st) hs.
Proof.
  intros Hc Hcur Hlr Hsp Hhs.
  pose proof Hc as (Hn & Hi & Hd & Hb & Hs & Hm & Hp & Hcc & Hh & Hw).
  unfold removed. cbn -[Z.max Z.sub Z.add].
  set (k := Z.to_nat (Pruner.i st)) in *.
  set (pls := Pruner.plateaus st) in *.
  assert (Hlp : length pls = S (length (Pruner.indices st)))
    by (unfold len in *; lia).
  assert (Hlh : length hs = length pls).
  { rewrite <- (length_map (@Some R)), <- Hhs. unfold len in *. lia. }
  assert (Hk : (S k < length pls)%nat) by (unfold len in *; lia).
  pose proof (@nth_error_in_range _ pls k (0, 0) ltac:(lia)) as Ek.
  pose proof (@nth_error_in_range _ pls (S k) (0, 0) ltac:(lia)) as Ek1.
  pose proof (split_at_chained k Hsp Hlp Ek Ek1) as Hch.
  unfold weighted_height, left_plateau, right_plateau, seg_len in *.
  fold pls in Hlr |- *.
  set (pl := nth k pls (0, 0)) in *. set (pr := nth (S k) pls (0, 0)) in *.
  set (l := snd pl - fst pl) in *. set (r := snd pr - fst pr) in *.
  rewrite Hhs.
  rewrite (@nth_indep _ (map Some hs) k None (Some 0%R))
    by (rewrite length_map; lia).
  rewrite (@nth_indep _ (map Some hs) (S k) None (Some 0%R))
    by (rewrite length_map; lia).
  rewrite !(map_nth (@Some R)).
  set (hl := nth k hs 0%R). set (hr := nth (S k) hs 0%R).
  cbn [fmul fadd fdiv of_Z ereal_scalar Exact.lift2].
  assert (Hne : IZR (l + r) <> 0%R) by (now apply not_0_IZR).
  rewrite ediv_some by exact Hne.
  set (h := ((hl * IZR l + hr * IZR r) / IZR (l + r))%R).
  exists (fuse_at k h hs). split; [apply fuse_at_map|].
  unfold weighted_sum.
  rewrite zip_with_fuse_at by lia.
  rewrite sum_fuse_at by (rewrite length_zip_with; lia).
  rewrite (@nth_zip_with _ _ _ _ pls hs k (0, 0) 0%R) by lia.
  rewrite (@nth_zip_with _ _ _ _ pls hs (S k) (0, 0) 0%R) by lia.
  fold pl pr hl hr. cbn [fst snd].
  replace (snd pr - fst pl) with (l + r) by (subst l r; lia).
  fold l r. subst h. rewrite plus_IZR in *. field. exact Hne.
Qed.

(** X19.  In exact arithmetic [delete_small_steps] keeps the sum of the
    plateau heights weighted with the plateau lengths,
    [sum(plateau_heights[j] * (stop[j] - start[j]))]: on a [Steps] value
    with consistent lengths, plateaus that lie between the step indices and
    plateau heights that are all defined, the heights it returns are
    defined and have the same weighted sum.  So plateau heights that are
    the means of the data stay consistent with the sum of the data. *)
Theorem delete_small_steps_keeps_weighted_sum
        (steps steps' : Steps.t Exact.ereal) (ms : list Exact.ereal)
        (hs : list R) :
  steps_consistent steps ms ->
  split_at (Steps.plateaus steps) (Steps.indices steps) ->
  Steps.plateau_heights steps = map Some hs ->
  delete_small_steps steps ms = Ok steps' ->
  exists hs',
    Steps.plateau_heights steps' = map Some hs'
    /\ weighted_sum (Steps.plateaus steps') hs'
       = weighted_sum (Steps.plateaus steps) hs.
Proof.
  intros Hc Hsp Hhs H.
  destruct (@delete_small_steps_ends _ _
              (fun st =>
                 split_at (Pruner.plateaus st) (Pruner.indices st)
                 /\ exists hs',
                      Pruner.p_heights st = map Some hs'
                      /\ weighted_sum (Pruner.plateaus st) hs'
                         = weighted_sum (Steps.plateaus steps) hs)
              steps steps' ms) as (st & -> & (_ & HP) & _); try assumption.
  - auto.
  - intros st Hcs Hcur Hlr (H1 & hs1 & H2 & H3). split.
    + now apply removed_split_at.
    + destruct (@removed_weighted_sum st hs1 Hcs Hcur Hlr H1 H2)
        as (hs2 & E1 & E2).
      exists hs2. split; [exact E1|congruence].
  - split; [exact Hsp|]. exists hs. now split.
Qed.

Lemma delete_small_steps_keeps_weighted_sum_witness :
  steps_consistent one_exact_step high_threshold
  /\ exists steps' hs',
       delete_small_steps one_exact_step high_threshold = Ok steps'
       /\ Steps.plateaus steps' = [(0, 4)]
       /\ Steps.plateau_heights steps' = map Some hs'
       /\ weighted_sum (Steps.plateaus steps') hs' = (1 * 2 + (3 * 2 + 0))%R.
Proof.
  assert (Hc : steps_consistent one_exact_step high_threshold)
    by (unfold steps_consistent, consistent; cbn; repeat split;
        reflexivity || lia).
  split; [exact Hc|].
  assert (Hsp : split_at (Steps.plateaus one_exact_step)
                         (Steps.indices one_exact_step)).
  { intros [|j] idx Hj; cbn in Hj; [|destruct j; discriminate].
    injection Hj as <-. cbn. eauto 10. }
  assert (Hrun : exists steps',
             delete_small_steps one_exact_step high_threshold = Ok steps'
             /\ Steps.plateaus steps' = [(0, 4)]).
  { cbv -[Rplus Rminus Rmult Rdiv Rinv IZR Req_dec_T Rlt_dec sqrt Rabs up].
    destruct (Rlt_dec (Rabs 2) 5) as [_|E].
    - eexists. split; reflexivity.
    - exfalso. apply E. rewrite Rabs_pos_eq; lra. }
  destruct Hrun as (steps' & Hrun & Hpl).
  destruct (@delete_small_steps_keeps_weighted_sum
              one_exact_step steps' high_threshold [1%R; 3%R] Hc Hsp
              eq_refl Hrun) as (hs' & Hh & Hsum).
  exists steps', hs'. split; [exact Hrun|]. split; [exact Hpl|].
  split; [exact Hh|]. rewrite Hsum. cbn. lra.
Defined.

(* ================================================================== *)
(** * Properties: the windows of the bank and the whole analysis *)
(* ================================================================== *)

Lemma increasing_nil : increasing [].
Proof. intros i j a b _ H. destruct i; discriminate. Qed.

Lemma increasing_cons (x : Z) (l : list Z) :
  increasing l -> (forall y, In y l -> x < y) -> increasing (x :: l).
Proof.
  intros Hl Hx [|i] [|j] a b Hij Ha Hb; try lia; cbn in Ha, Hb.
  - injection Ha as <-. apply Hx. eapply nth_error_In; exact Hb.
  - eapply (Hl i j); try eassumption. lia.
Qed.

Lemma increasing_tail (x : Z) (l : list Z) :
  increasing (x :: l) -> increasing l /\ forall y, In y l -> x < y.
Proof.
  intros H. split.
  - intros i j a b Hij Ha Hb. apply (H (S i) (S j)); [lia|exact Ha|exact Hb].
  - intros y Hy. apply In_nth_error in Hy. destruct Hy as (j & Hj).
    apply (H 0%nat (S j)); [lia|reflexivity|exact Hj].
Qed.

Lemma In_insert_unique (x y : Z) (l : list Z) :
  In y (insert_unique x l) <-> y = x \/ In y l.
Proof.
  induction l as [|z t IH]; cbn.
  - intuition.
  - destruct (Z.ltb_spec x z); [cbn; intuition|].
    destruct (Z.eqb_spec x z); cbn; [subst; intuition|].
    rewrite IH. intuition.
Qed.

Lemma increasing_insert_unique (x : Z) (l : list Z) :
  increasing l -> increasing (insert_unique x l).
Proof.
  induction l as [|z t IH]; intros Hl; cbn.
  - apply increasing_cons; [apply increasing_nil|]. intros y [].
  - destruct (increasing_tail Hl) as (Ht & Hz).
    destruct (Z.ltb_spec x z).
    + apply increasing_cons; [exact Hl|].
      intros y [<-|Hy]; [assumption|]. specialize (Hz y Hy). lia.
    + destruct (Z.eqb_spec x z); [exact Hl|].
      apply increasing_cons; [now apply IH|].
      intros y Hy. apply In_insert_unique in Hy.
      destruct Hy as [->|Hy]; [lia|now apply Hz].
Qed.

Lemma length_insert_unique (x : Z) (l : list Z) :
  (length (insert_unique x l) <= S (length l))%nat.
Proof.
  induction l as [|z t IH]; cbn; [lia|].
  destruct (x <? z); [cbn; lia|]. destruct (x =? z); cbn; lia.
Qed.

(** [np.unique]: the values of the array, in strictly increasing order. *)
Lemma np_unique_spec (l : list Z) :
  increasing (np_unique l)
  /\ (forall y, In y (np_unique l) <-> In y l)
  /\ (length (np_unique l) <= length l)%nat.
Proof.
  induction l as [|x t (Hs & Hi & Hl)].
  - split; [apply increasing_nil|]. split; [reflexivity|cbn; lia].
  - change (np_unique (x :: t)) with (insert_unique x (np_unique t)).
    split; [now apply increasing_insert_unique|]. split.
    + intros y. rewrite In_insert_unique, Hi. cbn. intuition.
    + pose proof (length_insert_unique x (np_unique t)). cbn [length]. lia.
Qed.

Lemma first_index_found (v : Z) (a : list Z) :
  In v a -> exists i, first_index v a = Some i /\ nth_error a i = Some v.
Proof.
  induction a as [|x t IH]; intros H; [destruct H|]. cbn.
  destruct (Z.eqb_spec x v) as [->|Hne].
  - exists 0%nat. now split.
  - destruct H as [H|H]; [contradiction|].
    destruct (IH H) as (i & E & Hi). exists (S i). rewrite E. now split.
Qed.

Lemma first_index_nth_error (v : Z) (a : list Z) (i : nat) :
  first_index v a = Some i -> nth_error a i = Some v.
Proof.
  revert i. induction a as [|x t IH]; intros i H; [discriminate|].
  cbn in H. destruct (Z.eqb_spec x v) as [->|Hne].
  - now injection H as <-.
  - destruct (first_index v t) as [k|]; [|discriminate].
    injection H as <-. now apply IH.
Qed.

Section WindowFacts.

Context {F : Type} {SF : Scalar F}.

Variable np_power : F -> F -> F.

Lemma or_default_twice (x : option Z) (d : Z) :
  or_default (Some (or_default x d)) d = or_default x d.
Proof.
  unfold or_default. destruct x as [v|].
  - destruct (Z.eqb_spec v 0) as [->|Hv].
    + now destruct (d =? 0).
    + now rewrite (proj2 (Z.eqb_neq v 0) Hv).
  - now destruct (d =? 0).
Qed.

Lemma _filter_fbnl_window (data : list F) (resolution : F) (window : Z)
      (window_var : option Z)
      (p : option (py_number F)) (r : FBNLCore.t F) :
  _filter_fbnl np_power data resolution window window_var p = Ok r ->
  FBNLCore.window r = window
  /\ FBNLCore.window_var r = or_default window_var window.
Proof.
  unfold _filter_fbnl. cbv zeta. intros H.
  destruct (np_set_slice _ _ _ _) as [xb|e]; cbn [bind] in H; [|discriminate].
  destruct (np_set_slice _ _ _ _) as [xf|e]; cbn [bind] in H; [|discriminate].
  destruct (py_set _ _ _) as [sf0|e]; cbn [bind] in H; [|discriminate].
  destruct (py_set _ _ _) as [sb0|e]; cbn [bind] in H; [|discriminate].
  destruct (_iterative_variance _ _ _ _ _ _ _ _) as [sf sb].
  injection H as <-. now split.
Qed.

(** The window lengths in a result of the filter are those it was called
    with. *)
Lemma filter_fbnl_window (g : nat -> F) (data : list F) (resolution : F)
      (window : Z) (window_var : option Z)
      (p : option (py_number F)) (cap : bool)
      (fr : FBNLFilterResult.t F) :
  filter_fbnl np_power g data resolution window window_var p cap = Ok fr ->
  FBNLFilterResult.window fr = window
  /\ FBNLFilterResult.window_var fr = or_default window_var window.
Proof.
  unfold filter_fbnl. intros H.
  destruct ((if cap then _filter_fbnl_capped np_power g
             else _filter_fbnl np_power)
              data resolution window window_var p) as [r|e] eqn:E;
    cbn [bind] in H; [|discriminate].
  injection H as <-.
  cbn [FBNLFilterResult.window FBNLFilterResult.window_var].
  destruct cap.
  - rewrite _filter_fbnl_capped_unfold in E. cbv zeta in E.
    destruct (cap_data g data _ _) as [d|e]; cbn [bind] in E; [|discriminate].
    destruct (_filter_fbnl np_power d resolution window _ p) as [r0|e] eqn:E0;
      cbn [bind] in E; [|discriminate].
    injection E as <-. apply _filter_fbnl_window in E0.
    unfold trimmed. cbn [FBNLCore.window FBNLCore.window_var].
    destruct E0 as (-> & ->). split; [reflexivity|apply or_default_twice].
  - now apply _filter_fbnl_window in E.
Qed.

End WindowFacts.

Section BankFacts.

Context {F : Type} {SF : Scalar F}.

Variable np_log10 : F -> F.
Variable np_logspace : F -> F -> Z -> outcome (list F).
Variable np_power : F -> F -> F.
Variable get_contiguous_segments : list bool -> Z -> Z -> Z -> list segment.
Variable _delete_close_center :
  list segment -> list bool -> Z -> Z -> bool -> list segment * list bool.

(** X20.  The windows that [log_spaced_time_windows] (and with it
    [log_spaced_ints]) returns are strictly increasing, hence without
    repetitions; they are the rounded samples of [np.logspace], each of
    them once, so there can be fewer of them than samples. *)
Theorem log_spaced_time_windows_increasing (tmin : F)
        (tmax resolution : option F) (number : option Z)
        (windows : list Z) :
  log_spaced_time_windows np_log10 np_logspace tmin tmax resolution number
  = Ok windows ->
  increasing windows
  /\ exists (start stop : F) (samples : list F),
       log_spaced_ints np_log10 np_logspace start stop (or_default number 1)
       = Ok windows
       /\ np_logspace (np_log10 start) (np_log10 stop) (or_default number 1)
          = Ok samples
       /\ (length windows <= length samples)%nat
       /\ forall w,
            In w windows
            <-> exists x, In x samples /\ w = round_astype_int x.
Proof.
  unfold log_spaced_time_windows. cbv zeta.
  set (start := fmul tmin _). set (stop := fmul _ _).
  intros H. pose proof H as H'. unfold log_spaced_ints in H'.
  destruct (np_logspace (np_log10 start) (np_log10 stop)
                        (or_default number 1)) as [samples|e] eqn:E;
    cbn [bind] in H'; [|discriminate].
  injection H' as <-.
  destruct (np_unique_spec (map round_astype_int samples)) as (Hs & Hi & Hl).
  split; [exact Hs|].
  exists start, stop, samples. split; [exact H|]. split; [exact E|].
  split; [now rewrite length_map in Hl|].
  intros w. rewrite Hi, in_map_iff. split.
  - intros (x & <- & Hx). eauto.
  - intros (x & Hx & ->). eauto.
Qed.

(** X21.  [filter_find_analyse_steps] returns [None], without an analysis,
    exactly when neither [filter_time] nor a [filter_min_t] other than zero
    is given: a [filter_max_t] alone does not count as a filter time.  In
    every other case it returns a result or raises. *)
Theorem filter_find_analyse_steps_without_filter_time (g : nat -> F)
        (data : list F) (resolution : F)
        (filter_time filter_min_t filter_max_t : option F)
        (filter_number : option Z)
        (edginess : option (py_number F))
        (expected_min_step_size expected_min_dwell_t : option F)
        (step_size_threshold : option (threshold_policy F))
        (cap verbose : bool) :
  filter_find_analyse_steps np_log10 np_logspace np_power
                            get_contiguous_segments
                            _delete_close_center g data resolution
                            filter_time filter_min_t filter_max_t
                            filter_number edginess expected_min_step_size
                            expected_min_dwell_t step_size_threshold cap
                            verbose
  = Ok None
  <-> filter_time = None /\ truthy filter_min_t = false.
Proof.
  unfold filter_find_analyse_steps. cbv zeta. split.
  - intros H. destruct (truthy filter_min_t) eqn:Et.
    + exfalso. destruct filter_min_t as [m|]; [|discriminate Et].
      repeat (match type of H with
              | bind ?m _ = _ => destruct m; cbn [bind] in H
              end; try discriminate).
    + destruct filter_time as [t|]; [|now split].
      exfalso. unfold or_else in H.
      destruct (truthy filter_max_t) eqn:Em;
        [destruct filter_max_t as [m|]; [|discriminate Em]|];
        repeat (match type of H with
                | bind ?m _ = _ => destruct m; cbn [bind] in H
                end; try discriminate).
  - intros [-> Et]. rewrite Et. reflexivity.
Qed.

Lemma find_and_analyse_steps_filter (window_type : int_type)
      (fbnl_filter : FBNLFilterResult.t F)
      (expected_min_step_size expected_min_dwell_t : option F)
      (switch_accept : bool)
      (step_size_threshold : option (threshold_policy F))
      (res : StepFinderResult.t F) :
  find_and_analyse_steps get_contiguous_segments _delete_close_center
                         window_type fbnl_filter expected_min_step_size
                         expected_min_dwell_t switch_accept
                         step_size_threshold
  = Ok res ->
  StepFinderResult.fbnl_filter res = fbnl_filter.
Proof.
  intros H. unfold find_and_analyse_steps in H.
  destruct (match expected_min_dwell_t with
            | Some t => _
            | None => _
            end) as [ems|e]; cbn [bind] in H; [|discriminate].
  destruct (int_truediv _ _ _) as [mdt|e]; cbn [bind] in H; [|discriminate].
  destruct (Heap.alloc _ _) as [r h].
  destruct (fst (find_steps _ _ _ _ _ _ _ _ _ _)) as [found|e];
    cbn [bind] in H; [|discriminate].
  destruct (0 <? Found.number found).
  - destruct (analyse_steps _ _ _) as [[ss hs] dw].
    destruct (get_min_step_sizes _ _ _ _) as [ms pol].
    destruct (get_step_qualities _ _) as [qpre|e] in H;
      cbn [bind] in H; [|discriminate].
    destruct (delete_small_steps _ _) as [steps|e] in H;
      cbn [bind] in H; [|discriminate].
    destruct (get_min_step_sizes _ _ _ _) as [ms' pol'].
    destruct (get_step_qualities steps fbnl_filter) as [q|e];
      cbn [bind] in H; [|discriminate].
    now injection H as <-.
  - now injection H as <-.
Qed.

(** X22.  With a [filter_time], the analysis is the one of a single filter
    whose window is the filter time in samples: when
    [filter_find_analyse_steps] returns a result, the window and the
    variance window of its filter are
    [max(int(round(filter_time * resolution)), 1)], whatever
    [filter_min_t], [filter_max_t] and [filter_number] are; this window is
    one of the strictly increasing windows of the bank; the filter of the
    result is what [filter_fbnl] returns for this window (and the variates
    that the random generator draws after the bank), and the steps are what
    [find_and_analyse_steps] finds on it. *)
Theorem filter_find_analyse_steps_filter_time (g : nat -> F)
        (data : list F) (resolution t : F)
        (filter_min_t filter_max_t : option F)
        (filter_number : option Z)
        (edginess : option (py_number F))
        (expected_min_step_size expected_min_dwell_t : option F)
        (step_size_threshold : option (threshold_policy F))
        (cap verbose : bool)
        (bank : FBNLFilterBankResult.t F) (res : StepFinderResult.t F) :
  filter_find_analyse_steps np_log10 np_logspace np_power
                            get_contiguous_segments
                            _delete_close_center g data resolution
                            (Some t) filter_min_t filter_max_t
                            filter_number edginess expected_min_step_size
                            expected_min_dwell_t step_size_threshold cap
                            verbose
  = Ok (Some (bank, res)) ->
  exists (e : Z) (drawn : nat),
    int_round (fmul t resolution) = Ok e
    /\ FBNLFilterResult.window (FBNLFilterBankResult.selected bank)
       = Z.max e 1
    /\ FBNLFilterResult.window_var (FBNLFilterBankResult.selected bank)
       = Z.max e 1
    /\ In (Z.max e 1) (FBNLFilterBankResult.windows bank)
    /\ increasing (FBNLFilterBankResult.windows bank)
    /\ filter_fbnl np_power (fun k => g (k + drawn)%nat) data resolution
                   (Z.max e 1) (Some (Z.max e 1)) edginess cap
       = Ok (FBNLFilterBankResult.selected bank)
    /\ find_and_analyse_steps get_contiguous_segments _delete_close_center
                              numpy_int64
                              (FBNLFilterBankResult.selected bank)
                              expected_min_step_size expected_min_dwell_t
                              true step_size_threshold
       = Ok res
    /\ StepFinderResult.fbnl_filter res = FBNLFilterBankResult.selected bank.
Proof.
  unfold filter_find_analyse_steps. cbv zeta. intros H.
  destruct (if truthy filter_min_t then filter_min_t else _) as [fmin|];
    [|discriminate].
  destruct (log_spaced_time_windows _ _ _ _ _ _) as [windows0|e0];
    cbn [bind] in H; [|discriminate].
  destruct (int_round (fmul t resolution)) as [e|e0] eqn:Ee;
    cbn [bind] in H; [|discriminate].
  set (windows := np_unique (Z.max e 1 :: windows0)) in *.
  destruct (np_where_first windows (Z.max e 1)) as [i|e0] eqn:Ei;
    cbn [bind fst snd] in H; [|discriminate].
  destruct (fold_left _ windows _) as [swept|e0]; cbn [bind] in H;
    [|discriminate].
  destruct (py_get windows (Z.of_nat i)) as [window|e0] eqn:Ew;
    cbn [bind] in H; [|discriminate].
  destruct (if verbose then _ else _) as [window_time|e0];
    cbn [bind] in H; [|discriminate].
  destruct (filter_fbnl _ _ data resolution window (Some window) edginess cap)
    as [fr|e0] eqn:Ef; cbn [bind] in H; [|discriminate].
  destruct (find_and_analyse_steps _ _ _ fr _ _ _ _) as [res0|e0] eqn:Er;
    cbn [bind] in H; [|discriminate].
  injection H as <- <-.
  cbn [FBNLFilterBankResult.selected FBNLFilterBankResult.windows].
  assert (Hw : window = Z.max e 1).
  { unfold np_where_first in Ei.
    destruct (first_index (Z.max e 1) windows) as [k|] eqn:Ek;
      [|discriminate].
    injection Ei as <-. apply first_index_nth_error in Ek.
    apply py_get_nth_error in Ew; [|lia].
    rewrite Nat2Z.id in Ew. congruence. }
  subst window.
  destruct (filter_fbnl_window _ _ _ _ _ _ _ _ Ef) as (Hwin & Hvar).
  destruct (np_unique_spec (Z.max e 1 :: windows0)) as (Hs & Hin & _).
  exists e, (Sweep.drawn swept).
  split; [reflexivity|]. split; [exact Hwin|].
  split; [rewrite Hvar; apply or_default_some; lia|].
  split; [apply Hin; now left|]. split; [exact Hs|].
  split; [exact Ef|]. split; [exact Er|].
  eapply find_and_analyse_steps_filter; exact Er.
Qed.

End BankFacts.

(** ** The bank on binary64 numbers *)

Lemma nan_eqb_false (x : float) : (PrimFloat.nan =? x)%float = false.
Proof. rewrite FloatAxioms.eqb_spec. reflexivity. Qed.

Lemma filter_nan_minimum (l : list (float * Z)) :
  filter (fun sw : float * Z => feqb PrimFloat.nan (fst sw)) l = [].
Proof.
  induction l as [|x t IH]; [reflexivity|]. cbn [filter].
  change (feqb PrimFloat.nan (fst x)) with (PrimFloat.nan =? fst x)%float.
  now rewrite nan_eqb_false.
Qed.

(** X23.  Without a [filter_time] the window is selected at the smallest
    STD of the bank.  As soon as the STD of one window is NaN, the smallest
    STD is NaN, no window has it, and the selection raises [ValueError]
    (the conversion of NaN to an integer). *)
Theorem select_window_nan (windows : list Z) (STDs : list float) :
  existsb PrimFloat.is_nan STDs = true ->
  select_window windows STDs = Raise ValueError.
Proof.
  intros H. unfold select_window, np_min.
  destruct STDs as [|s t]; [discriminate|].
  change (@isnan float _) with PrimFloat.is_nan. rewrite H. cbn [bind].
  change (@fnan float _) with PrimFloat.nan.
  now rewrite filter_nan_minimum.
Qed.

Lemma select_window_nan_witness :
  existsb PrimFloat.is_nan [1%float; PrimFloat.nan] = true
  /\ select_window [2; 4] [1%float; PrimFloat.nan] = Raise ValueError.
Proof.
  split; [reflexivity|]. now apply select_window_nan.
Defined.

Lemma log_spaced_time_windows_increasing_witness :
  log_spaced_time_windows same_log10 same_logspace 0x1p-9%float None
                          (Some 1000%float) (Some 3)
  = Ok [2]
  /\ increasing [2].
Proof.
  assert (H : log_spaced_time_windows same_log10 same_logspace 0x1p-9%float
                None (Some 1000%float) (Some 3) = Ok [2])
    by (vm_compute; reflexivity).
  split; [exact H|].
  exact (proj1 (log_spaced_time_windows_increasing _ _ _ _ _ _ H)).
Defined.

Lemma filter_find_analyse_steps_filter_time_witness :
  exists bank res,
    analyse_noisy_step (Some 0x1p-8%float) (Some 0x1p-9%float) None (Some 3)
    = Ok (Some (bank, res))
    /\ FBNLFilterResult.window (FBNLFilterBankResult.selected bank) = 4
    /\ StepFinderResult.fbnl_filter res = FBNLFilterBankResult.selected bank.
Proof.
  destruct noisy_step_analysed as [[[bank res]|]|e] eqn:E;
    try (vm_compute in E; discriminate).
  assert (H : analyse_noisy_step (Some 0x1p-8%float) (Some 0x1p-9%float) None
                                 (Some 3) = Ok (Some (bank, res)))
    by (rewrite <- E; vm_compute; reflexivity).
  exists bank, res. split; [exact H|].
  destruct (@filter_find_analyse_steps_filter_time
              float _ same_log10 same_logspace reciprocal_power
              SpecModel.get_contiguous_segments
              SpecModel._delete_close_center draws_alternating noisy_step
              1000%float 0x1p-8%float (Some 0x1p-9%float) None (Some 3) None
              None None None true true bank res H)
    as (e & drawn & He & Hwin & _ & _ & _ & _ & _ & Hres).
  split; [|exact Hres].
  rewrite Hwin. vm_compute in He. now injection He as <-.
Defined.

(* ================================================================== *)
(** * Properties: simulated steps *)
(* ================================================================== *)

Lemma running_sums_app (s p : Z) (l : list Z) :
  running_sums s (l ++ [p]) = running_sums s l ++ [s + sum_Z l + p].
Proof.
  revert s. induction l as [|x t IH]; intros s.
  - unfold sum_Z. cbn. f_equal. lia.
  - cbn [app running_sums]. rewrite IH. unfold sum_Z. cbn [fold_right].
    replace (s + x + fold_right Z.add 0 t + p)
      with (s + (x + fold_right Z.add 0 t) + p) by lia.
    reflexivity.
Qed.

Lemma length_running_sums (s : Z) (l : list Z) :
  length (running_sums s l) = length l.
Proof. revert s. induction l; intros s; cbn; auto. Qed.

Lemma running_sums_bounded (s : Z) (l : list Z) :
  (forall d, In d l -> 0 <= d) ->
  forall x, In x (running_sums s l) -> s <= x <= s + sum_Z l.
Proof.
  revert s. induction l as [|d t IH]; intros s Hd x Hx; [destruct Hx|].
  cbn in Hx. unfold sum_Z in *. cbn [fold_right].
  assert (H0 : 0 <= d) by (apply Hd; now left).
  assert (Ht : 0 <= fold_right Z.add 0 t).
  { clear -Hd. induction t as [|y t IH]; cbn; [lia|].
    assert (0 <= y) by (apply Hd; right; now left).
    assert (0 <= fold_right Z.add 0 t)
      by (apply IH; intros z Hz; apply Hd; cbn in *; tauto).
    lia. }
  destruct Hx as [<-|Hx]; [lia|].
  specialize (IH (s + d) (fun z Hz => Hd z (or_intror Hz)) x Hx). lia.
Qed.

Lemma count_upto_app (k : Z) (l1 l2 : list Z) :
  count_upto k (l1 ++ l2) = count_upto k l1 + count_upto k l2.
Proof. unfold count_upto. now rewrite filter_app, len_app. Qed.

Lemma count_upto_all (k : Z) (l : list Z) :
  (forall x, In x l -> x <= k) -> count_upto k l = len l.
Proof.
  intros H. unfold count_upto. f_equal.
  induction l as [|x t IH]; [reflexivity|]. cbn.
  rewrite (proj2 (Z.leb_le x k)) by (apply H; now left).
  f_equal. apply IH. intros y Hy. apply H. now right.
Qed.

Section SliceInside.

Context {A : Type}.

(** An assignment of equal values to a slice that lies in the array. *)
Lemma np_set_slice_repeat (a : list A) (i p : Z) (x : A) :
  0 <= i -> 0 <= p -> i + p <= len a ->
  exists a',
    np_set_slice a i (i + p) (repeat x (Z.to_nat p)) = Ok a'
    /\ length a' = length a
    /\ forall k : nat,
         nth_error a' k =
           if (Z.to_nat i <=? k)%nat && (k <? Z.to_nat (i + p))%nat
           then Some x else nth_error a k.
Proof.
  intros Hi Hp Hlen. unfold np_set_slice, clip_index.
  destruct (Z.ltb_spec i 0); [lia|]. destruct (Z.ltb_spec (i + p) 0); [lia|].
  rewrite !Z.min_l, Z.max_r by lia.
  replace (i + p - i) with p by lia.
  rewrite repeat_length, Nat.eqb_refl.
  eexists. split; [reflexivity|].
  assert (Hpre : length (firstn (Z.to_nat i) a) = Z.to_nat i)
    by (rewrite length_firstn; unfold len in *; lia).
  split.
  - rewrite !length_app, Hpre, repeat_length, length_skipn.
    unfold len in *. lia.
  - intros k.
    destruct (Nat.leb_spec (Z.to_nat i) k); cbn [andb].
    + rewrite nth_error_app2 by lia. rewrite Hpre.
      destruct (Nat.ltb_spec k (Z.to_nat (i + p))).
      * rewrite nth_error_app1 by (rewrite repeat_length; lia).
        apply nth_error_repeat. lia.
      * rewrite nth_error_app2 by (rewrite repeat_length; lia).
        rewrite repeat_length, nth_error_skipn. f_equal. lia.
    + rewrite nth_error_app1 by lia. rewrite nth_error_firstn.
      destruct (Nat.ltb_spec k (Z.to_nat i)); [reflexivity|lia].
Qed.

End SliceInside.

Section SimulateFacts.

Context {F : Type} {SF : Scalar F}.

Variable np_floor : F -> F.
Variable np_arange_step : Z -> Z -> Z -> outcome (list Z).
Variable exponential_points : Z -> nat -> Z.
Variable choice : nat -> Z.
Variable g : nat -> F.
Variable uninitialised : nat -> F.

Lemma sum_Z_app (l : list Z) (p : Z) : sum_Z (l ++ [p]) = sum_Z l + p.
Proof.
  unfold sum_Z. induction l as [|x t IH]; cbn; [lia|]. rewrite IH. lia.
Qed.

(** One turn of the loop, from a state in which the loop goes on. *)
Lemma simulate_turn_returns (monoton constant_dwell : bool)
      (length dwell_points : Z) (step_size : F)
      (st st' : Simulation.state F) :
  in_bounds length st ->
  Simulation.i st < length ->
  simulate_turn exponential_points choice monoton constant_dwell length
                dwell_points step_size st = Ok st' ->
  let drawn := if constant_dwell then Simulation.points st
               else exponential_points dwell_points
                                       (Simulation.exponentials st) in
  let points := Z.min (length - Simulation.i st) drawn in
  let value := if monoton
               then fmul (of_Z (Simulation.step st)) step_size
               else Simulation.height st' in
  0 <= points
  /\ in_bounds length st'
  /\ Simulation.i st' = Simulation.i st + points
  /\ Simulation.points st' = points
  /\ Simulation.dwells st' = Simulation.dwells st ++ [points]
  /\ Simulation.indices st'
     = (if Simulation.i st' <? length
        then Simulation.indices st ++ [Simulation.i st']
        else Simulation.indices st)
  /\ Simulation.step st'
     = (if monoton then Simulation.step st + 1 else Simulation.step st)
  /\ forall k : nat,
       nth_error (Simulation.data st') k =
         if (Z.to_nat (Simulation.i st) <=? k)%nat
            && (k <? Z.to_nat (Simulation.i st'))%nat
         then Some value else nth_error (Simulation.data st) k.
Proof.
  intros (Hlen & Hi) Hlt H. cbv zeta. unfold simulate_turn in H.
  set (drawn := if constant_dwell then Simulation.points st else _).
  assert (Hdrawn :
            (if constant_dwell then Ok (Simulation.points st)
             else np_random_exponential_points exponential_points
                    dwell_points (Simulation.exponentials st)) = Ok drawn).
  { subst drawn. destruct constant_dwell; [reflexivity|].
    unfold np_random_exponential_points in *.
    destruct (dwell_points <? 0); [discriminate|reflexivity]. }
  rewrite Hdrawn in H. cbn [bind] in H.
  set (points := Z.min (length - Simulation.i st) drawn) in *.
  unfold np_full_checked in H.
  destruct (Z.ltb_spec points 0) as [Hneg|Hp]; cbn [bind] in H;
    [discriminate|].
  set (v := if monoton then fmul _ _ else _) in H.
  destruct (@np_set_slice_repeat _ (Simulation.data st) (Simulation.i st)
              points v) as (a' & E & Hl & Hnth); try lia.
  { unfold len. lia. }
  rewrite E in H. cbn [bind] in H. injection H as <-.
  cbn [Simulation.i Simulation.points Simulation.dwells Simulation.indices
       Simulation.step Simulation.data Simulation.height].
  split; [exact Hp|]. split.
  { split; [cbn; congruence|]. cbn. lia. }
  repeat (split; [reflexivity|]).
  intros k. rewrite Hnth. subst v. now destruct monoton.
Qed.

Lemma simulate_turn_simulated (monoton constant_dwell : bool)
      (length dwell_points : Z) (step_size : F)
      (st st' : Simulation.state F) :
  simulated length st ->
  Simulation.i st < length ->
  simulate_turn exponential_points choice monoton constant_dwell length
                dwell_points step_size st = Ok st' ->
  simulated length st'.
Proof.
  intros (Hb & Hsum & Hd & Hrun) Hlt H.
  destruct (simulate_turn_returns _ _ _ _ Hb Hlt H)
    as (Hp & Hb' & Ei & _ & Ed & Ex & _).
  split; [exact Hb'|]. rewrite Ed. split; [rewrite sum_Z_app; lia|].
  split.
  - intros d Hin. apply in_app_iff in Hin. destruct Hin as [Hin|[<-|[]]];
      [now apply Hd|exact Hp].
  - rewrite running_sums_app, Hrun, Hsum, Ex.
    destruct (Z.ltb_spec (Simulation.i st) length); [|lia].
    rewrite app_nil_r.
    destruct Hb' as (_ & Hi').
    destruct (Z.ltb_spec (Simulation.i st') length).
    + rewrite app_nil_r. do 2 f_equal. lia.
    + do 2 f_equal. lia.
Qed.

Lemma simulate_turn_staircase (constant_dwell : bool)
      (length dwell_points : Z) (step_size : F)
      (st st' : Simulation.state F) :
  simulated length st ->
  staircase step_size st ->
  Simulation.i st < length ->
  simulate_turn exponential_points choice true constant_dwell length
                dwell_points step_size st = Ok st' ->
  staircase step_size st'.
Proof.
  intros (Hb & Hsum & Hd & Hrun) (Hstep & Hdata) Hlt H.
  destruct (simulate_turn_returns _ _ _ _ Hb Hlt H)
    as (Hp & Hb' & Ei & _ & Ed & _ & Es & Hnth).
  destruct Hb as (_ & Hi).
  split.
  - rewrite Es, Ed, Hstep, len_app. unfold len. cbn. lia.
  - intros k Hk. rewrite Hnth, Ed, running_sums_app, count_upto_app, Hsum.
    assert (Enew : count_upto (Z.of_nat k)
                     [0 + Simulation.i st
                      + Z.min (length - Simulation.i st)
                          (if constant_dwell then Simulation.points st
                           else exponential_points dwell_points
                                  (Simulation.exponentials st))] = 0).
    { unfold count_upto. cbn [filter].
      destruct (Z.leb_spec
                  (0 + Simulation.i st
                   + Z.min (length - Simulation.i st)
                       (if constant_dwell then Simulation.points st
                        else exponential_points dwell_points
                               (Simulation.exponentials st)))
                  (Z.of_nat k)); [lia|reflexivity]. }
    rewrite Enew, Z.add_0_r.
    destruct (Nat.leb_spec (Z.to_nat (Simulation.i st)) k); cbn [andb].
    + destruct (Nat.ltb_spec k (Z.to_nat (Simulation.i st'))); [|lia].
      rewrite count_upto_all, Hstep.
      * unfold len. now rewrite length_running_sums.
      * intros x Hx. apply (@running_sums_bounded 0 _ Hd) in Hx. lia.
    + apply Hdata. lia.
Qed.

(** The loop, when it stops, has kept its invariants and has reached the
    end of the array. *)
Lemma simulate_loop_simulated (fuel : nat) (monoton constant_dwell : bool)
      (length dwell_points : Z) (step_size : F)
      (st st' : Simulation.state F) :
  simulated length st ->
  simulate_loop exponential_points choice fuel monoton constant_dwell length
                dwell_points step_size st = Ok (Some st') ->
  simulated length st'
  /\ length <= Simulation.i st'
  /\ (monoton = true -> staircase step_size st -> staircase step_size st').
Proof.
  revert st. induction fuel as [|fuel IH]; intros st Hs H; cbn in H.
  - destruct (Z.ltb_spec (Simulation.i st) length); [discriminate|].
    injection H as <-. auto.
  - destruct (Z.ltb_spec (Simulation.i st) length) as [Hlt|Hge].
    + destruct (simulate_turn _ _ _ _ _ _ _ _) as [st1|e] eqn:E;
        cbn [bind] in H; [|discriminate].
      destruct (IH st1 (simulate_turn_simulated _ _ _ _ Hs Hlt E) H)
        as (H1 & H2 & H3).
      split; [exact H1|]. split; [exact H2|].
      intros -> Hst. apply H3; [reflexivity|].
      exact (simulate_turn_staircase _ _ Hs Hst Hlt E).
    + injection H as <-. auto.
Qed.

(** A turn raises nothing when the dwell that is drawn is not negative. *)
Lemma simulate_turn_ok (monoton constant_dwell : bool)
      (length dwell_points : Z) (step_size : F) (st : Simulation.state F) :
  in_bounds length st ->
  Simulation.i st < length ->
  (if constant_dwell then 0 <= Simulation.points st
   else 0 <= dwell_points
        /\ 0 <= exponential_points dwell_points
                  (Simulation.exponentials st)) ->
  exists st1,
    simulate_turn exponential_points choice monoton constant_dwell length
                  dwell_points step_size st = Ok st1.
Proof.
  intros (Hlen & Hi) Hlt Hpos. unfold simulate_turn.
  set (drawn := if constant_dwell then Simulation.points st
                else exponential_points dwell_points
                                        (Simulation.exponentials st)).
  assert (Hdrawn :
            (if constant_dwell then Ok (Simulation.points st)
             else np_random_exponential_points exponential_points
                    dwell_points (Simulation.exponentials st)) = Ok drawn
            /\ 0 <= drawn).
  { subst drawn. destruct constant_dwell; [now split|].
    unfold np_random_exponential_points.
    destruct (Z.ltb_spec dwell_points 0); [lia|]. now split. }
  destruct Hdrawn as (-> & Hd). cbn [bind].
  set (points := Z.min (length - Simulation.i st) drawn).
  unfold np_full_checked.
  destruct (Z.ltb_spec points 0); [lia|]. cbn [bind].
  set (v := if monoton then fmul _ _ else _).
  destruct (@np_set_slice_repeat _ (Simulation.data st) (Simulation.i st)
              points v) as (a' & E & _); try lia.
  { unfold len. lia. }
  rewrite E. cbn [bind]. eauto.
Qed.

(** With dwells of at least one sample the loop stops within
    [length - i] turns, and raises nothing. *)
Lemma simulate_loop_stops (fuel : nat) (monoton constant_dwell : bool)
      (length dwell_points : Z) (step_size : F) (st : Simulation.state F) :
  in_bounds length st ->
  (if constant_dwell then 1 <= Simulation.points st
   else 0 <= dwell_points
        /\ forall k, 1 <= exponential_points dwell_points k) ->
  (Z.to_nat (length - Simulation.i st) <= fuel)%nat ->
  exists st',
    simulate_loop exponential_points choice fuel monoton constant_dwell
                  length dwell_points step_size st = Ok (Some st').
Proof.
  revert st. induction fuel as [|fuel IH]; intros st Hb Hpos Hfuel;
    cbn [simulate_loop].
  - destruct (Z.ltb_spec (Simulation.i st) length); [lia|]. eauto.
  - destruct (Z.ltb_spec (Simulation.i st) length) as [Hlt|Hge]; [|eauto].
    destruct (@simulate_turn_ok monoton constant_dwell length dwell_points
                step_size st Hb Hlt) as (st1 & E).
    { destruct constant_dwell; [lia|]. destruct Hpos as (H0 & H1).
      split; [exact H0|]. specialize (H1 (Simulation.exponentials st)).
      lia. }
    rewrite E. cbn [bind].
    destruct (simulate_turn_returns _ _ _ _ Hb Hlt E)
      as (Hp & Hb' & Ei & Epts & _).
    apply IH; [exact Hb'| |].
    + destruct constant_dwell; [|exact Hpos]. rewrite Epts. lia.
    + rewrite Ei. destruct constant_dwell.
      * lia.
      * destruct Hpos as (_ & H1).
        specialize (H1 (Simulation.exponentials st)). lia.
Qed.

(** With a constant dwell of no sample the loop does not stop. *)
Lemma simulate_loop_stuck (fuel : nat) (monoton : bool)
      (length dwell_points : Z) (step_size : F) (st : Simulation.state F) :
  in_bounds length st ->
  Simulation.i st < length ->
  Simulation.points st = 0 ->
  simulate_loop exponential_points choice fuel monoton true length
                dwell_points step_size st = Ok None.
Proof.
  revert st. induction fuel as [|fuel IH]; intros st Hb Hlt Hpts;
    cbn [simulate_loop].
  - destruct (Z.ltb_spec (Simulation.i st) length); [reflexivity|lia].
  - destruct (Z.ltb_spec (Simulation.i st) length); [|lia].
    destruct (@simulate_turn_ok monoton true length dwell_points
                step_size st Hb Hlt) as (st1 & E); [lia|].
    rewrite E. cbn [bind].
    destruct (simulate_turn_returns _ _ _ _ Hb Hlt E)
      as (Hp & Hb' & Ei & Epts & _).
    rewrite Hpts, Z.min_r in Ei, Epts by lia.
    apply IH; [exact Hb'|lia|exact Epts].
Qed.

End SimulateFacts.

Lemma count_upto_below (k length : Z) (l : list Z) :
  k < length -> count_upto k (l ++ [length]) = count_upto k l.
Proof.
  intros H. rewrite count_upto_app. unfold count_upto at 2. cbn [filter].
  destruct (Z.leb_spec length k); [lia|]. unfold len. cbn. lia.
Qed.

Section SimulateResults.

Context {F : Type} {SF : Scalar F}.

Variable np_floor : F -> F.
Variable np_arange_step : Z -> Z -> Z -> outcome (list Z).
Variable exponential_points : Z -> nat -> Z.
Variable choice : nat -> Z.
Variable g : nat -> F.
Variable uninitialised : nat -> F.

(** What [simulate_steps] returns from its loop is the final state of the
    loop, with noise of the length of the data. *)
Lemma simulate_steps_loop (fuel : nat)
      (duration resolution dwell_time step_size SNR : F)
      (monoton constant_dwell : bool) (sim : StepsSimulated.t F) :
  monoton && constant_dwell = false ->
  0 < round_astype_int (fmul duration resolution) ->
  simulate_steps np_floor np_arange_step exponential_points choice g
    uninitialised fuel duration resolution dwell_time step_size SNR monoton constant_dwell
  = Ok (Some sim) ->
  exists st,
    simulated (round_astype_int (fmul duration resolution)) st
    /\ Simulation.i st = round_astype_int (fmul duration resolution)
    /\ (monoton = true -> staircase step_size st)
    /\ StepsSimulated.data sim = Simulation.data st
    /\ StepsSimulated.dwells sim = Simulation.dwells st
    /\ StepsSimulated.indices sim = Simulation.indices st
    /\ StepsSimulated.number sim = len (Simulation.indices st)
    /\ length (StepsSimulated.noise sim) = length (Simulation.data st).
Proof.
  intros Hbranch Hlen H. unfold simulate_steps in H.
  rewrite Hbranch in H. cbv zeta in H.
  set (n := round_astype_int (fmul duration resolution)) in *.
  unfold np_empty in H.
  destruct (Z.ltb_spec n 0); [lia|]. cbn [bind] in H.
  set (st0 := Simulation.mk _ _ _ _ _ _ _ _ _) in H.
  destruct (simulate_loop _ _ _ _ _ _ _ _ st0) as [[st|]|e] eqn:EL;
    cbn [bind option_map] in H; try discriminate.
  destruct (py_truediv step_size SNR) as [noise_STD|e];
    cbn [bind] in H; [|discriminate].
  unfold np_random_normal_scaled, np_random_normal in H.
  destruct (negb _ && _); [discriminate|].
  destruct (Z.ltb_spec (len (Simulation.data st)) 0);
    [discriminate|]. cbn [bind] in H. injection H as <-.
  assert (Hs0 : simulated n st0).
  { subst st0. split; [split|]; cbn.
    - now rewrite length_map, length_seq.
    - lia.
    - repeat split; try reflexivity; try tauto.
      destruct (Z.ltb_spec 0 n); [reflexivity|lia]. }
  destruct (@simulate_loop_simulated _ _ _ _ _ _ _ _ _ _ _ _ Hs0 EL)
    as (Hs & Hge & Hst).
  exists st. split; [exact Hs|].
  destruct Hs as ((_ & Hi) & _). split; [lia|]. split.
  - intros Hm. apply Hst; [exact Hm|]. subst st0. split; cbn; [reflexivity|].
    intros k Hk. lia.
  - cbn. repeat (split; [reflexivity|]).
    rewrite length_map, length_seq. unfold len. lia.
Qed.

(** X24. What [simulate_steps] returns from its loop is consistent: the
    data and the noise have [length] samples, no dwell is negative, the
    dwells add up to [length], the step indices are the running sums of the
    dwells but for the last one, which is [length], and [number] counts the
    indices, one less than the dwells. *)
Theorem simulate_steps_dwells_and_indices (fuel : nat)
      (duration resolution dwell_time step_size SNR : F)
      (monoton constant_dwell : bool) (sim : StepsSimulated.t F) :
  monoton && constant_dwell = false ->
  0 < round_astype_int (fmul duration resolution) ->
  simulate_steps np_floor np_arange_step exponential_points choice g
    uninitialised fuel duration resolution dwell_time step_size SNR monoton constant_dwell
  = Ok (Some sim) ->
  let length := round_astype_int (fmul duration resolution) in
  len (StepsSimulated.data sim) = length
  /\ len (StepsSimulated.noise sim) = length
  /\ (forall d, In d (StepsSimulated.dwells sim) -> 0 <= d)
  /\ sum_Z (StepsSimulated.dwells sim) = length
  /\ running_sums 0 (StepsSimulated.dwells sim)
     = StepsSimulated.indices sim ++ [length]
  /\ StepsSimulated.number sim = len (StepsSimulated.indices sim)
  /\ len (StepsSimulated.dwells sim) = StepsSimulated.number sim + 1.
Proof.
  intros Hbranch Hlen H. cbv zeta.
  destruct (@simulate_steps_loop fuel duration resolution dwell_time step_size
              SNR monoton constant_dwell sim Hbranch Hlen H)
    as (st & ((Hl & _) & Hsum & Hd & Hrun) & Hi & _ & -> & -> & -> & -> & Hn).
  rewrite Hi in Hrun. rewrite Z.ltb_irrefl in Hrun.
  unfold len at 1 2. rewrite Hn, Hl.
  split; [lia|]. split; [lia|]. split; [exact Hd|]. split; [lia|].
  split; [exact Hrun|]. split; [reflexivity|].
  apply (f_equal (@length Z)) in Hrun.
  rewrite length_running_sums, length_app in Hrun. unfold len. cbn in Hrun.
  lia.
Qed.

(** X25. For a monotonous movement with random dwells the signal that
    [simulate_steps] returns is a staircase: sample [k] is [step_size] times
    the number of step indices up to [k]; no sample is left as [np.empty]
    made it. *)
Theorem simulate_steps_monoton_staircase (fuel : nat)
      (duration resolution dwell_time step_size SNR : F)
      (sim : StepsSimulated.t F) (k : nat) :
  simulate_steps np_floor np_arange_step exponential_points choice g
    uninitialised fuel duration resolution dwell_time step_size SNR true false
  = Ok (Some sim) ->
  Z.of_nat k < round_astype_int (fmul duration resolution) ->
  nth_error (StepsSimulated.data sim) k
  = Some (fmul (of_Z (count_upto (Z.of_nat k) (StepsSimulated.indices sim)))
               step_size).
Proof.
  intros H Hk.
  destruct (@simulate_steps_loop fuel duration resolution dwell_time step_size
              SNR true false sim eq_refl ltac:(lia) H)
    as (st & (_ & _ & _ & Hrun) & Hi & Hst & -> & _ & -> & _).
  destruct (Hst eq_refl) as (_ & Hdata).
  rewrite Hdata by lia. rewrite Hrun, Hi, Z.ltb_irrefl.
  now rewrite count_upto_below.
Qed.

(** X26.  [simulate_steps] returns when every dwell has at least one sample:
    its loop stops within [length] turns, and nothing raises when the
    length and, for random dwells, their scale are not negative, [SNR] is
    not zero (the division of two Python floats raises there) and the scale
    of the noise, [step_size / SNR], has no negative sign. *)
Theorem simulate_steps_returns (fuel : nat)
      (duration resolution dwell_time step_size SNR : F)
      (monoton constant_dwell : bool) :
  let dwell_points := round_astype_int (fmul dwell_time resolution) in
  let length := round_astype_int (fmul duration resolution) in
  monoton && constant_dwell = false ->
  0 <= length ->
  (if constant_dwell then 1 <= dwell_points
   else 0 <= dwell_points
        /\ forall k, 1 <= exponential_points dwell_points k) ->
  feqb SNR fzero = false ->
  negb (isnan (fdiv step_size SNR)) && signbit (fdiv step_size SNR)
  = false ->
  (Z.to_nat length <= fuel)%nat ->
  exists sim,
    simulate_steps np_floor np_arange_step exponential_points choice g
    uninitialised fuel duration resolution dwell_time step_size SNR monoton constant_dwell
  = Ok (Some sim).
Proof.
  cbv zeta. intros Hbranch Hlen Hpos HSNR Hscale Hfuel.
  unfold simulate_steps. rewrite Hbranch. cbv zeta.
  set (n := round_astype_int (fmul duration resolution)) in *.
  set (d := round_astype_int (fmul dwell_time resolution)) in *.
  unfold np_empty. destruct (Z.ltb_spec n 0); [lia|]. cbn [bind].
  set (st0 := Simulation.mk _ _ _ _ _ _ _ _ _).
  assert (Hb0 : in_bounds n st0).
  { subst st0. split; cbn; [now rewrite length_map, length_seq|lia]. }
  destruct (@simulate_loop_stops _ _ exponential_points choice fuel monoton
              constant_dwell n d step_size st0 Hb0) as (st & EL).
  { destruct constant_dwell; exact Hpos. }
  { subst st0. cbn. lia. }
  rewrite EL. cbn [bind option_map].
  unfold py_truediv. rewrite HSNR. cbn [bind].
  unfold np_random_normal_scaled, np_random_normal. rewrite Hscale.
  destruct (Z.ltb_spec (len (Simulation.data st)) 0) as [Hneg|_].
  { unfold len in Hneg. lia. }
  cbn [bind]. eauto.
Qed.

(** X27. With a diffusive movement and a constant dwell of no sample, the
    loop of [simulate_steps] does not stop: however many turns it is run
    for, it has not returned. *)
Theorem simulate_steps_zero_dwell (fuel : nat)
      (duration resolution dwell_time step_size SNR : F) :
  round_astype_int (fmul dwell_time resolution) = 0 ->
  0 < round_astype_int (fmul duration resolution) ->
  simulate_steps np_floor np_arange_step exponential_points choice g
    uninitialised fuel duration resolution dwell_time step_size SNR false true
  = Ok None.
Proof.
  intros Hd Hlen. unfold simulate_steps. cbn [andb]. cbv zeta.
  rewrite Hd.
  set (n := round_astype_int (fmul duration resolution)) in *.
  unfold np_empty. destruct (Z.ltb_spec n 0); [lia|]. cbn [bind].
  rewrite simulate_loop_stuck; [reflexivity| |exact Hlen|reflexivity].
  split; cbn; [now rewrite length_map, length_seq|lia].
Qed.

End SimulateResults.

Lemma simulate_steps_dwells_and_indices_witness :
  exists sim,
    simulate_monoton 100 = Ok (Some sim)
    /\ StepsSimulated.dwells sim = [3; 1; 4; 1; 5; 2]
    /\ running_sums 0 (StepsSimulated.dwells sim)
       = StepsSimulated.indices sim ++ [16].
Proof.
  destruct monoton_simulated as [[sim|]|e] eqn:E;
    try (vm_compute in E; discriminate).
  assert (H : simulate_monoton 100 = Ok (Some sim))
    by (rewrite <- E; vm_compute; reflexivity).
  exists sim. split; [exact H|]. split.
  { vm_compute in E. now injection E as <-. }
  exact (proj1 (proj2 (proj2 (proj2 (proj2
    (@simulate_steps_dwells_and_indices _ _ no_floor no_arange_step
       dwell_draws sign_draws draws_alternating (fun _ => 7%float) 100
       0x1p-6%float 1000%float 0x1p-9%float 8%float 2%float true false sim
       eq_refl eq_refl H)))))).
Defined.

Lemma simulate_steps_monoton_staircase_witness :
  exists sim,
    simulate_monoton 100 = Ok (Some sim)
    /\ nth_error (StepsSimulated.data sim) 8 = Some 24%float.
Proof.
  destruct monoton_simulated as [[sim|]|e] eqn:E;
    try (vm_compute in E; discriminate).
  assert (H : simulate_monoton 100 = Ok (Some sim))
    by (rewrite <- E; vm_compute; reflexivity).
  exists sim. split; [exact H|].
  rewrite (@simulate_steps_monoton_staircase _ _ no_floor no_arange_step
             dwell_draws sign_draws draws_alternating (fun _ => 7%float) 100
             0x1p-6%float 1000%float 0x1p-9%float 8%float 2%float sim
             8%nat H eq_refl).
  vm_compute in E. injection E as <-. reflexivity.
Defined.

Lemma simulate_steps_returns_witness :
  exists sim, simulate_diffusive 16 0x1p-9%float = Ok (Some sim).
Proof.
  apply (@simulate_steps_returns _ _ no_floor no_arange_step dwell_draws
           sign_draws draws_alternating (fun _ => 7%float) 16
           0x1p-6%float 1000%float 0x1p-9%float 8%float 2%float false true).
  - reflexivity.
  - vm_compute. discriminate.
  - vm_compute. discriminate.
  - reflexivity.
  - vm_compute. reflexivity.
  - vm_compute. lia.
Defined.

Lemma simulate_steps_zero_dwell_witness :
  simulate_diffusive 1000 0%float = Ok None.
Proof.
  apply (@simulate_steps_zero_dwell _ _ no_floor no_arange_step dwell_draws
           sign_draws draws_alternating (fun _ => 7%float) 1000
           0x1p-6%float 1000%float 0%float 8%float 2%float).
  - vm_compute. reflexivity.
  - vm_compute. reflexivity.
Defined.
